(** * bus1: the per-peer message queue and the peer wrapper

    A shallow embedding of [ipc/bus1/queue.c] and of the request validation
    of [ipc/bus1/peer.c], together with the properties of the staging/commit
    protocol that the design document states.

    Conventions.
    - A [u64] is a [Z] in the range [0, 2^64); additions that the C code
      performs on [u64] values are wrapped with [u64].
    - Pointers to queue nodes are [positive] addresses into a heap
      ([gmap]); the C [NULL] is [None].
    - The red-black tree [queue->messages] is represented by its in-order
      sequence.  [rb_next], [rb_prev], [rb_erase] and the sorted descent
      of [bus1_queue_add] act on that sequence.
    - A function returns [None] where the C code would follow a pointer
      that is not backed by the modelled heap or tree (a dangling node, or
      a node whose tree linkage belongs to some other tree). *)

From stdpp Require Import base option list sorting gmap.

Open Scope Z_scope.

#[local] Set Warnings "-clear-no-such-hyp".

Definition U64_MODULUS : Z := 2 ^ 64.

(** Truncation of an integer to an unsigned 64-bit value. *)
Definition u64 (z : Z) : Z := z mod U64_MODULUS.

(** Bitwise complement on 64 bits, the C [~x] at type [u64]. *)
Definition u64_not (z : Z) : Z := u64 (Z.lnot z).

Module Queue.

Abbreviation ptr := positive.

(** [struct bus1_queue_node]: the packed timestamp/type word, the sender
    tag, the reference count and the tree linkage.  [rb_linked] is
    [!RB_EMPTY_NODE(&node->rb)]. *)
Record bus1_queue_node := Node {
  timestamp_and_type : Z;
  sender : Z;
  ref : Z;
  rb_linked : bool
}.

(** [struct bus1_queue].  [waitq] counts the calls of
    [wake_up_interruptible(queue->waitq)]. *)
Record bus1_queue := Queue {
  clock : Z;
  front : option ptr;
  messages : list ptr;
  waitq : nat
}.

Record state := State {
  heap : gmap positive bus1_queue_node;
  queue : bus1_queue
}.

Definition set_timestamp_and_type (n : bus1_queue_node) (v : Z) :=
  Node v (sender n) (ref n) (rb_linked n).
Definition set_ref (n : bus1_queue_node) (v : Z) :=
  Node (timestamp_and_type n) (sender n) v (rb_linked n).
Definition set_rb_linked (n : bus1_queue_node) (b : bool) :=
  Node (timestamp_and_type n) (sender n) (ref n) b.

Definition set_clock (q : bus1_queue) (c : Z) :=
  Queue c (front q) (messages q) (waitq q).
Definition wake_up_interruptible (q : bus1_queue) :=
  Queue (clock q) (front q) (messages q) (S (waitq q)).

(** [RB_CLEAR_NODE(&node->rb)] *)
Definition RB_CLEAR_NODE (n : bus1_queue_node) := set_rb_linked n false.
(** [kref_get(&node->ref)] *)
Definition kref_get (n : bus1_queue_node) := set_ref n (ref n + 1).
(** [kref_put(&node->ref, bus1_queue_node_no_free)]: the release callback
    only warns, so the node stays allocated. *)
Definition kref_put (n : bus1_queue_node) := set_ref n (ref n - 1).

(** ** The red-black tree, seen through its in-order sequence *)

(** [rb_next(&node->rb)]: the in-order successor. *)
Fixpoint rb_next (p : ptr) (l : list ptr) : option ptr :=
  match l with
  | [] => None
  | x :: l' => if Pos.eqb x p then head l' else rb_next p l'
  end.

(** [rb_prev(&node->rb)]: the in-order predecessor. *)
Fixpoint rb_prev (p : ptr) (l : list ptr) : option ptr :=
  match l with
  | [] => None
  | x :: l' =>
      if Pos.eqb x p then None
      else match l' with
           | [] => None
           | y :: _ => if Pos.eqb y p then Some x else rb_prev p l'
           end
  end.

(** [rb_erase(&node->rb, &queue->messages)] *)
Fixpoint rb_erase (p : ptr) (l : list ptr) : list ptr :=
  match l with
  | [] => []
  | x :: l' => if Pos.eqb x p then l' else x :: rb_erase p l'
  end.

(** A binary tree of nodes, the shape that the red-black tree has at some
    moment, with its in-order and post-order traversals. *)
Inductive rb_tree :=
  | rb_leaf
  | rb_branch (l : rb_tree) (p : ptr) (r : rb_tree).

Fixpoint rb_inorder (t : rb_tree) : list ptr :=
  match t with
  | rb_leaf => []
  | rb_branch l p r => rb_inorder l ++ p :: rb_inorder r
  end.

Fixpoint rb_postorder (t : rb_tree) : list ptr :=
  match t with
  | rb_leaf => []
  | rb_branch l p r => rb_postorder l ++ rb_postorder r ++ [p]
  end.

(** Membership of a node in the tree. *)
Definition rb_mem (p : ptr) (l : list ptr) : bool :=
  existsb (Pos.eqb p) l.

Section WithHeader.

(** [queue.h] is not among the files modelled here.  The constant
    [BUS1_QUEUE_TYPE_MASK] selects the bits of [timestamp_and_type] that
    hold the node type; it is a parameter of the development. *)
Variable BUS1_QUEUE_TYPE_MASK : Z.

(** The order in which [rbtree_postorder_for_each_entry_safe] visits the
    nodes depends on the shape of the tree, which the in-order sequence does
    not determine.  It is a parameter; the only property used of it is that
    every node is visited once ([rbtree_postorder_visits]). *)
Variable rbtree_postorder : list ptr → list ptr.

(** From the source. *)
Definition bus1_queue_node_set_timestamp (node : bus1_queue_node) (ts : Z)
  : bus1_queue_node :=
  let tt := Z.land (timestamp_and_type node) BUS1_QUEUE_TYPE_MASK in
  set_timestamp_and_type node (Z.lor tt ts).

(** Modelled from the spec: [bus1_queue_node_get_timestamp] is declared in
    [queue.h]; the timestamp (with its stage bit) is the part of
    [timestamp_and_type] outside the type tag. *)
Definition bus1_queue_node_get_timestamp (node : bus1_queue_node) : Z :=
  Z.land (timestamp_and_type node) (u64_not BUS1_QUEUE_TYPE_MASK).

(** Modelled from the spec: [bus1_queue_node_is_staging] is declared in
    [queue.h]; the least-significant bit of the timestamp is the stage flag
    (set = staging, clear = committed). *)
Definition bus1_queue_node_is_staging (node : bus1_queue_node) : bool :=
  negb (Z.land (bus1_queue_node_get_timestamp node) 1 =? 0).

(** Modelled from the spec: [bus1_queue_node_is_queued] is declared in
    [queue.h]; a node is queued when it is linked into a queue's tree. *)
Definition bus1_queue_node_is_queued (node : bus1_queue_node) : bool :=
  rb_linked node.

(** Modelled from the spec: [bus1_queue_compare] is declared in [queue.h];
    the total order on (timestamp, sender), timestamp ascending, then sender
    ascending, as a three-way comparison. *)
Definition bus1_queue_compare (a_ts a_sender b_ts b_sender : Z) : Z :=
  if a_ts <? b_ts then -1
  else if b_ts <? a_ts then 1
  else if a_sender <? b_sender then -1
  else if b_sender <? a_sender then 1
  else 0.

(** From the source. *)
Definition bus1_queue_node_compare (node : bus1_queue_node)
    (timestamp sender' : Z) : Z :=
  bus1_queue_compare (bus1_queue_node_get_timestamp node) (sender node)
                     timestamp sender'.

(** Modelled from the spec: [bus1_queue_is_readable] is declared in
    [queue.h]; [is_readable() ⇔ front ≠ null]. *)
Definition bus1_queue_is_readable (q : bus1_queue) : bool :=
  match front q with Some _ => true | None => false end.

(** Modelled from the spec: [bus1_queue_tick] is declared in [queue.h];
    it increments [clock] by 2 and returns the new value. *)
Definition bus1_queue_tick (q : bus1_queue) : bus1_queue * Z :=
  let c := u64 (clock q + 2) in (set_clock q c, c).

(** Rounding up to the next even value, on 64 bits. *)
Definition round_up_even (ts : Z) : Z :=
  u64 (ts + Z.land ts 1).

(** Modelled from the spec: [bus1_queue_sync] is declared in [queue.h];
    it sets [clock ← max(clock, at_least rounded up to even)] and returns
    [clock]. *)
Definition bus1_queue_sync (q : bus1_queue) (at_least : Z) : bus1_queue * Z :=
  let c := Z.max (clock q) (round_up_even at_least) in (set_clock q c, c).

(** [bus1_queue_init] *)
Definition bus1_queue_init : bus1_queue := Queue 0 None [] 0.

(** The descent [while ( *slot ) ...] of [bus1_queue_add] followed by
    [rb_link_node] and [rb_insert_color]: the node goes in front of the
    first entry that it orders strictly before, hence behind all entries
    with an equal key.  The boolean is [is_leftmost]. *)
Fixpoint rb_link_sorted (h : gmap positive bus1_queue_node)
    (node : bus1_queue_node) (p : ptr) (l : list ptr)
  : option (list ptr * bool) :=
  match l with
  | [] => Some ([p], true)
  | n :: l' =>
      match h !! n with
      | None => None
      | Some iter =>
          if bus1_queue_node_compare node
               (bus1_queue_node_get_timestamp iter) (sender iter) <? 0
          then Some (p :: l, true)
          else match rb_link_sorted h node p l' with
               | None => None
               | Some (l'', _) => Some (n :: l'', false)
               end
      end
  end.

(** The same descent on a binary search tree of any shape; the
    rebalancing of [rb_insert_color] changes the shape but not the
    in-order sequence.  [rb_link_sorted_refines] relates the two. *)
Fixpoint rb_link_tree (h : gmap positive bus1_queue_node)
    (node : bus1_queue_node) (p : ptr) (t : rb_tree)
  : option (rb_tree * bool) :=
  match t with
  | rb_leaf => Some (rb_branch rb_leaf p rb_leaf, true)
  | rb_branch l n r =>
      match h !! n with
      | None => None
      | Some iter =>
          if bus1_queue_node_compare node
               (bus1_queue_node_get_timestamp iter) (sender iter) <? 0
          then match rb_link_tree h node p l with
               | None => None
               | Some (l', is_leftmost) => Some (rb_branch l' n r, is_leftmost)
               end
          else match rb_link_tree h node p r with
               | None => None
               | Some (r', _) => Some (rb_branch l n r', false)
               end
      end
  end.

(** The front update that [bus1_queue_add] performs before it re-inserts
    the node: with a front present nothing changes (the code only warns);
    without one, a linked first entry may uncover its successor. *)
Definition add_uncover_front (s : state) (p : ptr) (node : bus1_queue_node)
    (timestamp : Z) : option (option ptr) :=
  let q := queue s in
  match front q with
  | Some f => Some (Some f)
  | None =>
      if rb_linked node && negb (bool_decide (is_Some (rb_prev p (messages q))))
      then match rb_next p (messages q) with
           | None => Some None
           | Some n =>
               match heap s !! n with
               | None => None
               | Some iter =>
                   if negb (bus1_queue_node_is_staging iter) &&
                      (bus1_queue_node_compare iter timestamp (sender node) <? 0)
                   then Some (Some n)
                   else Some None
               end
           end
      else Some None
  end.

(** [bus1_queue_add] *)
Definition bus1_queue_add (s : state) (p : ptr) (timestamp : Z)
  : option state :=
  match heap s !! p with
  | None => None
  | Some node =>
      let q := queue s in
      let ts := bus1_queue_node_get_timestamp node in
      let readable := bus1_queue_is_readable q in
      (* provided timestamp must be valid *)
      if (timestamp =? 0) || (u64 (clock q + 1) <? timestamp) then Some s
      (* if unstamped, it must be unlinked, and vice versa *)
      else if eqb (ts =? 0) (rb_linked node) then Some s
      (* if stamped, it must be a valid staging timestamp from earlier *)
      else if negb (ts =? 0) && ((Z.land ts 1 =? 0) || (timestamp <? ts))
      then Some s
      (* nothing to do? *)
      else if ts =? timestamp then Some s
      else if rb_linked node && negb (rb_mem p (messages q)) then None
      else
        match add_uncover_front s p node timestamp with
        | None => None
        | Some front1 =>
            let node1 := if rb_linked node then node else kref_get node in
            let msgs1 :=
              if rb_linked node then rb_erase p (messages q) else messages q in
            let node2 :=
              set_rb_linked (bus1_queue_node_set_timestamp node1 timestamp) true in
            match rb_link_sorted (heap s) node2 p msgs1 with
            | None => None
            | Some (msgs2, is_leftmost) =>
                let front2 :=
                  if (Z.land timestamp 1 =? 0) && is_leftmost
                  then Some p else front1 in
                let q2 := Queue (clock q) front2 msgs2 (waitq q) in
                let q3 :=
                  if negb readable && bus1_queue_is_readable q2
                  then wake_up_interruptible q2 else q2 in
                Some (State (<[p := node2]> (heap s)) q3)
            end
        end
  end.

(** The four early returns of [bus1_queue_add], as one test. *)
Definition add_rejects (q : bus1_queue) (node : bus1_queue_node)
    (timestamp : Z) : bool :=
  let ts := bus1_queue_node_get_timestamp node in
  (timestamp =? 0) || (u64 (clock q + 1) <? timestamp)
  || eqb (ts =? 0) (rb_linked node)
  || negb (ts =? 0) && ((Z.land ts 1 =? 0) || (timestamp <? ts))
  || (ts =? timestamp).

(** The node as [bus1_queue_add] links it: referenced by the queue,
    stamped, and part of the tree. *)
Definition add_stamped (node : bus1_queue_node) (timestamp : Z)
  : bus1_queue_node :=
  set_rb_linked
    (bus1_queue_node_set_timestamp
       (if rb_linked node then node else kref_get node) timestamp) true.

(** The queue as [bus1_queue_add] leaves it, given the front found before
    the re-insertion and the outcome of the descent. *)
Definition add_publish (q : bus1_queue) (p : ptr) (timestamp : Z)
    (front1 : option ptr) (msgs2 : list ptr) (is_leftmost : bool)
  : bus1_queue :=
  let q2 :=
    Queue (clock q)
          (if (Z.land timestamp 1 =? 0) && is_leftmost then Some p else front1)
          msgs2 (waitq q) in
  if negb (bus1_queue_is_readable q) && bus1_queue_is_readable q2
  then wake_up_interruptible q2 else q2.

(** [bus1_queue_stage] *)
Definition bus1_queue_stage (s : state) (p : ptr) (timestamp : Z)
  : option (state * Z) :=
  let '(q1, timestamp1) := bus1_queue_sync (queue s) timestamp in
  match bus1_queue_add (State (heap s) q1) p (u64 (timestamp1 + 1)) with
  | None => None
  | Some s' => Some (s', timestamp1)
  end.

(** [bus1_queue_commit_staged] *)
Definition bus1_queue_commit_staged (s : state) (p : ptr) (timestamp : Z)
  : option (state * bool) :=
  match heap s !! p with
  | None => None
  | Some node =>
      let committed := bus1_queue_node_is_queued node in
      if committed
      then match bus1_queue_add s p timestamp with
           | None => None
           | Some s' => Some (s', committed)
           end
      else Some (s, committed)
  end.

(** [bus1_queue_commit_unstaged] *)
Definition bus1_queue_commit_unstaged (s : state) (p : ptr) : option state :=
  match heap s !! p with
  | None => None
  | Some node =>
      if negb (bus1_queue_node_is_queued node)
      then let '(q1, ts) := bus1_queue_tick (queue s) in
           bus1_queue_add (State (heap s) q1) p ts
      else Some s
  end.

(** [bus1_queue_remove]; the argument is [None] for a [NULL] node. *)
Definition bus1_queue_remove (s : state) (np : option ptr)
  : option (state * bool) :=
  match np with
  | None => Some (s, false)
  | Some p =>
      match heap s !! p with
      | None => None
      | Some node =>
          let q := queue s in
          if negb (rb_linked node) then Some (s, false)
          else if negb (rb_mem p (messages q)) then None
          else
            let readable := bus1_queue_is_readable q in
            let front1 :=
              if negb (bool_decide (is_Some (rb_prev p (messages q))))
              then match rb_next p (messages q) with
                   | None => Some None
                   | Some n =>
                       match heap s !! n with
                       | None => None
                       | Some iter =>
                           if bus1_queue_node_is_staging iter
                           then Some None else Some (Some n)
                       end
                   end
              else Some (front q) in
            match front1 with
            | None => None
            | Some f =>
                let q1 := Queue (clock q) f (rb_erase p (messages q)) (waitq q) in
                let node1 := kref_put (RB_CLEAR_NODE node) in
                let q2 :=
                  if negb readable && bus1_queue_is_readable q1
                  then wake_up_interruptible q1 else q1 in
                Some (State (<[p := node1]> (heap s)) q2, true)
            end
      end
  end.

(** The body of the loop of [bus1_queue_flush], run over the nodes in the
    order given; [list_add] puts a node at the head of the list. *)
Fixpoint flush_loop (h : gmap positive bus1_queue_node) (out : list ptr)
    (visit : list ptr) : option (gmap positive bus1_queue_node * list ptr) :=
  match visit with
  | [] => Some (h, out)
  | p :: visit' =>
      match h !! p with
      | None => None
      | Some node =>
          if bus1_queue_node_is_staging node
          then flush_loop (<[p := kref_put (RB_CLEAR_NODE node)]> h) out visit'
          else flush_loop h (p :: out) visit'
      end
  end.

(** [bus1_queue_flush] *)
Definition bus1_queue_flush (s : state) (out : list ptr)
  : option (state * list ptr) :=
  let q := queue s in
  match flush_loop (heap s) out (rbtree_postorder (messages q)) with
  | None => None
  | Some (h, out') =>
      Some (State h (Queue (clock q) None [] (waitq q)), out')
  end.

(** [bus1_queue_peek_locked].  [continuep] is the content of the output
    variable before the call; the result carries the returned node and the
    content of the variable after the call. *)
Definition bus1_queue_peek_locked (s : state) (continuep : bool)
  : option (state * option ptr * bool) :=
  let q := queue s in
  match front q with
  | None => Some (s, None, continuep)
  | Some n =>
      match heap s !! n with
      | None => None
      | Some node =>
          if negb (rb_mem n (messages q)) then None
          else
            let node1 := kref_get node in
            let s1 := State (<[n := node1]> (heap s)) q in
            match rb_next n (messages q) with
            | Some n' =>
                match heap s !! n' with
                | None => None
                | Some next =>
                    Some (s1, Some n,
                          bus1_queue_node_compare node
                            (bus1_queue_node_get_timestamp next) (sender next)
                          =? 0)
                end
            | None => Some (s1, Some n, false)
            end
      end
  end.

(** ** Sequences of queue operations *)

(** The entry points of the queue, as a transaction or a receiver calls
    them under the queue lock. *)
Inductive op :=
  | OpStage (p : ptr) (timestamp : Z)
  | OpCommitStaged (p : ptr) (timestamp : Z)
  | OpCommitUnstaged (p : ptr)
  | OpRemove (np : option ptr)
  | OpFlush
  | OpSync (timestamp : Z)
  | OpTick.

Definition step (o : op) (s : state) : option state :=
  match o with
  | OpStage p ts => fst <$> bus1_queue_stage s p ts
  | OpCommitStaged p ts => fst <$> bus1_queue_commit_staged s p ts
  | OpCommitUnstaged p => bus1_queue_commit_unstaged s p
  | OpRemove np => fst <$> bus1_queue_remove s np
  | OpFlush => fst <$> bus1_queue_flush s []
  | OpSync ts => Some (State (heap s) (fst (bus1_queue_sync (queue s) ts)))
  | OpTick => Some (State (heap s) (fst (bus1_queue_tick (queue s))))
  end.

Fixpoint run (ops : list op) (s : state) : option state :=
  match ops with
  | [] => Some s
  | o :: ops' =>
      match step o s with
      | None => None
      | Some s' => run ops' s'
      end
  end.

(** The position from which the type tag occupies [timestamp_and_type]:
    a timestamp below [2 ^ BUS1_QUEUE_TYPE_SHIFT] does not reach the tag.
    Like the mask, it is a parameter. *)
Variable BUS1_QUEUE_TYPE_SHIFT : Z.

(** The clock, and with it every timestamp the queue hands out, fits the
    timestamp part of [timestamp_and_type]. *)
Definition clock_in_range (s : state) : Prop :=
  0 ≤ clock (queue s) ∧ clock (queue s) + 1 < 2 ^ BUS1_QUEUE_TYPE_SHIFT.

(** A run of operations during which the clock stays in range. *)
Inductive exec : state → list op → state → Prop :=
  | exec_nil s : exec s [] s
  | exec_cons s o s1 ops s2 :
      step o s = Some s1 →
      clock_in_range s1 →
      exec s1 ops s2 →
      exec s (o :: ops) s2.

(** Every node of the tree is allocated. *)
Definition messages_allocated (s : state) : Prop :=
  Forall (λ p, is_Some (heap s !! p)) (messages (queue s)).

(** The sort key of a node. *)
Definition key (n : bus1_queue_node) : Z * Z :=
  (bus1_queue_node_get_timestamp n, sender n).

(** The lexicographic order on keys that [bus1_queue_compare] decides. *)
Definition key_le (a b : Z * Z) : Prop :=
  a.1 < b.1 ∨ (a.1 = b.1 ∧ a.2 ≤ b.2).

(** The order of two allocated nodes. *)
Definition node_le (h : gmap positive bus1_queue_node) (a b : ptr) : Prop :=
  ∃ na nb, h !! a = Some na ∧ h !! b = Some nb ∧ key_le (key na) (key nb).

(** The tree is a search tree: its in-order sequence ascends. *)
Definition messages_sorted (s : state) : Prop :=
  StronglySorted (node_le (heap s)) (messages (queue s)).

(** The minimum of [messages], if it exists and is committed. *)
Definition committed_minimum (s : state) : option ptr :=
  match messages (queue s) with
  | [] => None
  | p :: _ =>
      match heap s !! p with
      | Some n => if bus1_queue_node_is_staging n then None else Some p
      | None => None
      end
  end.

(** The consistency of a queue with the heap of its nodes: the tree holds
    each node once, in ascending order; its nodes are linked and carry a
    stamp that the clock has reached; the clock is even; and a front, when
    there is one, is the first node of the tree and committed. *)
Definition queue_wf (s : state) : Prop :=
  NoDup (messages (queue s))
  ∧ messages_sorted s
  ∧ (∀ p, p ∈ messages (queue s) →
       ∃ n, heap s !! p = Some n
            ∧ rb_linked n = true
            ∧ bus1_queue_node_get_timestamp n ≠ 0
            ∧ bus1_queue_node_get_timestamp n ≤ clock (queue s) + 1)
  ∧ 0 ≤ clock (queue s)
  ∧ Z.even (clock (queue s)) = true
  ∧ (∀ f, front (queue s) = Some f → committed_minimum s = Some f).

End WithHeader.

End Queue.

Module Peer.

(** The error codes that [peer.c] returns (negated in C). *)
Inductive errno :=
  | EINVAL | ENOMEM | ENOTCONN | ESHUTDOWN | EISCONN | EMSGSIZE | EFAULT
  | EAGAIN | ENOTTY.

(** An [int] return value: [0] or a negative error code. *)
Inductive retval :=
  | Ok
  | Err (e : errno).

(** [struct bus1_cmd_connect] *)
Record bus1_cmd_connect := CmdConnect {
  connect_flags : Z;
  connect_pool_size : Z
}.

(** [struct bus1_cmd_send] *)
Record bus1_cmd_send := CmdSend {
  send_flags : Z;
  ptr_destinations : Z;
  n_destinations : Z;
  ptr_vecs : Z;
  n_vecs : Z;
  ptr_handles : Z;
  n_handles : Z;
  ptr_fds : Z;
  n_fds : Z
}.

(** Modelled from the spec: [struct bus1_active] and its operations are
    declared in [active.h]; a peer is new, connected or shut down. *)
Inductive bus1_active :=
  | ACTIVE_NEW
  | ACTIVE_CONNECTED
  | ACTIVE_SHUTDOWN.

(** Modelled from the spec: [struct bus1_pool] is declared in [pool.h];
    the pool has a size and holds the slices of queued messages, named here
    by the node of the message that owns them. *)
Record bus1_pool := Pool {
  pool_size : Z;
  pool_slices : list positive
}.

(** [struct bus1_peer_info], reduced to the pool and the queue (with the
    heap of the nodes that may be queued on it). *)
Record bus1_peer_info := PeerInfo {
  pool : bus1_pool;
  queue : Queue.state
}.

(** [struct bus1_peer] *)
Record bus1_peer := Peer {
  active : bus1_active;
  info : option bus1_peer_info
}.

(** What the environment decides during [bus1_peer_info_new]: whether
    [kmalloc] succeeds, and the results of [bus1_user_ref_by_uid] and of
    [bus1_pool_create_for_peer]. *)
Record alloc_env := AllocEnv {
  kmalloc_ok : bool;
  user_ref_by_uid : retval;
  pool_create : retval
}.

(** Modelled from the spec: [bus1_active_is_new] is declared in
    [active.h]; it holds of a peer that was never connected. *)
Definition bus1_active_is_new (a : bus1_active) : bool :=
  match a with ACTIVE_NEW => true | _ => false end.

(** Modelled from the spec: [bus1_active_is_deactivated] is declared in
    [active.h]; it holds of a peer that was shut down. *)
Definition bus1_active_is_deactivated (a : bus1_active) : bool :=
  match a with ACTIVE_SHUTDOWN => true | _ => false end.

(** Modelled from the spec: [bus1_active_activate] is declared in
    [active.h]; it moves a new object to the connected state and reports
    whether it did. *)
Definition bus1_active_activate (a : bus1_active) : bus1_active * bool :=
  match a with
  | ACTIVE_NEW => (ACTIVE_CONNECTED, true)
  | _ => (a, false)
  end.

(** Modelled from the spec: [bus1_peer_acquire] (declared in [peer.h])
    succeeds on a connected peer only. *)
Definition bus1_peer_acquire (peer : bus1_peer) : bool :=
  match active peer with ACTIVE_CONNECTED => true | _ => false end.

(** Modelled from the spec: [bus1_message_deallocate_locked] is defined in
    [message.c]; it returns the slice of the message to the pool. *)
Definition bus1_message_deallocate_locked (p : positive) (pl : bus1_pool)
  : bus1_pool :=
  Pool (pool_size pl) (filter (λ x, x ≠ p) (pool_slices pl)).

(** Modelled from the spec: [bus1_pool_flush] is defined in [pool.c]; it
    drains the pool and keeps its size. *)
Definition bus1_pool_flush (pl : bus1_pool) : bus1_pool :=
  Pool (pool_size pl) [].

(** Modelled from the spec: [bus1_pool_create_for_peer] is defined in
    [pool.c]; on success the peer owns an empty pool of the requested size,
    the size that a query reports afterwards. *)
Definition bus1_pool_create_for_peer (size : Z) : bus1_pool := Pool size [].

(** Modelled from the spec: [bus1_queue_init_for_peer] is declared in
    [queue.h]; it initialises the queue of the peer as [bus1_queue_init]
    does.  No node is queued on it yet. *)
Definition bus1_queue_init_for_peer : Queue.state :=
  Queue.State ∅ Queue.bus1_queue_init.

(** [IS_ALIGNED(x, a)] of [linux/kernel.h]. *)
Definition IS_ALIGNED (x a : Z) : bool := Z.land x (a - 1) =? 0.

Section WithHeaders.

(** The uapi header [linux/bus1.h] and [asm/page.h] are not among the files
    modelled here; their constants are parameters. *)
Variable BUS1_CONNECT_FLAG_CLIENT : Z.
Variable BUS1_CONNECT_FLAG_MONITOR : Z.
Variable BUS1_CONNECT_FLAG_QUERY : Z.
Variable BUS1_CONNECT_FLAG_RESET : Z.
Variable BUS1_SEND_FLAG_CONTINUE : Z.
Variable BUS1_SEND_FLAG_SILENT : Z.
Variable BUS1_SEND_FLAG_RELEASE : Z.
Variable BUS1_VEC_MAX : Z.
Variable BUS1_FD_MAX : Z.
Variable PAGE_SIZE : Z.
Variable BITS_PER_LONG : Z.

Variable BUS1_QUEUE_TYPE_MASK : Z.
Variable rbtree_postorder : list positive → list positive.

(** Modelled from the spec: [bus1_queue_node_is_committed] is declared in
    [queue.h]; a committed node has an even, final (nonzero) timestamp. *)
Definition bus1_queue_node_is_committed (node : Queue.bus1_queue_node) : bool :=
  let ts := Queue.bus1_queue_node_get_timestamp BUS1_QUEUE_TYPE_MASK node in
  negb (ts =? 0) && (Z.land ts 1 =? 0).

(** Modelled from the spec: [bus1_queue_post_flush] is declared in
    [queue.h]; it resets [messages] to empty and [front] to null. *)
Definition bus1_queue_post_flush (q : Queue.bus1_queue) : Queue.bus1_queue :=
  Queue.Queue (Queue.clock q) None [] (Queue.waitq q).

(** The loop of [bus1_peer_info_reset]: every node is unlinked; a committed
    one has its slice deallocated and is freed. *)
Fixpoint reset_loop (h : gmap positive Queue.bus1_queue_node) (pl : bus1_pool)
    (visit : list positive)
  : option (gmap positive Queue.bus1_queue_node * bus1_pool) :=
  match visit with
  | [] => Some (h, pl)
  | p :: visit' =>
      match h !! p with
      | None => None
      | Some node =>
          let node1 := Queue.RB_CLEAR_NODE node in
          if bus1_queue_node_is_committed node1
          then reset_loop (delete p h) (bus1_message_deallocate_locked p pl) visit'
          else reset_loop (<[p := node1]> h) pl visit'
      end
  end.

(** [bus1_peer_info_reset] *)
Definition bus1_peer_info_reset (peer_info : bus1_peer_info)
  : option bus1_peer_info :=
  let s := queue peer_info in
  match reset_loop (Queue.heap s) (pool peer_info)
          (rbtree_postorder (Queue.messages (Queue.queue s))) with
  | None => None
  | Some (h, pl) =>
      Some (PeerInfo (bus1_pool_flush pl)
              (Queue.State h (bus1_queue_post_flush (Queue.queue s))))
  end.

(** [bus1_peer_info_new]; on success the new object holds the queue that
    [bus1_queue_init_for_peer] initialised and the pool that
    [bus1_pool_create_for_peer] created for [param->pool_size]. *)
Definition bus1_peer_info_new (env : alloc_env) (param : bus1_cmd_connect)
  : errno + bus1_peer_info :=
  if (connect_pool_size param =? 0) ||
     negb (IS_ALIGNED (connect_pool_size param) PAGE_SIZE)
  then inl EINVAL
  else if negb (kmalloc_ok env) then inl ENOMEM
  else match user_ref_by_uid env with
       | Err r => inl r
       | Ok =>
           match pool_create env with
           | Err r => inl r
           | Ok =>
               inr (PeerInfo
                      (bus1_pool_create_for_peer (connect_pool_size param))
                      bus1_queue_init_for_peer)
           end
       end.

(** [bus1_peer_connect_new] *)
Definition bus1_peer_connect_new (env : alloc_env) (peer : bus1_peer)
    (param : bus1_cmd_connect) : bus1_peer * retval :=
  match bus1_peer_info_new env param with
  | inl e => (peer, Err e)
  | inr peer_info =>
      if bus1_active_is_deactivated (active peer) then (peer, Err ESHUTDOWN)
      else match info peer with
           | Some _ => (peer, Err EISCONN)
           | None =>
               let '(a, activated) := bus1_active_activate (active peer) in
               if activated then (Peer a (Some peer_info), Ok)
               else (Peer a None, Err ESHUTDOWN)
           end
  end.

(** [bus1_peer_connect_reset]; [None] stands for a dereference of a peer
    that holds no [info]. *)
Definition bus1_peer_connect_reset (peer : bus1_peer) (param : bus1_cmd_connect)
  : option (bus1_peer * bus1_cmd_connect * retval) :=
  if bus1_active_is_new (active peer) then Some (peer, param, Err ENOTCONN)
  else if negb (connect_pool_size param =? 0) then Some (peer, param, Err EINVAL)
  else if negb (bus1_peer_acquire peer) then Some (peer, param, Err ESHUTDOWN)
  else
    match info peer with
    | None => None
    | Some peer_info =>
        let param1 :=
          CmdConnect (connect_flags param) (pool_size (pool peer_info)) in
        match bus1_peer_info_reset peer_info with
        | None => None
        | Some peer_info1 =>
            Some (Peer (active peer) (Some peer_info1), param1, Ok)
        end
    end.

(** [bus1_peer_connect_query] *)
Definition bus1_peer_connect_query (peer : bus1_peer) (param : bus1_cmd_connect)
  : bus1_cmd_connect * retval :=
  if bus1_active_is_new (active peer) then (param, Err ENOTCONN)
  else if negb (connect_pool_size param =? 0) then (param, Err EINVAL)
  else
    match info peer with
    | Some peer_info =>
        (CmdConnect (connect_flags param) (pool_size (pool peer_info)), Ok)
    | None => (param, Err ESHUTDOWN)
    end.

(** The C [!!x] as an integer. *)
Definition not_not (x : Z) : Z := if x =? 0 then 0 else 1.

(** [bus1_peer_connect] *)
Definition bus1_peer_connect (env : alloc_env) (peer : bus1_peer)
    (param : bus1_cmd_connect)
  : option (bus1_peer * bus1_cmd_connect * retval) :=
  let flags := connect_flags param in
  (* check for validity of all flags *)
  if negb (Z.land flags
             (u64_not (Z.lor BUS1_CONNECT_FLAG_CLIENT
                         (Z.lor BUS1_CONNECT_FLAG_QUERY
                                BUS1_CONNECT_FLAG_RESET))) =? 0)
  then Some (peer, param, Err EINVAL)
  (* only one mode can be specified *)
  else if 1 <? not_not (Z.land flags BUS1_CONNECT_FLAG_CLIENT) +
               not_not (Z.land flags BUS1_CONNECT_FLAG_MONITOR) +
               not_not (Z.land flags BUS1_CONNECT_FLAG_RESET)
  then Some (peer, param, Err EINVAL)
  else if negb (Z.land flags (Z.lor BUS1_CONNECT_FLAG_CLIENT
                                    BUS1_CONNECT_FLAG_MONITOR) =? 0)
  then let '(peer1, r) := bus1_peer_connect_new env peer param in
       Some (peer1, param, r)
  else if negb (Z.land flags BUS1_CONNECT_FLAG_RESET =? 0)
  then bus1_peer_connect_reset peer param
  else if negb (Z.land flags BUS1_CONNECT_FLAG_QUERY =? 0)
  then let '(param1, r) := bus1_peer_connect_query peer param in
       Some (peer, param1, r)
  else Some (peer, param, Err EINVAL) (* no mode specified *).

(** ** Sending *)

(** [transaction.c] and the user-memory accessors are not among the files
    modelled here.  [world] is the state they act on (the queues of all
    peers, the pools, user memory); [transaction] is
    [struct bus1_transaction]. *)
Variable world : Type.
Variable transaction : Type.
Variable bus1_transaction_new_from_user :
  bus1_cmd_send → world → world * (errno + transaction).
Variable get_user : Z → world → option Z.
Variable bus1_transaction_commit_for_id :
  transaction → Z → world → world * retval.
Variable bus1_transaction_instantiate_for_id :
  transaction → Z → world → world * retval.
Variable bus1_transaction_commit : transaction → world → world.
Variable bus1_transaction_free : transaction → world → world.

(** [(u64)(unsigned long)x] *)
Definition cast_ulong (x : Z) : Z := x mod 2 ^ BITS_PER_LONG.

(** The multicast loop of [bus1_peer_ioctl_send], from index [i] for [k]
    more destinations. *)
Fixpoint send_instantiate (t : transaction) (ptr_dest : Z) (i : Z) (k : nat)
    (w : world) : world * retval :=
  match k with
  | O => (w, Ok)
  | S k' =>
      match get_user (ptr_dest + 8 * i) w with
      | None => (w, Err EFAULT)
      | Some destination =>
          match bus1_transaction_instantiate_for_id t destination w with
          | (w1, Err e) => (w1, Err e)
          | (w1, Ok) => send_instantiate t ptr_dest (i + 1) k' w1
          end
      end
  end.

(** [bus1_peer_ioctl_send]; [import] is the result of
    [bus1_import_fixed_ioctl]. *)
Definition bus1_peer_ioctl_send (import : errno + bus1_cmd_send) (w : world)
  : world * retval :=
  match import with
  | inl e => (w, Err e)
  | inr param =>
      if negb (Z.land (send_flags param)
                 (u64_not (Z.lor BUS1_SEND_FLAG_CONTINUE
                             (Z.lor BUS1_SEND_FLAG_SILENT
                                    BUS1_SEND_FLAG_RELEASE))) =? 0)
      then (w, Err EINVAL)
      (* check basic limits; avoids integer-overflows later on *)
      else if (BUS1_VEC_MAX <? n_vecs param) || (BUS1_FD_MAX <? n_fds param)
      then (w, Err EMSGSIZE)
      (* 32bit pointer validity checks *)
      else if negb (ptr_destinations param =? cast_ulong (ptr_destinations param))
           || negb (ptr_vecs param =? cast_ulong (ptr_vecs param))
           || negb (ptr_handles param =? cast_ulong (ptr_handles param))
           || negb (ptr_fds param =? cast_ulong (ptr_fds param))
      then (w, Err EFAULT)
      else
        match bus1_transaction_new_from_user param w with
        | (w1, inl e) => (w1, Err e)
        | (w1, inr t) =>
            let ptr_dest := cast_ulong (ptr_destinations param) in
            let '(w2, r) :=
              if n_destinations param =? 1
              then (* Fastpath: unicast *)
                match get_user ptr_dest w1 with
                | None => (w1, Err EFAULT)
                | Some destination =>
                    bus1_transaction_commit_for_id t destination w1
                end
              else (* Slowpath: any message *)
                match send_instantiate t ptr_dest 0
                        (Z.to_nat (n_destinations param)) w1 with
                | (w2, Err e) => (w2, Err e)
                | (w2, Ok) => (bus1_transaction_commit t w2, Ok)
                end in
            (bus1_transaction_free t w2, r)
        end
  end.

End WithHeaders.

(** The states in which [bus1_peer_new] and [bus1_peer_connect] leave a
    peer: a new peer holds no [info]; a connected peer holds one, whose
    queue links each node once and links allocated nodes only.  Nothing is
    asked of a peer that was shut down. *)
Definition peer_wf (peer : bus1_peer) : Prop :=
  match active peer with
  | ACTIVE_NEW => info peer = None
  | ACTIVE_CONNECTED =>
      ∃ peer_info,
        info peer = Some peer_info
        ∧ NoDup (Queue.messages (Queue.queue (queue peer_info)))
        ∧ Queue.messages_allocated (queue peer_info)
  | ACTIVE_SHUTDOWN => True
  end.

End Peer.

(** * Concrete data for the examples *)

Module Examples.
Import Queue.

(** The layout used on Linux: the type tag sits in the two topmost bits. *)
Definition type_shift : Z := 62.
Definition type_mask : Z := Z.shiftl 3 type_shift.

(** A traversal order for the flush loop. *)
Definition visit_in_order (l : list positive) : list positive := l.

(** A freshly created node: unstamped, unlinked, one reference held by its
    transaction. *)
Definition fresh (sender' : Z) : bus1_queue_node := Node 0 sender' 1 false.

(** Three fresh nodes, the first two of the same sender, on an empty
    queue. *)
Definition heap3 : gmap positive bus1_queue_node :=
  <[1%positive := fresh 7]> (<[2%positive := fresh 7]> (<[3%positive := fresh 9]> ∅)).
Definition start3 : state := State heap3 bus1_queue_init.

(** One fresh node on an empty queue. *)
Definition start1 : state :=
  State (<[1%positive := fresh 7]> ∅) bus1_queue_init.

(** The run that ends with two committed parts of one transaction (nodes 1
    and 2, same sender) and a unicast message (node 3) in the queue. *)
Definition two_part_commit : list op :=
  [OpStage 1 0; OpStage 2 0; OpCommitUnstaged 3;
   OpCommitStaged 1 2; OpCommitStaged 2 2].

(** A queue with one node staged at 1 (clock 0). *)
Definition staged1 : state :=
  State (<[1%positive := Node 1 7 2 true]> ∅) (Queue 0 None [1%positive] 0).

(** The same queue after the clock was synced to 2. *)
Definition staged1_synced : state :=
  State (<[1%positive := Node 1 7 2 true]> ∅) (Queue 2 None [1%positive] 0).

(** The same node after [bus1_queue_remove]: unlinked, stamp left behind. *)
Definition removed1 : state :=
  State (<[1%positive := Node 1 7 1 false]> ∅) (Queue 0 None [] 0).



(** A committed node (stamp 6) in front of a staged one (stamp 7). *)
Definition committed_then_staged : state :=
  State (<[1%positive := Node 6 7 1 true]> (<[2%positive := Node 7 9 2 true]> ∅))
        (Queue 6 (Some 1%positive) [1%positive; 2%positive] 1).

(** Two committed parts of one transaction (equal keys) at the front. *)
Definition two_parts : state :=
  State (<[1%positive := Node 2 7 1 true]> (<[2%positive := Node 2 7 1 true]> ∅))
        (Queue 2 (Some 1%positive) [1%positive; 2%positive] 1).

(** The queue of [start3] after node 1 was committed (at 2) and node 2
    staged (at 3); node 3 is still fresh. *)
Definition commit_then_stage : list op := [OpCommitUnstaged 1; OpStage 2 0].
Definition committed_staged_fresh : state :=
  State (<[1%positive := Node 2 7 2 true]>
           (<[2%positive := Node 3 7 2 true]> (<[3%positive := fresh 9]> ∅)))
        (Queue 2 (Some 1%positive) [1%positive; 2%positive] 1).

(** A search tree over the two queued nodes of [committed_staged_fresh]. *)
Definition tree12 : rb_tree :=
  rb_branch rb_leaf 1%positive (rb_branch rb_leaf 2%positive rb_leaf).

(** The constants of the uapi header as Linux defines them. *)
Definition CONNECT_FLAG_CLIENT : Z := 1.
Definition CONNECT_FLAG_MONITOR : Z := 2.
Definition CONNECT_FLAG_QUERY : Z := 4.
Definition CONNECT_FLAG_RESET : Z := 8.
Definition SEND_FLAG_CONTINUE : Z := 1.
Definition SEND_FLAG_SILENT : Z := 2.
Definition SEND_FLAG_RELEASE : Z := 4.
Definition VEC_MAX : Z := 512.
Definition FD_MAX : Z := 256.
Definition page_size : Z := 4096.
Definition bits_per_long : Z := 64.

(** An environment in which every allocation succeeds. *)
Definition env_ok : Peer.alloc_env := Peer.AllocEnv true Peer.Ok Peer.Ok.

(** A peer that was never connected. *)
Definition peer_new : Peer.bus1_peer := Peer.Peer Peer.ACTIVE_NEW None.

(** A connected peer with a pool of two pages whose queue holds a committed
    and a staged message; the committed one owns a slice. *)
Definition peer_connected : Peer.bus1_peer :=
  Peer.Peer Peer.ACTIVE_CONNECTED
    (Some (Peer.PeerInfo (Peer.Pool 8192 [1%positive]) committed_then_staged)).

(** [bus1_peer_connect] and [bus1_peer_ioctl_send] with these constants;
    the transaction layer is a stub that must not be reached. *)
Definition connect :=
  Peer.bus1_peer_connect CONNECT_FLAG_CLIENT CONNECT_FLAG_MONITOR
    CONNECT_FLAG_QUERY CONNECT_FLAG_RESET page_size type_mask visit_in_order.

Definition send (import : Peer.errno + Peer.bus1_cmd_send) (w : nat)
  : nat * Peer.retval :=
  Peer.bus1_peer_ioctl_send SEND_FLAG_CONTINUE SEND_FLAG_SILENT
    SEND_FLAG_RELEASE VEC_MAX FD_MAX bits_per_long nat unit
    (λ _ w, (S w, inr tt)) (λ _ _, Some 0)
    (λ _ _ w, (S w, Peer.Ok)) (λ _ _ w, (S w, Peer.Ok))
    (λ _ w, S w) (λ _ w, S w) import w.


End Examples.

(** * Properties of the queue *)

Module QueueFacts.
Import Queue.

Section Facts.

Variable BUS1_QUEUE_TYPE_MASK : Z.
Variable rbtree_postorder : list positive → list positive.
Variable BUS1_QUEUE_TYPE_SHIFT : Z.

Hypothesis type_shift_range : 0 ≤ BUS1_QUEUE_TYPE_SHIFT ≤ 64.
Hypothesis type_mask_above_shift :
  Z.land BUS1_QUEUE_TYPE_MASK (Z.ones BUS1_QUEUE_TYPE_SHIFT) = 0.
Hypothesis rbtree_postorder_visits : ∀ l, rbtree_postorder l ≡ₚ l.

(** The solvers of stdpp generalise over every hypothesis in sight; these
    variants first drop the section hypotheses, so that a lemma depends on
    them only when its proof needs them. *)
Local Ltac drop_section_hypotheses :=
  try clear type_shift_range;
  try clear type_mask_above_shift;
  try clear rbtree_postorder_visits;
  try clear rbtree_postorder;
  try clear BUS1_QUEUE_TYPE_SHIFT;
  try clear BUS1_QUEUE_TYPE_MASK.
Local Ltac elem_solver := drop_section_hypotheses; set_solver.
Local Ltac first_order_solver := drop_section_hypotheses; naive_solver.

Local Abbreviation get_timestamp :=
  (bus1_queue_node_get_timestamp BUS1_QUEUE_TYPE_MASK).
Local Abbreviation set_timestamp :=
  (bus1_queue_node_set_timestamp BUS1_QUEUE_TYPE_MASK).
Local Abbreviation is_staging :=
  (bus1_queue_node_is_staging BUS1_QUEUE_TYPE_MASK).
Local Abbreviation node_compare :=
  (bus1_queue_node_compare BUS1_QUEUE_TYPE_MASK).
Local Abbreviation queue_add := (bus1_queue_add BUS1_QUEUE_TYPE_MASK).
Local Abbreviation queue_stage := (bus1_queue_stage BUS1_QUEUE_TYPE_MASK).
Local Abbreviation queue_commit_staged :=
  (bus1_queue_commit_staged BUS1_QUEUE_TYPE_MASK).
Local Abbreviation queue_commit_unstaged :=
  (bus1_queue_commit_unstaged BUS1_QUEUE_TYPE_MASK).
Local Abbreviation queue_remove := (bus1_queue_remove BUS1_QUEUE_TYPE_MASK).
Local Abbreviation queue_flush :=
  (bus1_queue_flush BUS1_QUEUE_TYPE_MASK rbtree_postorder).
Local Abbreviation queue_peek_locked :=
  (bus1_queue_peek_locked BUS1_QUEUE_TYPE_MASK).
Local Abbreviation in_range := (clock_in_range BUS1_QUEUE_TYPE_SHIFT).

(** ** Machine arithmetic *)

Lemma u64_small z : 0 ≤ z < 2 ^ 64 → u64 z = z.
Proof using Type. intros H. unfold u64, U64_MODULUS. by apply Z.mod_small. Qed.

Lemma u64_nonneg z : 0 ≤ u64 z.
Proof using Type. unfold u64, U64_MODULUS. apply Z.mod_pos_bound. lia. Qed.

Lemma pow_shift_le_64 : 2 ^ BUS1_QUEUE_TYPE_SHIFT ≤ 2 ^ 64.
Proof using type_shift_range. apply Z.pow_le_mono_r; lia. Qed.

Lemma land_1_odd z : (Z.land z 1 =? 0) = negb (Z.odd z).
Proof using Type.
  change 1 with (Z.ones 1). rewrite Z.land_ones by lia.
  change (2 ^ 1) with 2. rewrite Zmod_odd. by destruct (Z.odd z).
Qed.

(** A timestamp below the type tag is read back as written. *)
Lemma get_set_timestamp node ts :
  0 ≤ ts < 2 ^ BUS1_QUEUE_TYPE_SHIFT →
  get_timestamp (set_timestamp node ts) = ts.
Proof using type_shift_range type_mask_above_shift.
  intros Hts.
  unfold bus1_queue_node_get_timestamp, bus1_queue_node_set_timestamp,
    set_timestamp_and_type, u64_not, u64, U64_MODULUS; simpl.
  rewrite <- Z.land_ones by lia.
  assert (Hlow : Z.land ts (Z.ones BUS1_QUEUE_TYPE_SHIFT) = ts).
  { rewrite Z.land_ones by lia. apply Z.mod_small. lia. }
  apply Z.bits_inj'. intros i Hi.
  rewrite !Z.land_spec, Z.lor_spec, Z.land_spec, Z.lnot_spec by done.
  assert (Hm : Z.testbit BUS1_QUEUE_TYPE_MASK i
               && Z.testbit (Z.ones BUS1_QUEUE_TYPE_SHIFT) i = false).
  { rewrite <- Z.land_spec, type_mask_above_shift. apply Z.bits_0. }
  assert (Ht : Z.testbit ts i
               = Z.testbit ts i && Z.testbit (Z.ones BUS1_QUEUE_TYPE_SHIFT) i).
  { by rewrite <- Z.land_spec, Hlow. }
  destruct (Z.testbit ts i) eqn:Eti.
  - symmetry in Ht. rewrite andb_true_l in Ht. rewrite Ht, andb_true_r in Hm.
    rewrite Hm, orb_true_r. simpl.
    rewrite Z.testbit_ones_nonneg in Ht by lia. apply Z.ltb_lt in Ht.
    rewrite Z.testbit_ones_nonneg by lia.
    apply Z.ltb_lt. lia.
  - rewrite orb_false_r.
    by destruct (Z.testbit (timestamp_and_type node) i),
      (Z.testbit BUS1_QUEUE_TYPE_MASK i).
Qed.

Lemma get_timestamp_nonneg node : 0 ≤ get_timestamp node.
Proof using Type.
  unfold bus1_queue_node_get_timestamp. apply Z.land_nonneg. right.
  apply u64_nonneg.
Qed.

Lemma get_timestamp_set_ref node v :
  get_timestamp (set_ref node v) = get_timestamp node.
Proof using Type. done. Qed.

Lemma get_timestamp_set_rb_linked node b :
  get_timestamp (set_rb_linked node b) = get_timestamp node.
Proof using Type. done. Qed.

Lemma is_staging_odd node : is_staging node = Z.odd (get_timestamp node).
Proof using Type.
  unfold bus1_queue_node_is_staging. rewrite land_1_odd. apply negb_involutive.
Qed.

(** ** The comparator *)

Lemma compare_eq_0 a_ts a_s b_ts b_s :
  bus1_queue_compare a_ts a_s b_ts b_s = 0 ↔ a_ts = b_ts ∧ a_s = b_s.
Proof using Type.
  unfold bus1_queue_compare.
  repeat case_match; rewrite ?Z.ltb_lt, ?Z.ltb_ge in *; split; (lia || intros [??]; lia).
Qed.

Lemma compare_lt_0 a_ts a_s b_ts b_s :
  bus1_queue_compare a_ts a_s b_ts b_s < 0
  ↔ a_ts < b_ts ∨ (a_ts = b_ts ∧ a_s < b_s).
Proof using Type.
  unfold bus1_queue_compare.
  repeat case_match; rewrite ?Z.ltb_lt, ?Z.ltb_ge in *; lia.
Qed.

(** ** The tree operations on the in-order sequence *)

Lemma rb_mem_elem_of p l : rb_mem p l = true ↔ p ∈ l.
Proof using Type.
  unfold rb_mem. rewrite existsb_exists. split.
  - intros (x & Hx & Heq). apply Pos.eqb_eq in Heq. subst.
    by apply list_elem_of_In.
  - intros H. exists p. split; [by apply list_elem_of_In | apply Pos.eqb_refl].
Qed.

Lemma rb_next_elem_of p n l : rb_next p l = Some n → n ∈ l.
Proof using Type.
  induction l as [|x l IH]; simpl; [done|].
  destruct (Pos.eqb x p).
  - destruct l; simpl; [done|]. intros [= ->]. elem_solver.
  - intros H. elem_solver.
Qed.

Lemma rb_erase_subseteq p l : rb_erase p l ⊆ l.
Proof using Type.
  induction l as [|x l IH]; simpl; [done|].
  destruct (Pos.eqb x p); elem_solver.
Qed.

Lemma rb_erase_not_elem_of p l : p ∉ l → rb_erase p l = l.
Proof using Type.
  induction l as [|x l IH]; simpl; [done|].
  intros Hn. destruct (Pos.eqb_spec x p); [elem_solver|].
  f_equal. apply IH. elem_solver.
Qed.

Lemma messages_allocated_lookup s p :
  messages_allocated s → p ∈ messages (queue s) → is_Some (heap s !! p).
Proof using Type.
  unfold messages_allocated. rewrite Forall_forall. auto.
Qed.

(** ** [bus1_queue_add] *)

Lemma bus1_queue_add_unfold s p t :
  queue_add s p t =
  match heap s !! p with
  | None => None
  | Some node =>
      if add_rejects BUS1_QUEUE_TYPE_MASK (queue s) node t then Some s
      else if rb_linked node && negb (rb_mem p (messages (queue s))) then None
      else
        match add_uncover_front BUS1_QUEUE_TYPE_MASK s p node t with
        | None => None
        | Some front1 =>
            match rb_link_sorted BUS1_QUEUE_TYPE_MASK (heap s)
                    (add_stamped BUS1_QUEUE_TYPE_MASK node t) p
                    (if rb_linked node then rb_erase p (messages (queue s))
                     else messages (queue s)) with
            | None => None
            | Some (msgs2, lm) =>
                Some (State (<[p := add_stamped BUS1_QUEUE_TYPE_MASK node t]> (heap s))
                            (add_publish (queue s) p t front1 msgs2 lm))
            end
        end
  end.
Proof using Type.
  unfold bus1_queue_add, add_rejects, add_stamped, add_publish.
  destruct (heap s !! p) as [node|]; [|done].
  destruct (t =? 0); [done|]. destruct (u64 (clock (queue s) + 1) <? t); [done|].
  destruct (eqb _ _); [done|]. simpl.
  destruct (negb _ && _); [done|]. simpl.
  destruct (get_timestamp node =? t); [done|].
  destruct (rb_linked node); simpl; repeat case_match; done.
Qed.

(** What passing the checks of [bus1_queue_add] means. *)
Lemma add_rejects_false q node t :
  add_rejects BUS1_QUEUE_TYPE_MASK q node t = false ↔
  t ≠ 0 ∧ t ≤ u64 (clock q + 1)
  ∧ (get_timestamp node = 0 ↔ rb_linked node = false)
  ∧ (get_timestamp node ≠ 0 →
     Z.odd (get_timestamp node) = true ∧ get_timestamp node ≤ t)
  ∧ get_timestamp node ≠ t.
Proof using Type.
  unfold add_rejects. rewrite land_1_odd.
  generalize (u64 (clock q + 1)) (get_timestamp node). intros c ts.
  destruct (Z.eqb_spec t 0), (Z.ltb_spec c t), (Z.eqb_spec ts 0),
    (rb_linked node), (Z.odd ts), (Z.ltb_spec t ts), (Z.eqb_spec ts t);
    simpl; (split;
      [ intros Hb; try discriminate Hb;
        repeat split; intros; try lia; try done
      | intros (H1 & H2 & [H3 H3'] & H4 & H5); try reflexivity; exfalso;
        try lia;
        try (specialize (H3 ltac:(lia)); discriminate);
        try (specialize (H3' eq_refl); lia);
        try (destruct H4 as [H4 H4']; [lia|]; (discriminate || lia)) ]).
Qed.

Lemma add_stamped_timestamp node t :
  0 ≤ t < 2 ^ BUS1_QUEUE_TYPE_SHIFT →
  get_timestamp (add_stamped BUS1_QUEUE_TYPE_MASK node t) = t.
Proof using type_shift_range type_mask_above_shift.
  intros Ht. unfold add_stamped. rewrite get_timestamp_set_rb_linked.
  by apply get_set_timestamp.
Qed.

Lemma add_stamped_sender node t :
  sender (add_stamped BUS1_QUEUE_TYPE_MASK node t) = sender node.
Proof using Type. unfold add_stamped. by destruct (rb_linked node). Qed.

Lemma add_stamped_linked node t :
  rb_linked (add_stamped BUS1_QUEUE_TYPE_MASK node t) = true.
Proof using Type. done. Qed.

Lemma add_stamped_ref node t :
  ref (add_stamped BUS1_QUEUE_TYPE_MASK node t)
  = if rb_linked node then ref node else ref node + 1.
Proof using Type. unfold add_stamped. by destruct (rb_linked node). Qed.

(** [bus1_queue_add] changes the heap at most at its node, and only by
    stamping it. *)
Lemma add_heap s p t s' :
  queue_add s p t = Some s' →
  heap s' = heap s
  ∨ ∃ node, heap s !! p = Some node
            ∧ add_rejects BUS1_QUEUE_TYPE_MASK (queue s) node t = false
            ∧ heap s' = <[p := add_stamped BUS1_QUEUE_TYPE_MASK node t]> (heap s).
Proof using Type.
  rewrite bus1_queue_add_unfold.
  destruct (heap s !! p) as [node|]; [|done].
  destruct (add_rejects _ _ _ _) eqn:Hrej; [intros [= <-]; by left|].
  destruct (rb_linked node && _); [done|].
  destruct (add_uncover_front _ _ _ _ _); [|done].
  destruct (rb_link_sorted _ _ _ _ _) as [[msgs2 lm]|]; [|done].
  intros [= <-]. right. by exists node.
Qed.

Lemma add_clock s p t s' :
  queue_add s p t = Some s' → clock (queue s') = clock (queue s).
Proof using Type.
  rewrite bus1_queue_add_unfold.
  destruct (heap s !! p) as [node|]; [|done].
  destruct (add_rejects _ _ _ _); [by intros [= <-]|].
  destruct (rb_linked node && _); [done|].
  destruct (add_uncover_front _ _ _ _ _); [|done].
  destruct (rb_link_sorted _ _ _ _ _) as [[msgs2 lm]|]; [|done].
  intros [= <-]. simpl. unfold add_publish. by case_match.
Qed.


(** ** The sorted descent *)

Lemma compare_ltb_key a b :
  (node_compare a (get_timestamp b) (sender b) <? 0) = false
  ↔ key_le (key BUS1_QUEUE_TYPE_MASK b) (key BUS1_QUEUE_TYPE_MASK a).
Proof using Type.
  rewrite Z.ltb_ge. unfold bus1_queue_node_compare, key_le, key. simpl.
  pose proof (compare_lt_0 (get_timestamp a) (sender a)
                (get_timestamp b) (sender b)). lia.
Qed.

(** The descent splits the sequence behind the last entry whose key is at
    most the key of the new node. *)
Lemma rb_link_sorted_spec h node p l :
  Forall (λ x, is_Some (h !! x)) l →
  ∃ l1 l2,
    l = l1 ++ l2
    ∧ rb_link_sorted BUS1_QUEUE_TYPE_MASK h node p l
      = Some (l1 ++ p :: l2, bool_decide (l1 = []))
    ∧ Forall (λ x, ∃ nx, h !! x = Some nx
                         ∧ key_le (key BUS1_QUEUE_TYPE_MASK nx)
                                  (key BUS1_QUEUE_TYPE_MASK node)) l1
    ∧ (∀ x, head l2 = Some x →
         ∃ nx, h !! x = Some nx
               ∧ ¬ key_le (key BUS1_QUEUE_TYPE_MASK nx)
                          (key BUS1_QUEUE_TYPE_MASK node)).
Proof using Type.
  induction 1 as [|x l [nx Hx] Hall IH]; simpl.
  - exists [], []. by repeat split.
  - rewrite Hx.
    destruct (node_compare node (get_timestamp nx) (sender nx) <? 0) eqn:Hc.
    + exists [], (x :: l). repeat split; [done|].
      intros y [= <-]. exists nx. split; [done|].
      intros Hle. apply compare_ltb_key in Hle. congruence.
    + destruct IH as (l1 & l2 & -> & -> & Hl1 & Hl2).
      exists (x :: l1), l2. repeat split; [|done].
      constructor; [|done]. exists nx. split; [done|].
      by apply compare_ltb_key.
Qed.

(** ** Order of the keys *)

Local Abbreviation node_key := (key BUS1_QUEUE_TYPE_MASK).
Local Abbreviation heap_le := (node_le BUS1_QUEUE_TYPE_MASK).

Lemma key_le_trans a b c : key_le a b → key_le b c → key_le a c.
Proof using Type. unfold key_le. lia. Qed.

Lemma key_le_total a b : key_le a b ∨ key_le b a.
Proof using Type. unfold key_le. lia. Qed.

Lemma heap_le_insert_ne h p n x y :
  x ≠ p → y ≠ p → heap_le h x y → heap_le (<[p := n]> h) x y.
Proof using Type.
  intros Hx Hy (nx & ny & ? & ? & ?). exists nx, ny.
  by rewrite !lookup_insert_ne.
Qed.

Lemma StronglySorted_impl_elem {A} (R R' : relation A) l :
  (∀ x y, x ∈ l → y ∈ l → R x y → R' x y) →
  StronglySorted R l → StronglySorted R' l.
Proof using Type.
  induction l as [|a l IH]; intros Himpl Hs; [constructor|].
  apply StronglySorted_cons in Hs as [Hall Hs].
  constructor.
  - apply IH; [|done]. intros x y ???. apply Himpl; elem_solver.
  - rewrite Forall_forall in *. intros y Hy. apply Himpl; elem_solver.
Qed.

(** Putting a node where the descent places it keeps the sequence
    ascending. *)
Lemma sorted_insert h node2 p l1 l2 :
  p ∉ l1 ++ l2 →
  StronglySorted (heap_le h) (l1 ++ l2) →
  Forall (λ x, is_Some (h !! x)) (l1 ++ l2) →
  Forall (λ x, ∃ nx, h !! x = Some nx ∧ key_le (node_key nx) (node_key node2)) l1 →
  (∀ x, head l2 = Some x →
     ∃ nx, h !! x = Some nx ∧ ¬ key_le (node_key nx) (node_key node2)) →
  StronglySorted (heap_le (<[p := node2]> h)) (l1 ++ p :: l2).
Proof using Type.
  intros Hp Hs Hall Hl1 Hl2.
  assert (Hne : ∀ x, x ∈ l1 ++ l2 → x ≠ p) by (intros x Hx ->; done).
  assert (Hs' : StronglySorted (heap_le (<[p := node2]> h)) (l1 ++ l2)).
  { eapply StronglySorted_impl_elem; [|done].
    intros x y Hx Hy. apply heap_le_insert_ne; auto. }
  apply StronglySorted_app in Hs' as (H12 & Hs1 & Hs2).
  apply StronglySorted_app_2; [|done|].
  - intros x1 x2 Hx1 Hx2. apply elem_of_cons in Hx2 as [->|Hx2]; [|by apply H12].
    rewrite Forall_forall in Hl1. destruct (Hl1 x1 Hx1) as (nx & Hnx & Hle).
    exists nx, node2. rewrite lookup_insert_eq, lookup_insert_ne; [done|].
    intros Heq. apply (Hne x1); [elem_solver|done].
  - constructor; [done|].
    destruct l2 as [|y l2]; [constructor|].
    destruct (Hl2 y eq_refl) as (ny & Hny & Hnle).
    assert (Hyp : y ≠ p) by (apply Hne; elem_solver).
    assert (Hpy : key_le (node_key node2) (node_key ny)).
    { destruct (key_le_total (node_key node2) (node_key ny)); done. }
    apply StronglySorted_cons in Hs2 as [Hy2 _].
    constructor.
    + exists node2, ny. by rewrite lookup_insert_eq, lookup_insert_ne.
    + rewrite Forall_forall in *. intros z Hz.
      destruct (Hy2 z Hz) as (ny' & nz & Hy' & Hz' & Hle).
      assert (Hzp : z ≠ p) by (apply Hne; elem_solver).
      rewrite lookup_insert_ne in Hy', Hz' by done.
      rewrite Hny in Hy'. injection Hy' as <-.
      exists node2, nz. rewrite lookup_insert_eq, lookup_insert_ne by done.
      repeat split; try done. by eapply key_le_trans.
Qed.

(** ** The sequence model and trees of any shape *)

Lemma rb_postorder_inorder t : rb_postorder t ≡ₚ rb_inorder t.
Proof using Type.
  induction t as [|l IHl p r IHr]; simpl; [done|].
  rewrite IHl, IHr. f_equiv. by rewrite <- Permutation_cons_append.
Qed.

Lemma rb_link_sorted_app_l h node p l1 n iter rest l1' lm :
  rb_link_sorted BUS1_QUEUE_TYPE_MASK h node p l1 = Some (l1', lm) →
  h !! n = Some iter →
  (node_compare node (get_timestamp iter) (sender iter) <? 0) = true →
  rb_link_sorted BUS1_QUEUE_TYPE_MASK h node p (l1 ++ n :: rest)
  = Some (l1' ++ n :: rest, lm).
Proof using Type.
  revert l1' lm. induction l1 as [|x l1 IH]; simpl; intros l1' lm Hl Hn Hc.
  - injection Hl as <- <-. by rewrite Hn, Hc.
  - destruct (h !! x) as [nx|]; [|done].
    destruct (node_compare node (get_timestamp nx) (sender nx) <? 0);
      [by injection Hl as <- <-|].
    destruct (rb_link_sorted _ h node p l1) as [[l1'' lm']|]; [|done].
    injection Hl as <- <-. by rewrite (IH _ _ eq_refl Hn Hc).
Qed.

Lemma rb_link_sorted_app_r h node p l1 rest rest' lm :
  Forall (λ x, ∃ nx, h !! x = Some nx
               ∧ (node_compare node (get_timestamp nx) (sender nx) <? 0) = false)
         l1 →
  l1 ≠ [] →
  rb_link_sorted BUS1_QUEUE_TYPE_MASK h node p rest = Some (rest', lm) →
  rb_link_sorted BUS1_QUEUE_TYPE_MASK h node p (l1 ++ rest)
  = Some (l1 ++ rest', false).
Proof using Type.
  induction 1 as [|x l1 (nx & Hx & Hc) Hall IH]; [done|].
  intros _ Hrest. simpl. rewrite Hx, Hc.
  destruct l1 as [|y l1]; simpl in *.
  - by rewrite Hrest.
  - by rewrite IH.
Qed.

(** On a search tree the descent of [bus1_queue_add] and its model on the
    in-order sequence agree: they produce the same sequence and the same
    [is_leftmost], whatever the shape of the tree. *)
Lemma rb_link_sorted_refines h node p t t' lm :
  StronglySorted (heap_le h) (rb_inorder t) →
  rb_link_tree BUS1_QUEUE_TYPE_MASK h node p t = Some (t', lm) →
  rb_link_sorted BUS1_QUEUE_TYPE_MASK h node p (rb_inorder t)
  = Some (rb_inorder t', lm).
Proof using Type.
  revert t' lm. induction t as [|l IHl n r IHr]; simpl; intros t' lm Hs Ht.
  - by injection Ht as <- <-.
  - destruct (h !! n) as [iter|] eqn:Hn; [|done].
    apply StronglySorted_app in Hs as (Hln & Hsl & Hsr).
    destruct (node_compare node (get_timestamp iter) (sender iter) <? 0) eqn:Hc.
    + destruct (rb_link_tree _ h node p l) as [[l' lm']|] eqn:Hl; [|done].
      injection Ht as <- <-. simpl.
      by apply (rb_link_sorted_app_l _ _ _ _ _ iter); [apply IHl|..].
    + destruct (rb_link_tree _ h node p r) as [[r' lm']|] eqn:Hr; [|done].
      injection Ht as <- <-. simpl.
      apply StronglySorted_cons in Hsr as [_ Hsr].
      specialize (IHr _ _ Hsr eq_refl).
      change (rb_inorder l ++ n :: rb_inorder r)
        with (rb_inorder l ++ [n] ++ rb_inorder r).
      change (rb_inorder l ++ n :: rb_inorder r')
        with (rb_inorder l ++ [n] ++ rb_inorder r').
      rewrite !app_assoc.
      eapply rb_link_sorted_app_r; [|by destruct (rb_inorder l)|done].
      apply Forall_app. split; [|by repeat econstructor].
      apply Forall_forall. intros x Hx.
      destruct (Hln x n Hx) as (nx & nn & Hnx & Hnn & Hle);
        [apply list_elem_of_here|].
      rewrite Hn in Hnn. injection Hnn as <-.
      exists nx. split; [done|]. apply compare_ltb_key.
      apply compare_ltb_key in Hc. by eapply key_le_trans.
Qed.

(** ** More on the tree operations *)

Lemma rb_erase_NoDup p l : NoDup l → NoDup (rb_erase p l).
Proof using Type.
  induction 1 as [|x l Hx Hl IH]; simpl; [constructor|].
  destruct (Pos.eqb x p); [done|]. constructor; [|done].
  intros Hin. apply Hx. by eapply rb_erase_subseteq.
Qed.

Lemma rb_erase_not_in p l : NoDup l → p ∉ rb_erase p l.
Proof using Type.
  induction 1 as [|x l Hx Hl IH]; simpl; [elem_solver|].
  destruct (Pos.eqb_spec x p) as [->|Hne]; [done|]. elem_solver.
Qed.

Lemma rb_erase_perm p l : p ∈ l → l ≡ₚ p :: rb_erase p l.
Proof using Type.
  induction l as [|x l IH]; simpl; [elem_solver|].
  intros Hin. destruct (Pos.eqb_spec x p) as [->|Hne]; [done|].
  etrans; [apply Permutation_skip, IH; elem_solver|apply perm_swap].
Qed.

Lemma rb_erase_sorted {R : relation positive} p l :
  StronglySorted R l → StronglySorted R (rb_erase p l).
Proof using Type.
  induction 1 as [|x l Hs IH Hall]; simpl; [constructor|].
  destruct (Pos.eqb x p); [done|]. constructor; [done|].
  rewrite Forall_forall in *. intros y Hy. apply Hall.
  by eapply rb_erase_subseteq.
Qed.

Lemma rb_erase_head_ne p x l :
  x ≠ p → rb_erase p (x :: l) = x :: rb_erase p l.
Proof using Type. intros Hne. simpl. by destruct (Pos.eqb_spec x p). Qed.

Lemma rb_prev_None p l : p ∈ l → rb_prev p l = None → head l = Some p.
Proof using Type.
  induction l as [|x l IH]; [elem_solver|].
  intros Hin. simpl. destruct (Pos.eqb_spec x p) as [->|Hne]; [done|].
  destruct l as [|y l]; [elem_solver|].
  destruct (Pos.eqb_spec y p) as [->|Hne']; [done|].
  intros Hprev. assert (Hin' : p ∈ y :: l) by elem_solver.
  specialize (IH Hin' Hprev). simpl in IH. congruence.
Qed.

Lemma rb_prev_head p l : rb_prev p (p :: l) = None.
Proof using Type. simpl. by rewrite Pos.eqb_refl. Qed.

Lemma rb_prev_Some_ne p x y l : rb_prev p (x :: l) = Some y → x ≠ p.
Proof using Type. simpl. destruct (Pos.eqb_spec x p); [done|auto]. Qed.

Lemma rb_next_head p l : rb_next p (p :: l) = head l.
Proof using Type. simpl. by rewrite Pos.eqb_refl. Qed.

(** ** [bus1_queue_add] on a consistent queue *)

Lemma add_publish_messages q p t f l lm :
  messages (add_publish q p t f l lm) = l.
Proof using Type. unfold add_publish. by case_match. Qed.

Lemma add_publish_clock q p t f l lm :
  clock (add_publish q p t f l lm) = clock q.
Proof using Type. unfold add_publish. by case_match. Qed.

Lemma add_publish_front q p t f l lm :
  front (add_publish q p t f l lm)
  = if (Z.land t 1 =? 0) && lm then Some p else f.
Proof using Type. unfold add_publish. by case_match. Qed.

Lemma queue_wf_allocated s : queue_wf BUS1_QUEUE_TYPE_MASK s → messages_allocated s.
Proof using Type.
  intros (_ & _ & Hl & _). apply Forall_forall. intros p Hp.
  destruct (Hl p Hp) as (n & -> & _). by eexists.
Qed.

(** The front that [bus1_queue_add] finds before re-inserting: the old
    one, or the committed successor of a linked first entry when that
    successor orders strictly before the new key. *)
Lemma add_uncover_front_spec s p node t front1 :
  add_uncover_front BUS1_QUEUE_TYPE_MASK s p node t = Some front1 →
  front1 = front (queue s)
  ∨ (front (queue s) = None ∧ rb_linked node = true
     ∧ rb_prev p (messages (queue s)) = None
     ∧ ∃ n iter,
         front1 = Some n
         ∧ rb_next p (messages (queue s)) = Some n
         ∧ heap s !! n = Some iter
         ∧ is_staging iter = false
         ∧ node_compare iter t (sender node) < 0).
Proof using Type.
  unfold add_uncover_front.
  destruct (front (queue s)) as [f|] eqn:Hf; [intros [= <-]; by left|].
  destruct (rb_linked node); simpl; [|intros [= <-]; by left].
  destruct (rb_prev p (messages (queue s))) as [x|] eqn:Hprev.
  - rewrite bool_decide_true by by eexists. simpl. intros [= <-]. by left.
  - rewrite bool_decide_false by by intros [??]. simpl.
    destruct (rb_next p (messages (queue s))) as [n|] eqn:Hnext;
      [|intros [= <-]; by left].
    destruct (heap s !! n) as [iter|] eqn:Hn; [|done].
    destruct (is_staging iter) eqn:Hst; simpl; [intros [= <-]; by left|].
    destruct (node_compare iter t (sender node) <? 0) eqn:Hc;
      [|intros [= <-]; by left].
    intros [= <-]. right. repeat split; try done.
    exists n, iter. repeat split; try done. by apply Z.ltb_lt.
Qed.

Lemma add_uncover_front_total s p node t :
  messages_allocated s →
  is_Some (add_uncover_front BUS1_QUEUE_TYPE_MASK s p node t).
Proof using Type.
  intros Hall. unfold add_uncover_front.
  destruct (front (queue s)); [by eexists|].
  destruct (rb_linked node && _); [|by eexists].
  destruct (rb_next p (messages (queue s))) as [n|] eqn:Hnext; [|by eexists].
  destruct (messages_allocated_lookup s n Hall) as [iter ->];
    [by eapply rb_next_elem_of|].
  by case_match.
Qed.

(** The outcome of [bus1_queue_add] once its checks pass. *)
Lemma add_accepts s p node t :
  messages_allocated s →
  heap s !! p = Some node →
  add_rejects BUS1_QUEUE_TYPE_MASK (queue s) node t = false →
  (rb_linked node = true → p ∈ messages (queue s)) →
  ∃ front1 l1 l2,
    (if rb_linked node then rb_erase p (messages (queue s))
     else messages (queue s)) = l1 ++ l2
    ∧ add_uncover_front BUS1_QUEUE_TYPE_MASK s p node t = Some front1
    ∧ queue_add s p t
      = Some (State (<[p := add_stamped BUS1_QUEUE_TYPE_MASK node t]> (heap s))
                    (add_publish (queue s) p t front1 (l1 ++ p :: l2)
                                 (bool_decide (l1 = []))))
    ∧ Forall (λ x, ∃ nx, heap s !! x = Some nx
                         ∧ key_le (node_key nx)
                              (node_key (add_stamped BUS1_QUEUE_TYPE_MASK node t))) l1
    ∧ (∀ x, head l2 = Some x →
         ∃ nx, heap s !! x = Some nx
               ∧ ¬ key_le (node_key nx)
                     (node_key (add_stamped BUS1_QUEUE_TYPE_MASK node t))).
Proof using Type.
  intros Hall Hp Hrej Hin.
  destruct (add_uncover_front_total s p node t Hall) as [front1 Hfront].
  set (msgs1 := if rb_linked node then rb_erase p (messages (queue s))
                else messages (queue s)).
  assert (Hall1 : Forall (λ x, is_Some (heap s !! x)) msgs1).
  { unfold msgs1. destruct (rb_linked node); [|done].
    unfold messages_allocated in Hall. rewrite Forall_forall in *.
    intros x Hx. apply Hall. by eapply rb_erase_subseteq. }
  destruct (rb_link_sorted_spec (heap s)
              (add_stamped BUS1_QUEUE_TYPE_MASK node t) p msgs1 Hall1)
    as (l1 & l2 & Hsplit & Hlink & Hl1 & Hl2).
  exists front1, l1, l2. split; [done|]. split; [done|]. split; [|done].
  rewrite bus1_queue_add_unfold, Hp, Hrej, Hfront.
  fold msgs1. rewrite Hlink.
  destruct (rb_linked node) eqn:Hl; simpl; [|done].
  by rewrite (proj2 (rb_mem_elem_of p _) (Hin eq_refl)).
Qed.

Lemma committed_minimum_inv s f :
  committed_minimum BUS1_QUEUE_TYPE_MASK s = Some f →
  ∃ rest nf, messages (queue s) = f :: rest
             ∧ heap s !! f = Some nf ∧ is_staging nf = false.
Proof using Type.
  unfold committed_minimum.
  destruct (messages (queue s)) as [|x rest]; [done|].
  destruct (heap s !! x) as [nx|] eqn:Hx; [|done].
  destruct (is_staging nx) eqn:Hst; [done|].
  intros [= <-]. by exists rest, nx.
Qed.

Lemma queue_wf_front s f :
  queue_wf BUS1_QUEUE_TYPE_MASK s → front (queue s) = Some f →
  ∃ rest nf, messages (queue s) = f :: rest
             ∧ heap s !! f = Some nf ∧ is_staging nf = false
             ∧ Z.even (get_timestamp nf) = true
             ∧ get_timestamp nf ≤ clock (queue s).
Proof using Type.
  intros (_ & _ & Hl & _ & Hce & Hf) Hfront.
  destruct (committed_minimum_inv s f (Hf f Hfront)) as (rest & nf & Hm & Hnf & Hst).
  exists rest, nf. repeat split; try done.
  - rewrite is_staging_odd, <- Z.negb_even in Hst. by apply negb_false_iff in Hst.
  - destruct (Hl f) as (n & Hn & _ & _ & Hle); [rewrite Hm; apply list_elem_of_here|].
    rewrite Hnf in Hn. injection Hn as <-.
    rewrite is_staging_odd in Hst.
    destruct (Z.eq_dec (get_timestamp nf) (clock (queue s) + 1)) as [Heq|]; [|lia].
    rewrite Heq, Z.odd_add, <- Z.negb_even, Hce in Hst. discriminate Hst.
Qed.

(** [bus1_queue_add] keeps the queue consistent.  A node that is not yet
    linked must be stamped at or above the clock, which is how
    [bus1_queue_stage] and [bus1_queue_commit_unstaged] call it. *)
Lemma add_wf s p t s' :
  queue_wf BUS1_QUEUE_TYPE_MASK s →
  in_range s →
  (∀ node, heap s !! p = Some node → rb_linked node = false →
           clock (queue s) ≤ t) →
  queue_add s p t = Some s' →
  queue_wf BUS1_QUEUE_TYPE_MASK s'.
Proof using type_shift_range type_mask_above_shift.
  intros Hwf [Hc0 Hc1] Hfresh Hadd.
  pose proof (queue_wf_allocated _ Hwf) as Hall.
  pose proof pow_shift_le_64 as Hp64.
  pose proof Hadd as Hadd'. rewrite bus1_queue_add_unfold in Hadd'.
  destruct (heap s !! p) as [node|] eqn:Hp; [|done].
  destruct (add_rejects _ _ _ _) eqn:Hrej; [by injection Hadd' as <-|].
  specialize (Hfresh node eq_refl).
  assert (Hin : rb_linked node = true → p ∈ messages (queue s)).
  { intros Hl. rewrite Hl in Hadd'. simpl in Hadd'.
    destruct (rb_mem p _) eqn:Hm; [by apply rb_mem_elem_of|done]. }
  clear Hadd'.
  destruct (add_accepts s p node t Hall Hp Hrej Hin)
    as (front1 & l1 & l2 & Hsplit & Hfront1 & Heq & Hl1 & Hl2).
  rewrite Heq in Hadd. injection Hadd as <-.
  apply add_rejects_false in Hrej as (Ht0 & Htc & Hiff & Hst & Hne).
  rewrite u64_small in Htc by lia.
  pose proof Hwf as (Hnd & Hsorted & Hlinked & _ & Hce & Hfront).
  set (node2 := add_stamped BUS1_QUEUE_TYPE_MASK node t) in *.
  assert (Htr : 0 ≤ t < 2 ^ BUS1_QUEUE_TYPE_SHIFT).
  { split; [|lia]. destruct (rb_linked node) eqn:Hl.
    - pose proof (get_timestamp_nonneg node).
      destruct (Hst ltac:(intros H0; apply Hiff in H0; done)). lia.
    - specialize (Hfresh eq_refl). lia. }
  assert (Hget2 : get_timestamp node2 = t) by by apply add_stamped_timestamp.
  assert (Hp_fresh : rb_linked node = false → p ∉ messages (queue s)).
  { intros Hl Hpin. destruct (Hlinked p Hpin) as (n & Hn & Hln & _).
    congruence. }
  assert (Hnotin : p ∉ l1 ++ l2).
  { rewrite <- Hsplit. destruct (rb_linked node); [by apply rb_erase_not_in|auto]. }
  assert (Hsub : l1 ++ l2 ⊆ messages (queue s)).
  { rewrite <- Hsplit. destruct (rb_linked node); [apply rb_erase_subseteq|done]. }
  assert (Hnd1 : NoDup (l1 ++ l2)).
  { rewrite <- Hsplit. destruct (rb_linked node); [by apply rb_erase_NoDup|done]. }
  assert (Hs1 : StronglySorted (heap_le (heap s)) (l1 ++ l2)).
  { rewrite <- Hsplit. destruct (rb_linked node); [by apply rb_erase_sorted|done]. }
  assert (Hall1 : Forall (λ x, is_Some (heap s !! x)) (l1 ++ l2)).
  { apply Forall_forall. intros x Hx.
    by apply (messages_allocated_lookup s), Hsub. }
  unfold queue_wf, messages_sorted. simpl.
  rewrite add_publish_messages, add_publish_clock, add_publish_front.
  split; [|split; [|split; [|split; [done|split; [done|]]]]].
  - (* every node once *)
    rewrite <- Permutation_middle. by constructor.
  - (* ascending *)
    by apply sorted_insert.
  - (* linked and stamped *)
    intros x Hx. rewrite <- Permutation_middle in Hx.
    apply elem_of_cons in Hx as [->|Hx].
    + exists node2. rewrite lookup_insert_eq, Hget2. repeat split; try done.
    + rewrite lookup_insert_ne by (intros ->; done). by apply Hlinked, Hsub.
  - (* the front *)
    intros f Hf. unfold committed_minimum. simpl. rewrite add_publish_messages.
    assert (Hsnd2 : sender node2 = sender node) by apply add_stamped_sender.
    assert (Hfp : ∀ nf, front (queue s) = Some f → heap s !! f = Some nf →
                        is_staging nf = false → f ≠ p).
    { intros nf Hfq Hnf Hstf ->. rewrite Hp in Hnf. injection Hnf as <-.
      destruct (queue_wf_front s p Hwf Hfq) as (rest & _ & Hm & _).
      destruct (rb_linked node) eqn:Hl.
      - rewrite is_staging_odd in Hstf.
        destruct Hst as [Hodd _]; [|congruence].
        intros H0. apply Hiff in H0. done.
      - apply Hp_fresh; [done|]. rewrite Hm. apply list_elem_of_here. }
    assert (Hhead : ∀ rest, messages (queue s) = f :: rest → f ≠ p →
                            head (l1 ++ l2) = Some f).
    { intros rest Hm Hfne. rewrite <- Hsplit, Hm.
      destruct (rb_linked node); [|done]. by rewrite rb_erase_head_ne. }
    destruct (add_uncover_front_spec s p node t front1 Hfront1)
      as [->|(Hfn & Hl & Hprev & n & iter & -> & Hnext & Hn & Hstn & Hcmp)].
    + (* the front was not touched before the re-insertion *)
      destruct l1 as [|x l1]; simpl.
      * rewrite lookup_insert_eq, is_staging_odd, Hget2.
        rewrite bool_decide_true, andb_true_r, land_1_odd in Hf by done.
        destruct (Z.odd t) eqn:Hodd; simpl in Hf; [|done].
        exfalso.
        destruct (queue_wf_front s f Hwf Hf)
          as (rest & nf & Hm & Hnf & Hstf & Hevenf & Hlef).
        pose proof (Hfp nf Hf Hnf Hstf) as Hfne.
        destruct (Hl2 f (Hhead rest Hm Hfne)) as (nf' & Hnf' & Hnle).
        rewrite Hnf in Hnf'. injection Hnf' as <-.
        apply Hnle. left. unfold key. cbn [fst snd]. rewrite Hget2.
        destruct (rb_linked node) eqn:Hl.
        -- assert (Hprest : p ∈ rest).
           { specialize (Hin eq_refl). rewrite Hm in Hin.
             apply elem_of_cons in Hin as [->|]; done. }
           unfold messages_sorted in Hsorted. rewrite Hm in Hsorted.
           apply StronglySorted_cons in Hsorted as [Hfr _].
           rewrite Forall_forall in Hfr.
           destruct (Hfr p Hprest) as (na & nb & Hna & Hnb & Hle).
           rewrite Hnf in Hna. rewrite Hp in Hnb.
           injection Hna as <-. injection Hnb as <-.
           destruct Hst as [_ Hle2];
             [intros H0; apply Hiff in H0; done|].
           unfold key_le, key in Hle. cbn [fst snd] in Hle. lia.
        -- specialize (Hfresh eq_refl).
           destruct (Z.eq_dec (get_timestamp nf) t) as [Heqt|]; [|lia].
           rewrite Heqt, <- Z.negb_odd, Hodd in Hevenf. done.
      * rewrite bool_decide_false, andb_false_r in Hf by done.
        destruct (queue_wf_front s f Hwf Hf)
          as (rest & nf & Hm & Hnf & Hstf & _).
        pose proof (Hfp nf Hf Hnf Hstf) as Hfne.
        specialize (Hhead rest Hm Hfne). injection Hhead as ->.
        rewrite lookup_insert_ne by done. by rewrite Hnf, Hstf.
    + (* a committed successor was uncovered *)
      assert (Hm : ∃ rest, messages (queue s) = p :: n :: rest).
      { pose proof (rb_prev_None p _ (Hin Hl) Hprev) as Hhd.
        destruct (messages (queue s)) as [|y rest]; [done|].
        injection Hhd as ->. rewrite rb_next_head in Hnext.
        destruct rest as [|z rest]; [done|]. injection Hnext as ->.
        by exists rest. }
      destruct Hm as (rest & Hm).
      assert (Hsplit' : n :: rest = l1 ++ l2).
      { rewrite <- Hsplit, Hl, Hm. simpl. by rewrite Pos.eqb_refl. }
      assert (Hkn : key_le (node_key iter) (node_key node2)).
      { unfold bus1_queue_node_compare in Hcmp. apply compare_lt_0 in Hcmp.
        unfold key_le, key. cbn [fst snd]. rewrite Hget2, Hsnd2. lia. }
      destruct l1 as [|x l1]; simpl.
      * exfalso. destruct (Hl2 n) as (n' & Hn' & Hnle); [simpl in Hsplit'; by rewrite <- Hsplit'|].
        rewrite Hn in Hn'. injection Hn' as <-. done.
      * rewrite bool_decide_false, andb_false_r in Hf by done.
        injection Hf as <-. injection Hsplit' as <- _.
        rewrite lookup_insert_ne; [by rewrite Hn, Hstn|].
        intros ->. apply Hnotin. apply list_elem_of_here.
Qed.

(** ** Removal *)

(** C9: [bus1_queue_remove] called with a [NULL] node returns false and
    leaves the state (heap, tree, front, clock, wake-up count) as it is,
    and that is also the result of removing a node that is already
    unlinked. *)
Theorem remove_null_is_noop (s : state) :
  queue_remove s None = Some (s, false)
  ∧ ∀ p node,
      heap s !! p = Some node → rb_linked node = false →
      queue_remove s (Some p) = queue_remove s None.
Proof using Type.
  split; [done|]. intros p node Hp Hl. simpl. by rewrite Hp, Hl.
Qed.

(** ** Peeking *)

(** C6: [bus1_queue_peek_locked] returns [NULL] (and does not touch the
    state or the output variable) when [front] is [NULL]; otherwise it
    returns the front node with one more reference, leaves the queue as it
    is, and sets the output variable to true exactly when the node that
    follows the front in [messages] has the same (timestamp, sender) key. *)
Theorem peek_locked_spec (s : state) (continuep : bool) :
  (front (queue s) = None →
   queue_peek_locked s continuep = Some (s, None, continuep))
  ∧ (∀ n node,
       front (queue s) = Some n → heap s !! n = Some node →
       n ∈ messages (queue s) → messages_allocated s →
       ∃ c',
         queue_peek_locked s continuep
         = Some (State (<[n := kref_get node]> (heap s)) (queue s), Some n, c')
         ∧ ref (kref_get node) = ref node + 1
         ∧ get_timestamp (kref_get node) = get_timestamp node
         ∧ (c' = true ↔
            ∃ n' next,
              rb_next n (messages (queue s)) = Some n'
              ∧ heap s !! n' = Some next
              ∧ get_timestamp next = get_timestamp node
              ∧ sender next = sender node)).
Proof using Type.
  split.
  - intros Hf. unfold bus1_queue_peek_locked. by rewrite Hf.
  - intros n node Hf Hn Hin Hall.
    unfold bus1_queue_peek_locked. rewrite Hf, Hn.
    apply rb_mem_elem_of in Hin as Hmem. rewrite Hmem. simpl.
    destruct (rb_next n (messages (queue s))) as [n'|] eqn:Hnext.
    + destruct (messages_allocated_lookup s n' Hall) as [next Hnx];
        [by eapply rb_next_elem_of|].
      rewrite Hnx. eexists. split; [done|]. split; [done|]. split; [done|].
      rewrite Z.eqb_eq. unfold bus1_queue_node_compare.
      rewrite compare_eq_0. split.
      * intros [??]. exists n', next. by repeat split.
      * intros (n2 & next2 & [= <-] & Hn2 & ? & ?).
        rewrite Hnx in Hn2. by injection Hn2 as <-.
    + eexists. split; [done|]. split; [done|]. split; [done|].
      split; [done|]. by intros (? & ? & ? & _).
Qed.

(** ** Consistency along a run *)

Lemma heap_le_sorted_insert_ne h p n l :
  p ∉ l →
  StronglySorted (heap_le h) l →
  StronglySorted (heap_le (<[p := n]> h)) l.
Proof using Type.
  intros Hp. apply StronglySorted_impl_elem.
  intros x y Hx Hy. apply heap_le_insert_ne; intros ->; done.
Qed.

Lemma remove_wf s np s' b :
  queue_wf BUS1_QUEUE_TYPE_MASK s →
  queue_remove s np = Some (s', b) →
  queue_wf BUS1_QUEUE_TYPE_MASK s'.
Proof using Type.
  intros Hwf Hrem. destruct np as [p|]; simpl in Hrem; [|by injection Hrem as <- _].
  destruct (heap s !! p) as [node|] eqn:Hp; [|done].
  destruct (rb_linked node) eqn:Hl; simpl in Hrem; [|by injection Hrem as <- _].
  destruct (rb_mem p (messages (queue s))) eqn:Hmem; simpl in Hrem; [|done].
  apply rb_mem_elem_of in Hmem.
  pose proof Hwf as (Hnd & Hsorted & Hlinked & Hc0 & Hce & Hfront).
  match type of Hrem with
  | context [match ?f with Some _ => _ | None => None end] =>
      destruct f as [f1|] eqn:Hf1; [|done]
  end.
  injection Hrem as <- _.
  pose proof (rb_erase_not_in p _ Hnd) as Hnotin.
  assert (Hwf' : ∀ w,
    queue_wf BUS1_QUEUE_TYPE_MASK
      (State (<[p := kref_put (RB_CLEAR_NODE node)]> (heap s))
             (Queue (clock (queue s)) f1 (rb_erase p (messages (queue s))) w))).
  { intros w. unfold queue_wf, messages_sorted. simpl.
    split; [by apply rb_erase_NoDup|].
    split; [by apply heap_le_sorted_insert_ne, rb_erase_sorted|].
    split; [|split; [done|split; [done|]]].
    - intros x Hx. rewrite lookup_insert_ne by (intros ->; done).
      by apply Hlinked, (rb_erase_subseteq p).
    - intros f ->. unfold committed_minimum. simpl.
      destruct (rb_prev p (messages (queue s))) as [y|] eqn:Hprev.
      + rewrite bool_decide_true in Hf1 by by eexists.
        simpl in Hf1. injection Hf1 as Hf1.
        destruct (queue_wf_front s f Hwf Hf1) as (rest & nf & Hm & Hnf & Hstf & _).
        rewrite Hm in Hprev |- *.
        pose proof (rb_prev_Some_ne _ _ _ _ Hprev) as Hne.
        rewrite rb_erase_head_ne, lookup_insert_ne by done.
        by rewrite Hnf, Hstf.
      + rewrite bool_decide_false in Hf1 by by intros [??].
        simpl in Hf1.
        pose proof (rb_prev_None p _ Hmem Hprev) as Hhd.
        destruct (messages (queue s)) as [|y rest] eqn:Hm; [done|].
        injection Hhd as ->. rewrite rb_next_head in Hf1.
        simpl. rewrite Pos.eqb_refl.
        destruct rest as [|n rest]; [done|]. simpl in Hf1.
        destruct (heap s !! n) as [iter|] eqn:Hn; [|done].
        destruct (is_staging iter) eqn:Hstn; [done|].
        injection Hf1 as <-.
        rewrite lookup_insert_ne; [by rewrite Hn, Hstn|].
        intros ->. apply NoDup_cons in Hnd as [Hnd _]. apply Hnd.
        apply list_elem_of_here. }
  destruct (negb _ && _); apply Hwf'.
Qed.

Lemma land_1_cases z : Z.land z 1 = if Z.odd z then 1 else 0.
Proof using Type.
  change 1 with (Z.ones 1) at 1. rewrite Z.land_ones by lia.
  change (2 ^ 1) with 2. apply Zmod_odd.
Qed.

Lemma u64_even z : Z.even (u64 z) = Z.even z.
Proof using Type.
  unfold u64, U64_MODULUS.
  rewrite (Z.div_mod z (2 ^ 64)) at 2 by lia.
  rewrite Z.even_add, Z.even_mul. by destruct (Z.even (z mod 2 ^ 64)).
Qed.

Lemma round_up_even_is_even ts : Z.even (round_up_even ts) = true.
Proof using Type.
  unfold round_up_even. rewrite u64_even, land_1_cases, Z.even_add.
  rewrite <- Z.negb_odd. by destruct (Z.odd ts).
Qed.

(** Raising the clock to an even value keeps the queue consistent. *)
Lemma set_clock_wf s c :
  queue_wf BUS1_QUEUE_TYPE_MASK s →
  clock (queue s) ≤ c → Z.even c = true →
  queue_wf BUS1_QUEUE_TYPE_MASK (State (heap s) (set_clock (queue s) c)).
Proof using Type.
  intros (Hnd & Hsorted & Hlinked & Hc0 & Hce & Hfront) Hle Heven.
  unfold queue_wf, messages_sorted. simpl.
  repeat split; try done; [|lia].
  intros p Hp. destruct (Hlinked p Hp) as (n & ? & ? & ? & ?).
  exists n. repeat split; try done. lia.
Qed.

Lemma flush_wf s out s' out' :
  queue_wf BUS1_QUEUE_TYPE_MASK s →
  queue_flush s out = Some (s', out') →
  queue_wf BUS1_QUEUE_TYPE_MASK s'.
Proof using Type.
  intros (_ & _ & _ & Hc0 & Hce & _). unfold bus1_queue_flush.
  destruct (flush_loop _ _ _ _) as [[h l]|]; [|done].
  intros [= <- _]. unfold queue_wf, messages_sorted. simpl.
  repeat split; try done; [constructor|constructor|elem_solver].
Qed.

Lemma step_wf o s s' :
  BUS1_QUEUE_TYPE_SHIFT < 64 →
  queue_wf BUS1_QUEUE_TYPE_MASK s →
  in_range s →
  step BUS1_QUEUE_TYPE_MASK rbtree_postorder o s = Some s' →
  in_range s' →
  queue_wf BUS1_QUEUE_TYPE_MASK s'.
Proof using type_shift_range type_mask_above_shift.
  intros Hshift Hwf [Hr0 Hr1] Hstep Hr'.
  assert (Hp63 : 2 ^ BUS1_QUEUE_TYPE_SHIFT ≤ 2 ^ 63)
    by (apply Z.pow_le_mono_r; lia).
  pose proof Hwf as (_ & _ & _ & _ & Hce & _).
  destruct o as [p t|p t|p|np| |t|]; simpl in Hstep.
  - (* stage *)
    unfold bus1_queue_stage in Hstep. simpl in Hstep.
    destruct (queue_add _ p _) as [s1|] eqn:Hadd; [|done].
    injection Hstep as <-.
    pose proof (add_clock _ _ _ _ Hadd) as Hclk. simpl in Hclk.
    destruct Hr' as [Hr0' Hr1']. rewrite Hclk in Hr0', Hr1'.
    eapply add_wf; [| |..|exact Hadd].
    + apply set_clock_wf; [done|lia|].
      destruct (Z.max_spec (clock (queue s)) (round_up_even t)) as [[_ ->]|[_ ->]];
        [apply round_up_even_is_even|done].
    + done.
    + intros _ _ _. simpl. rewrite u64_small by lia. lia.
  - (* commit_staged *)
    unfold bus1_queue_commit_staged in Hstep.
    destruct (heap s !! p) as [node|] eqn:Hp; [|done].
    destruct (bus1_queue_node_is_queued node) eqn:Hq; [|by injection Hstep as <-].
    destruct (queue_add s p t) as [s1|] eqn:Hadd; [|done].
    injection Hstep as <-.
    eapply add_wf; [done|done| |exact Hadd].
    intros node' Hp' Hl'. rewrite Hp in Hp'. injection Hp' as <-.
    unfold bus1_queue_node_is_queued in Hq. congruence.
  - (* commit_unstaged *)
    unfold bus1_queue_commit_unstaged in Hstep.
    destruct (heap s !! p) as [node|] eqn:Hp; [|done].
    destruct (negb _); [|by injection Hstep as <-].
    simpl in Hstep.
    pose proof (add_clock _ _ _ _ Hstep) as Hclk. simpl in Hclk.
    destruct Hr' as [Hr0' Hr1']. rewrite Hclk in Hr0', Hr1'.
    rewrite u64_small in Hr0', Hr1', Hstep by lia.
    eapply add_wf; [| |..|exact Hstep].
    + apply set_clock_wf; [done|simpl; lia|].
      rewrite Z.even_add, Hce. done.
    + done.
    + intros _ _ _. simpl. lia.
  - (* remove *)
    destruct (queue_remove s np) as [[s1 b]|] eqn:Hrem; [|done].
    injection Hstep as <-. by eapply remove_wf.
  - (* flush *)
    destruct (queue_flush s []) as [[s1 out]|] eqn:Hfl; [|done].
    injection Hstep as <-. by eapply flush_wf.
  - (* sync *)
    injection Hstep as <-. simpl.
    apply set_clock_wf; [done|lia|].
    destruct (Z.max_spec (clock (queue s)) (round_up_even t)) as [[_ ->]|[_ ->]];
      [apply round_up_even_is_even|done].
  - (* tick *)
    injection Hstep as <-. simpl.
    rewrite u64_small by lia.
    apply set_clock_wf; [done|lia|]. rewrite Z.even_add, Hce. done.
Qed.

(** Every run from a consistent queue, with the clock in range, ends in a
    consistent queue: in particular a front, whenever there is one, is the
    first node of [messages] and is committed, and no staged node is ever
    the front. *)
Lemma exec_wf s ops s' :
  BUS1_QUEUE_TYPE_SHIFT < 64 →
  queue_wf BUS1_QUEUE_TYPE_MASK s →
  in_range s →
  exec BUS1_QUEUE_TYPE_MASK rbtree_postorder BUS1_QUEUE_TYPE_SHIFT s ops s' →
  queue_wf BUS1_QUEUE_TYPE_MASK s' ∧ in_range s'.
Proof using type_shift_range type_mask_above_shift.
  intros Hshift Hwf Hr Hexec. induction Hexec as [s|s o s1 ops s2 Hstep Hr1 _ IH].
  - done.
  - apply IH; [|done]. by eapply step_wf.
Qed.

Lemma init_wf h : queue_wf BUS1_QUEUE_TYPE_MASK (State h bus1_queue_init).
Proof using Type.
  unfold queue_wf, messages_sorted. simpl.
  repeat split; try done; [constructor|constructor|elem_solver].
Qed.

(** ** Timestamps along a run *)




(** ** Staging *)

Lemma round_up_even_even ts :
  0 ≤ ts < 2 ^ 64 → Z.even ts = true → round_up_even ts = ts.
Proof using Type.
  intros Hr He. unfold round_up_even.
  assert (Z.land ts 1 = 0) as ->.
  { apply Z.eqb_eq. rewrite land_1_odd, <- Z.negb_even, He. done. }
  rewrite Z.add_0_r. by apply u64_small.
Qed.

(** C3 (as amended): for every node that is unlinked and has never been
    stamped (timestamp 0), and every even [min_ts], with the resulting
    clock inside the timestamp field, [bus1_queue_stage] raises the clock
    to [ts = max(clock, min_ts)], links the node with the odd stage
    timestamp [ts + 1] (the queue taking a reference, the front staying as
    it was), and returns the even value [ts]; with [min_ts] equal to the
    current clock it returns the current clock. *)
Theorem stage_unstamped_node s p node min_ts :
  heap s !! p = Some node →
  rb_linked node = false →
  get_timestamp node = 0 →
  messages_allocated s →
  0 ≤ clock (queue s) → Z.even (clock (queue s)) = true →
  0 ≤ min_ts → Z.even min_ts = true →
  Z.max (clock (queue s)) min_ts + 1 < 2 ^ BUS1_QUEUE_TYPE_SHIFT →
  ∃ s' ts,
    queue_stage s p min_ts = Some (s', ts)
    ∧ ts = Z.max (clock (queue s)) min_ts
    ∧ Z.even ts = true
    ∧ clock (queue s') = ts
    ∧ (∃ node',
         heap s' !! p = Some node'
         ∧ get_timestamp node' = ts + 1
         ∧ is_staging node' = true
         ∧ rb_linked node' = true
         ∧ ref node' = ref node + 1
         ∧ sender node' = sender node)
    ∧ messages (queue s') ≡ₚ p :: messages (queue s)
    ∧ front (queue s') = front (queue s)
    ∧ (min_ts = clock (queue s) → ts = clock (queue s)).
Proof using type_shift_range type_mask_above_shift.
  intros Hp Hl Hts Hall Hc0 Hce Hm0 Hme Hr.
  pose proof pow_shift_le_64 as Hp64.
  assert (Hmax : clock (queue s) ≤ Z.max (clock (queue s)) min_ts
                 ∧ min_ts ≤ Z.max (clock (queue s)) min_ts) by lia.
  destruct Hmax as [Hmax1 Hmax2].
  remember (Z.max (clock (queue s)) min_ts) as ts eqn:Hts_def.
  assert (Hts_even : Z.even ts = true).
  { rewrite Hts_def.
    destruct (Z.max_spec (clock (queue s)) min_ts) as [[_ ->]|[_ ->]]; done. }
  assert (Hodd : (Z.land (ts + 1) 1 =? 0) = false).
  { rewrite land_1_odd, Z.odd_add, <- Z.negb_even, Hts_even. done. }
  unfold bus1_queue_stage, bus1_queue_sync.
  rewrite round_up_even_even by (done || lia). rewrite <- Hts_def.
  rewrite u64_small by lia.
  rewrite bus1_queue_add_unfold. simpl. rewrite Hp.
  assert (add_rejects BUS1_QUEUE_TYPE_MASK (set_clock (queue s) ts) node (ts + 1)
          = false) as ->.
  { apply add_rejects_false. simpl. rewrite u64_small by lia.
    rewrite Hts. repeat split; try done; lia. }
  rewrite Hl. simpl.
  assert (add_uncover_front BUS1_QUEUE_TYPE_MASK
            (State (heap s) (set_clock (queue s) ts)) p node (ts + 1)
          = Some (front (queue s))) as ->.
  { unfold add_uncover_front. simpl. rewrite Hl. by destruct (front (queue s)). }
  destruct (rb_link_sorted_spec (heap s)
              (add_stamped BUS1_QUEUE_TYPE_MASK node (ts + 1)) p
              (messages (queue s)) Hall) as (l1 & l2 & Hsplit & -> & _ & _).
  eexists _, ts. split; [done|].
  split; [done|]. split; [done|].
  unfold add_publish. simpl. rewrite Hodd. simpl.
  assert (Hq : ∀ q' : bus1_queue,
             front q' = front (queue s) →
             negb (bus1_queue_is_readable (set_clock (queue s) ts))
             && bus1_queue_is_readable q' = false).
  { intros q' Hf. unfold bus1_queue_is_readable. simpl. rewrite Hf.
    by destruct (front (queue s)). }
  rewrite Hq by done. simpl.
  split; [done|]. split.
  - eexists. rewrite lookup_insert_eq. split; [done|].
    rewrite is_staging_odd, add_stamped_timestamp by lia.
    rewrite add_stamped_ref, add_stamped_sender, Hl.
    repeat split; try done.
    rewrite Z.odd_add, <- Z.negb_even, Hts_even. done.
  - split; [|split; [done|]].
    + rewrite Hsplit. symmetry. apply Permutation_middle.
    + intros ->. lia.
Qed.

(** ** Flushing *)

Local Abbreviation occurrences := (count_occ Pos.eq_dec).

Lemma flush_loop_spec visit : ∀ h out,
  NoDup visit →
  Forall (λ x, is_Some (h !! x)) visit →
  ∃ h' out',
    flush_loop BUS1_QUEUE_TYPE_MASK h out visit = Some (h', out')
    ∧ (∀ x n, h !! x = Some n →
         h' !! x = Some (if bool_decide (x ∈ visit) && is_staging n
                         then kref_put (RB_CLEAR_NODE n) else n)
         ∧ occurrences out' x
           = (occurrences out x
              + if bool_decide (x ∈ visit) && negb (is_staging n)
                then 1 else 0)%nat).
Proof using Type.
  induction visit as [|p visit IH]; intros h out Hnd Hall; simpl.
  - exists h, out. split; [done|]. intros x n Hx. split; [done|lia].
  - apply NoDup_cons in Hnd as [Hp Hnd].
    apply Forall_cons in Hall as [[node Hnode] Hall].
    rewrite Hnode. destruct (is_staging node) eqn:Hst.
    + destruct (IH (<[p := kref_put (RB_CLEAR_NODE node)]> h) out Hnd)
        as (h' & out' & -> & Hspec).
      { eapply Forall_impl; [done|]. intros x [nx Hx]. simpl.
        destruct (decide (x = p)) as [->|Hne];
          [rewrite lookup_insert_eq|rewrite lookup_insert_ne by done]; by eexists. }
      exists h', out'. split; [done|]. intros x n Hx.
      destruct (decide (x = p)) as [->|Hne].
      * rewrite Hnode in Hx. injection Hx as <-.
        destruct (Hspec p _ (lookup_insert_eq _ _ _)) as [Hh Ho].
        rewrite bool_decide_false in Hh, Ho by done. simpl in Hh, Ho.
        rewrite bool_decide_true by apply list_elem_of_here.
        rewrite Hst. simpl. split; [done|lia].
      * destruct (Hspec x n) as [Hh Ho]; [by rewrite lookup_insert_ne|].
        rewrite Hh, Ho.
        by rewrite (bool_decide_ext (x ∈ p :: visit) (x ∈ visit))
          by (rewrite elem_of_cons; first_order_solver).
    + destruct (IH h (p :: out) Hnd Hall) as (h' & out' & -> & Hspec).
      exists h', out'. split; [done|]. intros x n Hx.
      destruct (Hspec x n Hx) as [Hh Ho]. rewrite Hh, Ho. simpl.
      destruct (decide (x = p)) as [->|Hne].
      * rewrite Hnode in Hx. injection Hx as <-.
        rewrite bool_decide_false by done.
        rewrite bool_decide_true by apply list_elem_of_here.
        rewrite Hst. simpl. destruct (Pos.eq_dec p p); [|done]. split; [done|lia].
      * rewrite (bool_decide_ext (x ∈ p :: visit) (x ∈ visit))
          by (rewrite elem_of_cons; first_order_solver).
        destruct (Pos.eq_dec p x); [congruence|]. done.
Qed.

(** C4: after [bus1_queue_flush] the tree is empty and the front is
    [NULL]; every node that was staged in the tree is unlinked and the
    queue's reference on it is dropped (it is not put on the list); and
    every node that was committed in the tree is put on the list exactly
    once (once more than it occurred before, so exactly once for a list
    that did not hold it) and keeps its reference count, which now belongs
    to the caller. *)
Theorem flush_spec s out :
  NoDup (messages (queue s)) →
  messages_allocated s →
  ∃ s' out',
    queue_flush s out = Some (s', out')
    ∧ messages (queue s') = []
    ∧ front (queue s') = None
    ∧ ∀ p node,
        p ∈ messages (queue s) → heap s !! p = Some node →
        (is_staging node = true →
           ∃ node', heap s' !! p = Some node'
                    ∧ rb_linked node' = false
                    ∧ ref node' = ref node - 1
                    ∧ occurrences out' p = occurrences out p)
        ∧ (is_staging node = false →
             heap s' !! p = Some node
             ∧ occurrences out' p = S (occurrences out p)
             ∧ (p ∉ out → occurrences out' p = 1%nat)).
Proof using rbtree_postorder_visits.
  intros Hnd Hall. unfold bus1_queue_flush.
  pose proof (rbtree_postorder_visits (messages (queue s))) as Hperm.
  destruct (flush_loop_spec (rbtree_postorder (messages (queue s))) (heap s) out)
    as (h' & out' & -> & Hspec).
  { by rewrite Hperm. }
  { unfold messages_allocated in Hall. by rewrite Hperm. }
  eexists _, _. split; [done|]. simpl. split; [done|]. split; [done|].
  intros p node Hp Hnode. destruct (Hspec p node Hnode) as [Hh Ho].
  rewrite bool_decide_true in Hh, Ho by by rewrite Hperm.
  simpl in Hh, Ho. split; intros Hst; rewrite Hst in Hh, Ho; simpl in Hh, Ho.
  - eexists. split; [done|]. repeat split; try done. lia.
  - split; [done|]. split; [lia|].
    intros Hnotin. rewrite Ho.
    rewrite list_elem_of_In in Hnotin.
    apply (count_occ_not_In Pos.eq_dec) in Hnotin. lia.
Qed.

(** ** Committing a staged node *)

Lemma flush_loop_unlinks visit : ∀ h out h' out' p node,
  flush_loop BUS1_QUEUE_TYPE_MASK h out visit = Some (h', out') →
  h !! p = Some node →
  is_staging node = true →
  p ∈ visit ∨ rb_linked node = false →
  ∃ node', h' !! p = Some node' ∧ rb_linked node' = false.
Proof using Type.
  induction visit as [|x visit IH]; simpl; intros h out h' out' p node Hl Hp Hst Hin.
  - injection Hl as <- <-. destruct Hin as [Hin|Hin]; [by apply elem_of_nil in Hin|].
    by exists node.
  - destruct (h !! x) as [nx|] eqn:Hx; [|done].
    destruct (decide (x = p)) as [->|Hne].
    + rewrite Hp in Hx. injection Hx as <-. rewrite Hst in Hl.
      eapply (IH _ _ _ _ p (kref_put (RB_CLEAR_NODE node)) Hl);
        [apply lookup_insert_eq|done|by right].
    + assert (Hin' : p ∈ visit ∨ rb_linked node = false).
      { destruct Hin as [Hin|Hin]; [|by right].
        apply elem_of_cons in Hin as [->|Hin]; [done|by left]. }
      destruct (is_staging nx).
      * eapply (IH _ _ _ _ p node Hl); [by rewrite lookup_insert_ne|done|done].
      * by eapply (IH _ _ _ _ p node Hl).
Qed.

Lemma add_rejects_true q node t :
  t = 0 ∨ u64 (clock q + 1) < t
  ∨ (get_timestamp node = 0 ∧ rb_linked node = true)
  ∨ (get_timestamp node ≠ 0 ∧ rb_linked node = false)
  ∨ (get_timestamp node ≠ 0 ∧ Z.even (get_timestamp node) = true)
  ∨ (get_timestamp node ≠ 0 ∧ t < get_timestamp node)
  ∨ get_timestamp node = t →
  add_rejects BUS1_QUEUE_TYPE_MASK q node t = true.
Proof using Type.
  intros H. destruct (add_rejects _ _ _ _) eqn:Hrej; [done|exfalso].
  apply add_rejects_false in Hrej as (Ht0 & Htc & Hiff & Hst & Hne).
  destruct H as [H|[H|[[H0 H1]|[[H0 H1]|[[H0 H1]|[[H0 H1]|H]]]]]];
    try done; try lia.
  all: try (apply Hiff in H0; congruence).
  all: try (by apply H0, Hiff).
  all: destruct (Hst H0) as [Hodd Hle]; try lia.
  all: rewrite <- Z.negb_even, H1 in Hodd; done.
Qed.

(** C2 (as amended): for an even [ts], [bus1_queue_commit_staged] returns
    false and leaves the state as it is when the node is not linked; in
    particular, once a flush has unlinked a staged node, a later commit of
    it returns false and delivers nothing.  When the node is linked into
    the tree of a consistent queue whose clock lies inside the timestamp
    field ([0 ≤ clock] and [clock + 1] below the type tag), the call
    returns true.  It then re-stamps the node to [ts] and re-sorts it
    provided the node is staged and [ts] lies between its stage timestamp
    and [clock + 1] (the clock having been synced); when [ts] is 0, exceeds
    [clock + 1], lies below the stage timestamp, or the node is not
    staged, the call still returns true and leaves the state as it is. *)
Theorem commit_staged_spec s p node ts :
  heap s !! p = Some node →
  Z.even ts = true →
  (rb_linked node = false → queue_commit_staged s p ts = Some (s, false))
  ∧ (∀ out s1 out1,
       is_staging node = true → p ∈ messages (queue s) →
       queue_flush s out = Some (s1, out1) →
       queue_commit_staged s1 p ts = Some (s1, false))
  ∧ (queue_wf BUS1_QUEUE_TYPE_MASK s → in_range s →
     p ∈ messages (queue s) →
     is_staging node = true →
     get_timestamp node ≤ ts ≤ clock (queue s) + 1 →
     ∃ s' node',
       queue_commit_staged s p ts = Some (s', true)
       ∧ heap s' = <[p := node']> (heap s)
       ∧ get_timestamp node' = ts
       ∧ is_staging node' = false
       ∧ rb_linked node' = true
       ∧ ref node' = ref node
       ∧ sender node' = sender node
       ∧ messages (queue s') ≡ₚ messages (queue s)
       ∧ queue_wf BUS1_QUEUE_TYPE_MASK s'
       ∧ clock (queue s') = clock (queue s))
  ∧ (rb_linked node = true → in_range s →
     ts = 0 ∨ clock (queue s) + 1 < ts ∨ ts < get_timestamp node
     ∨ is_staging node = false →
     queue_commit_staged s p ts = Some (s, true)).
Proof using type_shift_range type_mask_above_shift rbtree_postorder_visits.
  intros Hp Heven.
  pose proof pow_shift_le_64 as Hp64.
  split; [|split; [|split]].
  - intros Hl. unfold bus1_queue_commit_staged, bus1_queue_node_is_queued.
    by rewrite Hp, Hl.
  - intros out s1 out1 Hst Hin Hflush. unfold bus1_queue_flush in Hflush.
    destruct (flush_loop _ _ _ _) as [[h' out']|] eqn:Hloop; [|done].
    injection Hflush as <- _.
    destruct (flush_loop_unlinks _ _ _ _ _ p node Hloop Hp Hst) as (node' & Hp' & Hl');
      [left; by rewrite rbtree_postorder_visits|].
    unfold bus1_queue_commit_staged, bus1_queue_node_is_queued. simpl.
    by rewrite Hp', Hl'.
  - intros Hwf [Hc0 Hc1] Hin Hst [Hle1 Hle2].
    pose proof Hwf as (_ & _ & Hlinked & _).
    destruct (Hlinked p Hin) as (n & Hn & Hl & Hnz & _).
    rewrite Hp in Hn. injection Hn as <-.
    rewrite is_staging_odd in Hst.
    assert (Hne : get_timestamp node ≠ ts).
    { intros Heq. rewrite Heq, <- Z.negb_even, Heven in Hst. done. }
    pose proof (get_timestamp_nonneg node) as Hnn.
    assert (Hrej : add_rejects BUS1_QUEUE_TYPE_MASK (queue s) node ts = false).
    { apply add_rejects_false. rewrite u64_small by lia.
      repeat split; try done; try lia. by rewrite Hl. }
    destruct (add_accepts s p node ts (queue_wf_allocated _ Hwf) Hp Hrej)
      as (front1 & l1 & l2 & Hsplit & _ & Heq & _); [done|].
    rewrite Hl in Hsplit.
    assert (Hwf' : queue_wf BUS1_QUEUE_TYPE_MASK
              (State (<[p := add_stamped BUS1_QUEUE_TYPE_MASK node ts]> (heap s))
                     (add_publish (queue s) p ts front1 (l1 ++ p :: l2)
                                  (bool_decide (l1 = []))))).
    { eapply add_wf; [done|done| |exact Heq].
      intros node0 Hp0 Hl0. rewrite Hp in Hp0. injection Hp0 as <-. congruence. }
    eexists _, (add_stamped BUS1_QUEUE_TYPE_MASK node ts).
    unfold bus1_queue_commit_staged, bus1_queue_node_is_queued.
    rewrite Hp, Hl, Heq. split; [done|]. cbn [heap queue].
    rewrite add_publish_messages, add_publish_clock.
    rewrite is_staging_odd, add_stamped_timestamp by lia.
    rewrite add_stamped_ref, add_stamped_sender, Hl.
    split; [done|]. split; [done|].
    split; [by rewrite <- Z.negb_even, Heven|].
    split; [done|]. split; [done|]. split; [done|].
    split; [|done].
    rewrite <- Permutation_middle, <- Hsplit. symmetry. by apply rb_erase_perm.
  - intros Hl [Hc0 Hc1] Hbad.
    unfold bus1_queue_commit_staged, bus1_queue_node_is_queued.
    rewrite Hp, Hl, bus1_queue_add_unfold, Hp.
    rewrite add_rejects_true; [done|].
    rewrite u64_small by lia.
    destruct (decide (get_timestamp node = 0)) as [H0|H0];
      [right; right; by left|].
    destruct Hbad as [?|[?|[?|Hst]]];
      [by left|by right; left|by do 5 right; left|].
    rewrite is_staging_odd, <- Z.negb_even in Hst. apply negb_false_iff in Hst.
    do 4 right; left. done.
Qed.

(** ** Further properties of the queue *)

(** Every queue that a run of operations builds from [bus1_queue_init] is
    consistent. *)
Lemma exec_init_wf h ops s :
  BUS1_QUEUE_TYPE_SHIFT < 64 →
  exec BUS1_QUEUE_TYPE_MASK rbtree_postorder BUS1_QUEUE_TYPE_SHIFT
       (State h bus1_queue_init) ops s →
  queue_wf BUS1_QUEUE_TYPE_MASK s.
Proof using type_shift_range type_mask_above_shift.
  intros Hshift Hexec.
  assert (Hr : ops = [] ∨ in_range (State h bus1_queue_init)).
  { inversion Hexec as [|? ? s1 ? ? _ [Hr0 Hr1] _]; subst; [by left|right].
    split; simpl; lia. }
  destruct Hr as [->|Hr].
  - inversion Hexec; subst. apply init_wf.
  - eapply exec_wf; [done|apply init_wf|done|done].
Qed.

(** X1: on every queue built from [bus1_queue_init] by a run of stage,
    commit, remove, flush and clock operations (the clock staying within
    the timestamp field), a non-null [front] is the first node of
    [messages] and that node is committed; a staged node is never the
    front. *)
Theorem front_is_first_and_committed h ops s f :
  BUS1_QUEUE_TYPE_SHIFT < 64 →
  exec BUS1_QUEUE_TYPE_MASK rbtree_postorder BUS1_QUEUE_TYPE_SHIFT
       (State h bus1_queue_init) ops s →
  front (queue s) = Some f →
  ∃ rest nf,
    messages (queue s) = f :: rest
    ∧ heap s !! f = Some nf
    ∧ is_staging nf = false.
Proof using type_shift_range type_mask_above_shift.
  intros Hshift Hexec Hf.
  pose proof (exec_init_wf h ops s Hshift Hexec) as Hwf.
  destruct (queue_wf_front s f Hwf Hf) as (rest & nf & ? & ? & ? & _).
  by exists rest, nf.
Qed.

(** X2: on every queue built from [bus1_queue_init] by such a run, the tree
    holds each node once, in ascending order of (timestamp, sender); every
    node in it is linked and stamped, a staged one with at most
    [clock + 1] and a committed one with at most [clock]; and the clock is
    even. *)
Theorem messages_stay_ordered h ops s :
  BUS1_QUEUE_TYPE_SHIFT < 64 →
  exec BUS1_QUEUE_TYPE_MASK rbtree_postorder BUS1_QUEUE_TYPE_SHIFT
       (State h bus1_queue_init) ops s →
  NoDup (messages (queue s))
  ∧ messages_sorted BUS1_QUEUE_TYPE_MASK s
  ∧ Z.even (clock (queue s)) = true
  ∧ ∀ p, p ∈ messages (queue s) →
      ∃ n, heap s !! p = Some n
           ∧ rb_linked n = true
           ∧ 0 < get_timestamp n ≤ clock (queue s) + 1
           ∧ (is_staging n = false → get_timestamp n ≤ clock (queue s)).
Proof using type_shift_range type_mask_above_shift.
  intros Hshift Hexec.
  destruct (exec_init_wf h ops s Hshift Hexec)
    as (Hnd & Hsorted & Hlinked & Hc0 & Hce & _).
  split; [done|]. split; [done|]. split; [done|].
  intros p Hp. destruct (Hlinked p Hp) as (n & Hn & Hl & Hnz & Hle).
  exists n. split; [done|]. split; [done|].
  pose proof (get_timestamp_nonneg n). split; [lia|].
  intros Hst. rewrite is_staging_odd in Hst.
  destruct (Z.eq_dec (get_timestamp n) (clock (queue s) + 1)) as [Heq|]; [|lia].
  rewrite Heq, Z.odd_add, <- Z.negb_even, Hce in Hst. discriminate Hst.
Qed.


(** X3: [bus1_queue_remove] removes a node once: when a call returned
    true, a second call on the same node returns false and changes
    nothing. *)
Theorem remove_is_once s p s1 :
  bus1_queue_remove BUS1_QUEUE_TYPE_MASK s (Some p) = Some (s1, true) →
  bus1_queue_remove BUS1_QUEUE_TYPE_MASK s1 (Some p) = Some (s1, false).
Proof using Type.
  simpl. destruct (heap s !! p) as [node|]; [|done].
  destruct (rb_linked node); simpl; [|done].
  destruct (rb_mem p (messages (queue s))); simpl; [|done].
  match goal with
  | |- context [match ?f with Some _ => _ | None => None end] =>
      destruct f as [f1|]; [|done]
  end.
  intros [= <-]. simpl. by rewrite lookup_insert_eq.
Qed.

(** X4: removing the first node of a consistent queue (a dequeue) unlinks
    it, drops the queue's reference, leaves the rest of the tree as it is
    and sets [front] to exactly the committed minimum of what remains: the
    successor when it is committed, [NULL] when it is staged or absent. *)
Theorem remove_first_promotes_successor s p node rest :
  queue_wf BUS1_QUEUE_TYPE_MASK s →
  messages (queue s) = p :: rest →
  heap s !! p = Some node →
  ∃ s',
    queue_remove s (Some p) = Some (s', true)
    ∧ messages (queue s') = rest
    ∧ heap s' = <[p := kref_put (RB_CLEAR_NODE node)]> (heap s)
    ∧ clock (queue s') = clock (queue s)
    ∧ front (queue s') = committed_minimum BUS1_QUEUE_TYPE_MASK s'.
Proof using Type.
  intros Hwf Hm Hp.
  pose proof Hwf as (Hnd & _ & Hlinked & _).
  destruct (Hlinked p) as (n & Hn & Hl & _); [rewrite Hm; apply list_elem_of_here|].
  rewrite Hp in Hn. injection Hn as <-.
  rewrite Hm in Hnd. apply NoDup_cons in Hnd as [Hp_rest Hnd].
  simpl. rewrite Hp, Hl, Hm. simpl. rewrite !Pos.eqb_refl. simpl.
  assert (Hfront : ∃ f1,
    match head rest with
    | Some n0 =>
        match heap s !! n0 with
        | Some iter => if is_staging iter then Some None else Some (Some n0)
        | None => None
        end
    | None => Some None
    end = Some f1
    ∧ f1 = committed_minimum BUS1_QUEUE_TYPE_MASK
             (State (<[p := kref_put (RB_CLEAR_NODE node)]> (heap s))
                    (Queue (clock (queue s)) f1 rest (waitq (queue s))))).
  { unfold committed_minimum. simpl. destruct rest as [|x rest']; simpl.
    - by exists None.
    - destruct (Hlinked x) as (nx & Hx & _);
        [rewrite Hm; apply list_elem_of_further, list_elem_of_here|].
      rewrite Hx. rewrite lookup_insert_ne, Hx
        by (intros ->; apply Hp_rest, list_elem_of_here).
      destruct (is_staging nx); eexists; by split. }
  destruct Hfront as (f1 & -> & Hf1).
  eexists. split; [done|].
  destruct (negb _ && _); simpl; repeat split; try done.
  all: rewrite Hf1 at 1; done.
Qed.

(** X5: the wait queue is woken on the edge from not readable to readable
    and only then: an operation calls [wake_up_interruptible] once when
    [front] was [NULL] before it and is non-null after it, and not at all
    otherwise. *)
Theorem wake_up_on_readable_edge o s s' :
  step BUS1_QUEUE_TYPE_MASK rbtree_postorder o s = Some s' →
  waitq (queue s')
  = (waitq (queue s)
     + if negb (bus1_queue_is_readable (queue s))
          && bus1_queue_is_readable (queue s')
       then 1 else 0)%nat.
Proof using Type.
  assert (Hsame : ∀ q : bus1_queue,
            waitq q = (waitq q + if negb (bus1_queue_is_readable q)
                                    && bus1_queue_is_readable q
                                 then 1 else 0)%nat).
  { intros q. destruct (bus1_queue_is_readable q); simpl; lia. }
  assert (Hadd : ∀ s0 p t s1,
            queue_add s0 p t = Some s1 →
            waitq (queue s1)
            = (waitq (queue s0)
               + if negb (bus1_queue_is_readable (queue s0))
                    && bus1_queue_is_readable (queue s1)
                 then 1 else 0)%nat).
  { intros s0 p t s1. rewrite bus1_queue_add_unfold.
    destruct (heap s0 !! p) as [node|]; [|done].
    destruct (add_rejects _ _ _ _); [intros [= <-]; apply Hsame|].
    destruct (rb_linked node && _); [done|].
    destruct (add_uncover_front _ _ _ _ _) as [front1|]; [|done].
    destruct (rb_link_sorted _ _ _ _ _) as [[msgs2 lm]|]; [|done].
    intros [= <-]. simpl. unfold add_publish, bus1_queue_is_readable. simpl.
    destruct (front (queue s0)), ((Z.land t 1 =? 0) && lm), front1;
      simpl; lia. }
  intros Hstep. destruct o as [p t|p t|p|np| |t|]; simpl in Hstep.
  - unfold bus1_queue_stage in Hstep. simpl in Hstep.
    destruct (queue_add _ p _) as [s1|] eqn:Ha; [|done].
    injection Hstep as <-. by rewrite (Hadd _ _ _ _ Ha).
  - unfold bus1_queue_commit_staged in Hstep.
    destruct (heap s !! p) as [node|]; [|done].
    destruct (bus1_queue_node_is_queued node);
      [|injection Hstep as <-; apply Hsame].
    destruct (queue_add s p t) as [s1|] eqn:Ha; [|done].
    injection Hstep as <-. by apply Hadd in Ha.
  - unfold bus1_queue_commit_unstaged in Hstep.
    destruct (heap s !! p) as [node|]; [|done].
    destruct (negb _); [|injection Hstep as <-; apply Hsame].
    simpl in Hstep. by rewrite (Hadd _ _ _ _ Hstep).
  - destruct np as [p|]; simpl in Hstep; [|injection Hstep as <-; apply Hsame].
    destruct (heap s !! p) as [node|]; [|done].
    destruct (negb (rb_linked node)); [injection Hstep as <-; apply Hsame|].
    destruct (negb (rb_mem _ _)); [done|]. simpl in Hstep.
    match type of Hstep with
    | context [match ?f with Some _ => _ | None => None end] =>
        destruct f as [f1|]; [|done]
    end.
    simpl in Hstep. injection Hstep as <-. simpl.
    unfold bus1_queue_is_readable. simpl.
    destruct (front (queue s)), f1; simpl; lia.
  - unfold bus1_queue_flush in Hstep.
    destruct (flush_loop _ _ _ _) as [[h out]|]; [|done].
    injection Hstep as <-. simpl. unfold bus1_queue_is_readable. simpl.
    rewrite andb_false_r. lia.
  - injection Hstep as <-. simpl. unfold bus1_queue_is_readable. simpl.
    destruct (front (queue s)); simpl; lia.
  - injection Hstep as <-. simpl. unfold bus1_queue_is_readable. simpl.
    destruct (front (queue s)); simpl; lia.
Qed.


Lemma step_reference o s s' x n :
  queue_wf BUS1_QUEUE_TYPE_MASK s →
  step BUS1_QUEUE_TYPE_MASK rbtree_postorder o s = Some s' →
  heap s !! x = Some n →
  ∃ n', heap s' !! x = Some n'
        ∧ ref n' - Z.b2z (rb_linked n') = ref n - Z.b2z (rb_linked n).
Proof using rbtree_postorder_visits.
  intros Hwf Hstep Hx.
  assert (Hadd : ∀ s0 p t s1,
            heap s0 = heap s → queue_add s0 p t = Some s1 →
            ∃ n', heap s1 !! x = Some n'
                  ∧ ref n' - Z.b2z (rb_linked n') = ref n - Z.b2z (rb_linked n)).
  { intros s0 p t s1 Hh Ha.
    destruct (add_heap _ _ _ _ Ha) as [->|(node & Hp & _ & ->)];
      rewrite Hh; [by exists n|].
    rewrite Hh in Hp.
    destruct (decide (x = p)) as [->|Hne].
    - rewrite lookup_insert_eq. eexists. split; [done|].
      rewrite Hp in Hx. injection Hx as ->.
      rewrite add_stamped_ref, add_stamped_linked.
      destruct (rb_linked n); simpl; lia.
    - rewrite lookup_insert_ne by done. by exists n. }
  destruct o as [p t|p t|p|np| |t|]; simpl in Hstep.
  - unfold bus1_queue_stage in Hstep. simpl in Hstep.
    destruct (queue_add _ p _) as [s1|] eqn:Ha; [|done].
    injection Hstep as <-. by refine (Hadd _ _ _ _ _ Ha).
  - unfold bus1_queue_commit_staged in Hstep.
    destruct (heap s !! p) as [node|]; [|done].
    destruct (bus1_queue_node_is_queued node);
      [|injection Hstep as <-; by exists n].
    destruct (queue_add s p t) as [s1|] eqn:Ha; [|done].
    injection Hstep as <-. by refine (Hadd _ _ _ _ _ Ha).
  - unfold bus1_queue_commit_unstaged in Hstep.
    destruct (heap s !! p) as [node|]; [|done].
    destruct (negb _); [|injection Hstep as <-; by exists n].
    simpl in Hstep. by refine (Hadd _ _ _ _ _ Hstep).
  - destruct np as [p|]; simpl in Hstep; [|injection Hstep as <-; by exists n].
    destruct (heap s !! p) as [node|] eqn:Hp; [|done].
    destruct (rb_linked node) eqn:Hl; simpl in Hstep;
      [|injection Hstep as <-; by exists n].
    destruct (negb (rb_mem _ _)); [done|]. simpl in Hstep.
    match type of Hstep with
    | context [match ?f with Some _ => _ | None => None end] =>
        destruct f as [f1|]; [|done]
    end.
    simpl in Hstep. injection Hstep as <-. simpl.
    destruct (decide (x = p)) as [->|Hne].
    + rewrite lookup_insert_eq. eexists. split; [done|].
      rewrite Hp in Hx. injection Hx as ->. simpl. rewrite Hl. simpl. lia.
    + rewrite lookup_insert_ne by done. by exists n.
  - unfold bus1_queue_flush in Hstep.
    pose proof Hwf as (Hnd & _ & Hlinked & _).
    pose proof (rbtree_postorder_visits (messages (queue s))) as Hperm.
    destruct (flush_loop_spec (rbtree_postorder (messages (queue s))) (heap s) [])
      as (h' & out' & Hloop & Hspec).
    { by rewrite Hperm. }
    { rewrite Hperm. by apply queue_wf_allocated. }
    rewrite Hloop in Hstep. injection Hstep as <-. simpl.
    destruct (Hspec x n Hx) as [-> _]. eexists. split; [done|].
    destruct (bool_decide (x ∈ rbtree_postorder (messages (queue s)))) eqn:Hin;
      [|done].
    destruct (is_staging n); [|done]. simpl.
    apply bool_decide_eq_true in Hin. rewrite Hperm in Hin.
    destruct (Hlinked x Hin) as (n0 & Hn0 & Hl & _).
    rewrite Hx in Hn0. injection Hn0 as <-. rewrite Hl. simpl. lia.
  - injection Hstep as <-. by exists n.
  - injection Hstep as <-. by exists n.
Qed.

(** X6: the queue holds one reference per linked node.  Along every run
    from a consistent queue, for every node of the heap, the reference
    count minus one-if-linked stays what it was: linking takes a
    reference, re-stamping takes none, unlinking (by remove or by a flush
    of a staged node) drops one, and a flushed committed node keeps its
    reference and its linkage for the caller. *)
Theorem queue_reference_follows_linkage s ops s' :
  BUS1_QUEUE_TYPE_SHIFT < 64 →
  queue_wf BUS1_QUEUE_TYPE_MASK s →
  in_range s →
  exec BUS1_QUEUE_TYPE_MASK rbtree_postorder BUS1_QUEUE_TYPE_SHIFT s ops s' →
  ∀ x n, heap s !! x = Some n →
  ∃ n', heap s' !! x = Some n'
        ∧ ref n' - Z.b2z (rb_linked n') = ref n - Z.b2z (rb_linked n).
Proof using type_shift_range type_mask_above_shift rbtree_postorder_visits.
  intros Hshift Hwf Hr Hexec.
  induction Hexec as [s|s o s1 ops s2 Hstep Hr1 _ IH]; intros x n Hx.
  - by exists n.
  - destruct (step_reference _ _ _ _ _ Hwf Hstep Hx) as (n1 & Hx1 & Heq1).
    destruct (IH (step_wf _ _ _ Hshift Hwf Hr Hstep Hr1) Hr1 _ _ Hx1)
      as (n2 & Hx2 & Heq2).
    exists n2. split; [done|lia].
Qed.

(** X7: [bus1_queue_commit_unstaged] of a fresh node (unlinked, never
    stamped) on a consistent queue whose ticked clock still lies inside
    the timestamp field ([clock + 3] below the type tag) ticks the clock
    by 2 and appends the node, committed at the new clock value, behind
    every node already queued; the node becomes the front exactly when the
    queue was empty, otherwise the front stays as it was. *)
Theorem commit_unstaged_appends s p node :
  queue_wf BUS1_QUEUE_TYPE_MASK s →
  clock (queue s) + 3 < 2 ^ BUS1_QUEUE_TYPE_SHIFT →
  heap s !! p = Some node →
  rb_linked node = false →
  get_timestamp node = 0 →
  ∃ s' node',
    queue_commit_unstaged s p = Some s'
    ∧ clock (queue s') = clock (queue s) + 2
    ∧ messages (queue s') = messages (queue s) ++ [p]
    ∧ heap s' = <[p := node']> (heap s)
    ∧ get_timestamp node' = clock (queue s) + 2
    ∧ is_staging node' = false
    ∧ rb_linked node' = true
    ∧ ref node' = ref node + 1
    ∧ front (queue s')
      = match messages (queue s) with [] => Some p | _ => front (queue s) end.
Proof using type_shift_range type_mask_above_shift.
  intros Hwf Hr Hp Hl Hts.
  pose proof pow_shift_le_64 as Hp64.
  pose proof Hwf as (Hnd & _ & Hlinked & Hc0 & Hce & Hfront).
  unfold bus1_queue_commit_unstaged, bus1_queue_node_is_queued, bus1_queue_tick.
  rewrite Hp, Hl. simpl. rewrite u64_small by lia.
  set (c := clock (queue s) + 2).
  set (s1 := State (heap s) (set_clock (queue s) c)).
  assert (Hrej : add_rejects BUS1_QUEUE_TYPE_MASK (queue s1) node c = false).
  { apply add_rejects_false. simpl. rewrite u64_small by lia.
    rewrite Hts, Hl. unfold c. repeat split; try done; lia. }
  destruct (add_accepts s1 p node c) as (front1 & l1 & l2 & Hsplit & Hf1 & Heq & _ & Hl2);
    [exact (queue_wf_allocated s Hwf)|done|done|by rewrite Hl|].
  rewrite Hl in Hsplit. simpl in Hsplit.
  assert (Hget : get_timestamp (add_stamped BUS1_QUEUE_TYPE_MASK node c) = c)
    by (apply add_stamped_timestamp; unfold c; lia).
  assert (l2 = []) as ->.
  { destruct l2 as [|x l2]; [done|exfalso].
    destruct (Hl2 x eq_refl) as (nx & Hx & Hnle). apply Hnle.
    destruct (Hlinked x) as (nx' & Hx' & _ & _ & Hle);
      [rewrite Hsplit, elem_of_app; right; apply list_elem_of_here|].
    simpl in Hx. rewrite Hx in Hx'. injection Hx' as <-.
    left. unfold key. cbn [fst]. rewrite Hget. unfold c. lia. }
  rewrite app_nil_r in Hsplit. subst l1.
  assert (front1 = front (queue s)) as ->.
  { unfold add_uncover_front in Hf1. simpl in Hf1. rewrite Hl in Hf1.
    destruct (front (queue s)); simpl in Hf1; congruence. }
  rewrite Heq. eexists _, _. split; [done|]. cbn [heap queue].
  rewrite add_publish_clock, add_publish_messages, add_publish_front.
  rewrite is_staging_odd, Hget, add_stamped_ref, Hl.
  assert (Hodd : Z.odd c = false).
  { unfold c. rewrite Z.odd_add, <- Z.negb_even, Hce. done. }
  rewrite land_1_odd, Hodd. simpl.
  repeat split; try done.
  destruct (messages (queue s)) as [|y rest] eqn:Hm.
  - by rewrite bool_decide_true.
  - by rewrite bool_decide_false.
Qed.


Lemma rb_erase_middle p l1 l2 : p ∉ l1 → rb_erase p (l1 ++ p :: l2) = l1 ++ l2.
Proof using Type.
  induction l1 as [|x l1 IH]; simpl; intros Hn.
  - by rewrite Pos.eqb_refl.
  - destruct (Pos.eqb_spec x p) as [->|Hne]; [elem_solver|].
    f_equal. apply IH. elem_solver.
Qed.

Lemma rb_next_middle p l1 l2 : p ∉ l1 → rb_next p (l1 ++ p :: l2) = head l2.
Proof using Type.
  induction l1 as [|x l1 IH]; simpl; intros Hn.
  - by rewrite Pos.eqb_refl.
  - destruct (Pos.eqb_spec x p) as [->|Hne]; [elem_solver|].
    apply IH. elem_solver.
Qed.

Lemma rb_prev_cons2 p x y l :
  rb_prev p (x :: y :: l)
  = if Pos.eqb x p then None
    else if Pos.eqb y p then Some x else rb_prev p (y :: l).
Proof using Type. done. Qed.

Lemma rb_prev_middle p x l1 l2 :
  p ∉ x :: l1 → is_Some (rb_prev p ((x :: l1) ++ p :: l2)).
Proof using Type.
  revert x. induction l1 as [|y l1 IH]; intros x Hn.
  - simpl. destruct (Pos.eqb_spec x p) as [->|Hne]; [elem_solver|].
    rewrite Pos.eqb_refl. by eexists.
  - change ((x :: y :: l1) ++ p :: l2) with (x :: y :: l1 ++ p :: l2).
    rewrite rb_prev_cons2.
    destruct (Pos.eqb_spec x p) as [->|Hne]; [elem_solver|].
    destruct (Pos.eqb_spec y p) as [->|Hne']; [by eexists|].
    apply (IH y). elem_solver.
Qed.

(** X8: staging a fresh node and removing it again leaves the tree as it
    was.  The clock stays synced to the requested value, the node is
    unlinked again with the reference count it had, but it keeps its
    staging stamp; the front is what it was, or the committed first node
    of the tree when the removal uncovered it. *)
Theorem stage_then_remove s p node t :
  queue_wf BUS1_QUEUE_TYPE_MASK s →
  0 ≤ t → t + 2 < 2 ^ BUS1_QUEUE_TYPE_SHIFT →
  clock (queue s) + 1 < 2 ^ BUS1_QUEUE_TYPE_SHIFT →
  heap s !! p = Some node →
  rb_linked node = false →
  get_timestamp node = 0 →
  ∃ s1 s2 node' c,
    c = Z.max (clock (queue s)) (round_up_even t)
    ∧ queue_stage s p t = Some (s1, c)
    ∧ queue_remove s1 (Some p) = Some (s2, true)
    ∧ messages (queue s2) = messages (queue s)
    ∧ clock (queue s2) = c
    ∧ heap s2 = <[p := node']> (heap s)
    ∧ rb_linked node' = false
    ∧ ref node' = ref node
    ∧ get_timestamp node' = c + 1
    ∧ (front (queue s2) = front (queue s)
       ∨ front (queue s2) = committed_minimum BUS1_QUEUE_TYPE_MASK s).
Proof using type_shift_range type_mask_above_shift.
  intros Hwf Ht0 Ht Hr Hp Hl Hts.
  pose proof pow_shift_le_64 as Hp64.
  pose proof Hwf as (Hnd & _ & Hlinked & Hc0 & Hce & Hfront).
  assert (Hru : 0 ≤ round_up_even t ≤ t + 1).
  { unfold round_up_even. rewrite land_1_cases.
    destruct (Z.odd t); rewrite u64_small; lia. }
  remember (Z.max (clock (queue s)) (round_up_even t)) as c eqn:Hc.
  assert (Hcr : 0 ≤ c ∧ c + 1 < 2 ^ BUS1_QUEUE_TYPE_SHIFT) by lia.
  assert (Hceven : Z.even c = true).
  { rewrite Hc. destruct (Z.max_spec (clock (queue s)) (round_up_even t))
      as [[_ ->]|[_ ->]]; [apply round_up_even_is_even|done]. }
  assert (Hpm : p ∉ messages (queue s)).
  { intros Hin. destruct (Hlinked p Hin) as (n & Hn & Hln & _).
    rewrite Hp in Hn. injection Hn as <-. congruence. }
  set (s0 := State (heap s) (set_clock (queue s) c)).
  assert (Hrej : add_rejects BUS1_QUEUE_TYPE_MASK (queue s0) node (c + 1) = false).
  { apply add_rejects_false. simpl. rewrite u64_small by lia.
    rewrite Hts, Hl. repeat split; try done; lia. }
  destruct (add_accepts s0 p node (c + 1))
    as (front1 & l1 & l2 & Hsplit & Hf1 & Heq & _ & _);
    [exact (queue_wf_allocated s Hwf)|done|done|by rewrite Hl|].
  rewrite Hl in Hsplit. simpl in Hsplit.
  assert (front1 = front (queue s)) as ->.
  { unfold add_uncover_front in Hf1. simpl in Hf1. rewrite Hl in Hf1.
    destruct (front (queue s)); simpl in Hf1; congruence. }
  assert (Hp1 : p ∉ l1) by (rewrite Hsplit in Hpm; elem_solver).
  assert (Hget : get_timestamp (add_stamped BUS1_QUEUE_TYPE_MASK node (c + 1))
                 = c + 1) by (apply add_stamped_timestamp; lia).
  assert (Hodd : (Z.land (c + 1) 1 =? 0) = false).
  { rewrite land_1_odd, Z.odd_add, <- Z.negb_even, Hceven. done. }
  unfold bus1_queue_stage, bus1_queue_sync. rewrite <- Hc.
  rewrite u64_small by lia. fold s0. rewrite Heq.
  set (ns := add_stamped BUS1_QUEUE_TYPE_MASK node (c + 1)) in *.
  set (q1 := add_publish (queue s0) p (c + 1) (front (queue s))
                         (l1 ++ p :: l2) (bool_decide (l1 = []))).
  assert (Hm1 : messages q1 = l1 ++ p :: l2) by apply add_publish_messages.
  assert (Hc1 : clock q1 = c) by apply add_publish_clock.
  assert (Hfr1 : front q1 = front (queue s)).
  { unfold q1. by rewrite add_publish_front, Hodd. }
  assert (Hmem : rb_mem p (l1 ++ p :: l2) = true).
  { apply rb_mem_elem_of. rewrite elem_of_app. right. apply list_elem_of_here. }
  assert (Hf2 : ∃ f2,
    (if negb (bool_decide (is_Some (rb_prev p (l1 ++ p :: l2))))
     then match rb_next p (l1 ++ p :: l2) with
          | None => Some None
          | Some n =>
              match <[p := ns]> (heap s) !! n with
              | None => None
              | Some iter => if is_staging iter then Some None else Some (Some n)
              end
          end
     else Some (front (queue s))) = Some f2
    ∧ (f2 = front (queue s)
       ∨ f2 = committed_minimum BUS1_QUEUE_TYPE_MASK s)).
  { destruct l1 as [|x l1].
    - simpl. rewrite Pos.eqb_refl. simpl. simpl in Hsplit.
      unfold committed_minimum. rewrite Hsplit.
      destruct l2 as [|y l2]; simpl.
      + exists None. split; [done|by right].
      + assert (Hy : y ∈ messages (queue s))
          by (rewrite Hsplit; apply list_elem_of_here).
        destruct (Hlinked y Hy) as (ny & Hny & _).
        rewrite lookup_insert_ne by (intros ->; done). rewrite Hny.
        destruct (is_staging ny); eexists; (split; [done|by right]).
    - rewrite bool_decide_true by by apply rb_prev_middle.
      simpl. eexists. split; [done|by left]. }
  destruct Hf2 as (f2 & Hf2 & Hf2').
  eexists _, _, (kref_put (RB_CLEAR_NODE ns)), c. split; [done|].
  split; [done|].
  cbn [bus1_queue_remove heap queue]. rewrite lookup_insert_eq.
  replace (rb_linked ns) with true by done. cbn [negb].
  rewrite Hm1, Hmem. cbn [negb]. change (heap s0) with (heap s).
  rewrite Hfr1, Hf2, Hc1.
  rewrite rb_erase_middle, <- Hsplit by done.
  split; [done|].
  rewrite insert_insert_eq.
  assert (Href : ref (kref_put (RB_CLEAR_NODE ns)) = ref node).
  { change (ref (kref_put (RB_CLEAR_NODE ns))) with (ref ns - 1).
    unfold ns. rewrite add_stamped_ref, Hl. lia. }
  assert (Hget' : get_timestamp (kref_put (RB_CLEAR_NODE ns)) = c + 1)
    by exact Hget.
  destruct (negb _ && _); cbn [queue heap messages clock front wake_up_interruptible];
    repeat split; done.
Qed.

Lemma rb_link_tree_total h node p t :
  Forall (λ x, is_Some (h !! x)) (rb_inorder t) →
  is_Some (rb_link_tree BUS1_QUEUE_TYPE_MASK h node p t).
Proof using Type.
  induction t as [|l IHl n r IHr]; simpl; intros Hall; [by eexists|].
  apply Forall_app in Hall as [Hl Hr].
  apply Forall_cons in Hr as [[iter Hn] Hr]. rewrite Hn.
  destruct (node_compare node (get_timestamp iter) (sender iter) <? 0).
  - destruct (IHl Hl) as [[l' lm] ->]. by eexists.
  - destruct (IHr Hr) as [[r' lm] ->]. by eexists.
Qed.

(** X9: the descent of [bus1_queue_add] on a search tree of any shape.
    With every node of the tree allocated, the descent finds a slot; the
    new in-order sequence is the old one with the node put behind every
    entry whose key (timestamp, then sender) is at most its own, so behind
    the entries with an equal key, and in front of an entry with a greater
    key; [is_leftmost] is true exactly when no entry precedes the node. *)
Theorem descent_places_behind_equal_keys h node p t :
  StronglySorted (heap_le h) (rb_inorder t) →
  Forall (λ x, is_Some (h !! x)) (rb_inorder t) →
  ∃ t' l1 l2,
    rb_link_tree BUS1_QUEUE_TYPE_MASK h node p t
    = Some (t', bool_decide (l1 = []))
    ∧ rb_inorder t = l1 ++ l2
    ∧ rb_inorder t' = l1 ++ p :: l2
    ∧ Forall (λ x, ∃ nx, h !! x = Some nx
                         ∧ key_le (node_key nx) (node_key node)) l1
    ∧ (∀ x, head l2 = Some x →
         ∃ nx, h !! x = Some nx ∧ ¬ key_le (node_key nx) (node_key node)).
Proof using Type.
  intros Hs Hall.
  destruct (rb_link_tree_total h node p t Hall) as [[t' lm] Ht].
  pose proof (rb_link_sorted_refines _ _ _ _ _ _ Hs Ht) as Href.
  destruct (rb_link_sorted_spec h node p _ Hall)
    as (l1 & l2 & Hsplit & Hlink & Hl1 & Hl2).
  rewrite Hlink in Href. injection Href as Hin Hlm.
  exists t', l1, l2. rewrite Ht, Hlm. by repeat split.
Qed.

(** X10: [bus1_queue_node_set_timestamp] replaces the timestamp and keeps
    the type tag.  For timestamps below the tag, the tag bits of
    [timestamp_and_type] are what they were, the new timestamp is read
    back, and nothing of an earlier timestamp is left: setting twice is
    setting the last one. *)
Theorem set_timestamp_replaces node t1 t2 :
  0 ≤ t1 < 2 ^ BUS1_QUEUE_TYPE_SHIFT →
  0 ≤ t2 < 2 ^ BUS1_QUEUE_TYPE_SHIFT →
  Z.land (timestamp_and_type
            (bus1_queue_node_set_timestamp BUS1_QUEUE_TYPE_MASK node t2))
         BUS1_QUEUE_TYPE_MASK
  = Z.land (timestamp_and_type node) BUS1_QUEUE_TYPE_MASK
  ∧ get_timestamp (set_timestamp node t2) = t2
  ∧ set_timestamp (set_timestamp node t1) t2 = set_timestamp node t2.
Proof using type_shift_range type_mask_above_shift.
  intros Ht1 Ht2.
  assert (Htag : ∀ t, 0 ≤ t < 2 ^ BUS1_QUEUE_TYPE_SHIFT →
            Z.land t BUS1_QUEUE_TYPE_MASK = 0).
  { intros t Hr.
    assert (Z.land t (Z.ones BUS1_QUEUE_TYPE_SHIFT) = t) as <-.
    { rewrite Z.land_ones by lia. apply Z.mod_small. lia. }
    rewrite <- Z.land_assoc, (Z.land_comm (Z.ones _)), type_mask_above_shift.
    apply Z.land_0_r. }
  assert (Hkeep : ∀ n t, 0 ≤ t < 2 ^ BUS1_QUEUE_TYPE_SHIFT →
            Z.land (timestamp_and_type (set_timestamp n t)) BUS1_QUEUE_TYPE_MASK
            = Z.land (timestamp_and_type n) BUS1_QUEUE_TYPE_MASK).
  { intros n t Hr. unfold bus1_queue_node_set_timestamp. simpl.
    rewrite Z.land_lor_distr_l, (Htag t) by done.
    rewrite <- Z.land_assoc, Z.land_diag. apply Z.lor_0_r. }
  split; [by apply Hkeep|]. split; [by apply get_set_timestamp|].
  unfold bus1_queue_node_set_timestamp at 1 3.
  rewrite Hkeep by done. by destruct node.
Qed.


Lemma step_clock_mono o s s' :
  BUS1_QUEUE_TYPE_SHIFT < 64 →
  in_range s →
  step BUS1_QUEUE_TYPE_MASK rbtree_postorder o s = Some s' →
  clock (queue s) ≤ clock (queue s').
Proof using type_shift_range.
  intros Hshift [Hc0 Hc1] Hstep.
  assert (H63 : 2 ^ BUS1_QUEUE_TYPE_SHIFT ≤ 2 ^ 63)
    by (apply Z.pow_le_mono_r; lia).
  destruct o as [p t|p t|p|np| |t|]; simpl in Hstep.
  - unfold bus1_queue_stage in Hstep. simpl in Hstep.
    destruct (queue_add _ p _) as [s1|] eqn:Ha; [|done].
    injection Hstep as <-. rewrite (add_clock _ _ _ _ Ha). simpl. lia.
  - unfold bus1_queue_commit_staged in Hstep.
    destruct (heap s !! p) as [node|]; [|done].
    destruct (bus1_queue_node_is_queued node);
      [|by injection Hstep as <-].
    destruct (queue_add s p t) as [s1|] eqn:Ha; [|done].
    injection Hstep as <-. by rewrite (add_clock _ _ _ _ Ha).
  - unfold bus1_queue_commit_unstaged in Hstep.
    destruct (heap s !! p) as [node|]; [|done].
    destruct (negb _); [|by injection Hstep as <-].
    simpl in Hstep. rewrite (add_clock _ _ _ _ Hstep). simpl.
    rewrite u64_small; lia.
  - destruct np as [p|]; simpl in Hstep; [|by injection Hstep as <-].
    destruct (heap s !! p) as [node|]; [|done].
    destruct (negb (rb_linked node)); [by injection Hstep as <-|].
    destruct (negb (rb_mem _ _)); [done|]. simpl in Hstep.
    match type of Hstep with
    | context [match ?f with Some _ => _ | None => None end] =>
        destruct f as [f1|]; [|done]
    end.
    simpl in Hstep. injection Hstep as <-. simpl.
    by destruct (negb _ && _).
  - unfold bus1_queue_flush in Hstep.
    destruct (flush_loop _ _ _ _) as [[h out]|]; [|done].
    by injection Hstep as <-.
  - injection Hstep as <-. simpl. lia.
  - injection Hstep as <-. simpl. rewrite u64_small; lia.
Qed.

(** X18: the clock never goes back.  Along every run of queue operations
    during which the clock stays within the timestamp field, the clock at
    the end is at least the clock at the start: stage and sync raise it to
    the requested value when that is higher, a commit of an unstaged node
    ticks it by 2, and commit of a staged node, remove and flush leave
    it. *)
Theorem clock_never_goes_back s ops s' :
  BUS1_QUEUE_TYPE_SHIFT < 64 →
  in_range s →
  exec BUS1_QUEUE_TYPE_MASK rbtree_postorder BUS1_QUEUE_TYPE_SHIFT s ops s' →
  clock (queue s) ≤ clock (queue s').
Proof using type_shift_range.
  intros Hshift Hr Hexec.
  induction Hexec as [s|s o s1 ops s2 Hstep Hr1 _ IH]; [done|].
  pose proof (step_clock_mono _ _ _ Hshift Hr Hstep). specialize (IH Hr1). lia.
Qed.


End Facts.

End QueueFacts.

(** * The properties on concrete queues *)

Module QueueExamples.
Import Queue Examples QueueFacts.

Lemma type_shift_in_range : 0 ≤ type_shift ≤ 64.
Proof. unfold type_shift. lia. Qed.

Lemma type_mask_above_type_shift : Z.land type_mask (Z.ones type_shift) = 0.
Proof. reflexivity. Qed.

Lemma visit_in_order_visits l : visit_in_order l ≡ₚ l.
Proof. reflexivity. Qed.

Local Ltac in_range_now :=
  split; [vm_compute; discriminate|vm_compute; reflexivity].

(** The states of [Examples] arise from runs of the queue operations. *)
Lemma staged1_reached :
  exec type_mask visit_in_order type_shift start1 [OpStage 1 0] staged1.
Proof.
  econstructor; [vm_compute; reflexivity|in_range_now|constructor].
Qed.

Lemma staged1_synced_reached :
  exec type_mask visit_in_order type_shift start1 [OpStage 1 0; OpSync 2]
       staged1_synced.
Proof.
  econstructor; [vm_compute; reflexivity|in_range_now|].
  econstructor; [vm_compute; reflexivity|in_range_now|constructor].
Qed.

Lemma removed1_reached :
  exec type_mask visit_in_order type_shift start1
       [OpStage 1 0; OpRemove (Some 1%positive)] removed1.
Proof.
  econstructor; [vm_compute; reflexivity|in_range_now|].
  econstructor; [vm_compute; reflexivity|in_range_now|constructor].
Qed.

Lemma start1_in_range : clock_in_range type_shift start1.
Proof. in_range_now. Qed.

Lemma staged1_synced_wf : queue_wf type_mask staged1_synced.
Proof.
  refine (proj1 (exec_wf type_mask visit_in_order type_shift
                   type_shift_in_range type_mask_above_type_shift
                   start1 _ staged1_synced _ _
                   start1_in_range staged1_synced_reached)).
  - unfold type_shift. lia.
  - apply init_wf.
Qed.

(** ** C1: the front is lost when a node is committed onto an equal key *)

(** C1 (evaluation at the failing input): a transaction of sender 7 stages
    two nodes on an empty queue, a unicast message of sender 9 is
    committed at timestamp 2, and the transaction then commits both of its
    nodes at 2.  The run stays within the clock range, the queue then holds
    the three nodes in order, all committed, so the minimum of [messages]
    exists and is committed; yet [front] is [NULL] and the queue is not
    readable. *)
Theorem front_lost_on_equal_keys :
  ∃ s',
    exec type_mask visit_in_order type_shift start3 two_part_commit s'
    ∧ run type_mask visit_in_order two_part_commit start3 = Some s'
    ∧ messages (queue s') = [1%positive; 2%positive; 3%positive]
    ∧ committed_minimum type_mask s' = Some 1%positive
    ∧ front (queue s') = None
    ∧ bus1_queue_is_readable (queue s') = false.
Proof.
  eexists. split; [|split; [vm_compute; reflexivity|by vm_compute]].
  unfold two_part_commit.
  econstructor; [vm_compute; reflexivity|in_range_now|].
  econstructor; [vm_compute; reflexivity|in_range_now|].
  econstructor; [vm_compute; reflexivity|in_range_now|].
  econstructor; [vm_compute; reflexivity|in_range_now|].
  econstructor; [vm_compute; reflexivity|in_range_now|constructor].
Qed.

(** ** Scenarios of the design document *)

(** A stager blocks the front: with a node staged at 1, a message
    committed at 2 is not readable; once the staged node is committed at 4
    (after the clock was synced), the message at 2 is the front and the
    re-stamped node follows it. *)
Lemma scenario_stager_blocks_front :
  (∃ s, run type_mask visit_in_order
          [OpStage 1 0; OpCommitUnstaged 3] start3 = Some s
        ∧ messages (queue s) = [1%positive; 3%positive]
        ∧ front (queue s) = None)
  ∧ (∃ s, run type_mask visit_in_order
            [OpStage 1 0; OpCommitUnstaged 3; OpSync 4; OpCommitStaged 1 4]
            start3 = Some s
          ∧ messages (queue s) = [3%positive; 1%positive]
          ∧ front (queue s) = Some 3%positive
          ∧ waitq (queue s) = 1%nat).
Proof.
  split; eexists; (split; [vm_compute; reflexivity|by vm_compute]).
Qed.

(** A flush with a live stager: the committed node is handed to the
    caller, the staged one is unlinked and loses the queue's reference, and
    its later commit returns false. *)
Lemma scenario_flush_with_live_stager :
  ∃ s,
    bus1_queue_flush type_mask visit_in_order committed_then_staged []
    = Some (s, [1%positive])
    ∧ heap s !! 2%positive = Some (Node 7 9 1 false)
    ∧ bus1_queue_commit_staged type_mask s 2%positive 8 = Some (s, false).
Proof.
  eexists. split; [vm_compute; reflexivity|]. split; by vm_compute.
Qed.

(** ** Witnesses *)

Lemma remove_null_is_noop_witness :
  heap removed1 !! 1%positive = Some (Node 1 7 1 false)
  ∧ bus1_queue_remove type_mask removed1 (Some 1%positive)
    = bus1_queue_remove type_mask removed1 None.
Proof.
  split; [reflexivity|].
  apply (proj2 (remove_null_is_noop type_mask removed1)
               1%positive (Node 1 7 1 false)); reflexivity.
Defined.

Lemma messages_allocated_two_parts : messages_allocated two_parts.
Proof. repeat constructor; by eexists. Qed.

Lemma peek_locked_spec_witness :
  front (queue two_parts) = Some 1%positive
  ∧ ∃ s',
      bus1_queue_peek_locked type_mask two_parts false
      = Some (s', Some 1%positive, true)
      ∧ queue s' = queue two_parts.
Proof.
  split; [reflexivity|].
  destruct (proj2 (peek_locked_spec type_mask two_parts false)
                  1%positive (Node 2 7 1 true))
    as (c' & Heq & _ & _ & Hc);
    [reflexivity|reflexivity|apply list_elem_of_here
    |apply messages_allocated_two_parts|].
  assert (c' = true) as ->.
  { apply Hc. exists 2%positive, (Node 2 7 1 true). by vm_compute. }
  eexists. split; [exact Heq|reflexivity].
Defined.



Lemma stage_unstamped_node_witness :
  heap start1 !! 1%positive = Some (fresh 7)
  ∧ rb_linked (fresh 7) = false
  ∧ bus1_queue_node_get_timestamp type_mask (fresh 7) = 0
  ∧ ∃ s' ts,
      bus1_queue_stage type_mask start1 1%positive 0 = Some (s', ts)
      ∧ ts = Z.max (clock (queue start1)) 0
      ∧ clock (queue s') = ts.
Proof.
  split; [reflexivity|]. split; [reflexivity|]. split; [reflexivity|].
  destruct (stage_unstamped_node type_mask type_shift
              type_shift_in_range type_mask_above_type_shift
              start1 1%positive (fresh 7) 0)
    as (s' & ts & Heq & Hts & _ & Hclk & _);
    try reflexivity; try (vm_compute; discriminate).
  - constructor.
  - exists s', ts. by repeat split.
Defined.

Lemma flush_spec_witness :
  NoDup (messages (queue committed_then_staged))
  ∧ messages_allocated committed_then_staged
  ∧ ∃ s' out',
      bus1_queue_flush type_mask visit_in_order committed_then_staged []
      = Some (s', out')
      ∧ messages (queue s') = []
      ∧ front (queue s') = None
      ∧ count_occ Pos.eq_dec out' 1%positive = 1%nat.
Proof.
  assert (Hnd : NoDup (messages (queue committed_then_staged))).
  { apply (bool_decide_unpack _). by vm_compute. }
  assert (Hall : messages_allocated committed_then_staged).
  { repeat constructor; by eexists. }
  split; [exact Hnd|]. split; [exact Hall|].
  destruct (flush_spec type_mask visit_in_order visit_in_order_visits
              committed_then_staged [] Hnd Hall)
    as (s' & out' & Heq & Hm & Hf & Hnodes).
  exists s', out'. repeat split; try done.
  destruct (Hnodes 1%positive (Node 6 7 1 true)) as [_ Hc];
    [apply list_elem_of_here|reflexivity|].
  destruct Hc as (_ & _ & Hone); [reflexivity|].
  apply Hone. apply not_elem_of_nil.
Defined.

Lemma commit_staged_spec_witness :
  heap staged1_synced !! 1%positive = Some (Node 1 7 2 true)
  ∧ Z.even 2 = true
  ∧ queue_wf type_mask staged1_synced
  ∧ ∃ s',
      bus1_queue_commit_staged type_mask staged1_synced 1%positive 2
      = Some (s', true)
      ∧ queue_wf type_mask s'.
Proof.
  split; [reflexivity|]. split; [reflexivity|].
  split; [exact staged1_synced_wf|].
  destruct (commit_staged_spec type_mask visit_in_order type_shift
              type_shift_in_range type_mask_above_type_shift
              visit_in_order_visits
              staged1_synced 1%positive (Node 1 7 2 true) 2
              eq_refl eq_refl) as (_ & _ & Hcommit & _).
  destruct Hcommit as (s' & node' & Heq & _ & _ & _ & _ & _ & _ & _ & Hwf & _).
  - exact staged1_synced_wf.
  - in_range_now.
  - apply list_elem_of_here.
  - reflexivity.
  - vm_compute. split; discriminate.
  - exists s'. by split.
Defined.

(** ** Counterexamples *)

(** C2, as stated, fails: on a queue whose clock is still 0, a linked
    staged node (stamp 1) is committed with the even timestamp 8.  The call
    returns true, but the node is not re-stamped and nothing moves. *)
Lemma commit_staged_unsynced_counterexample :
  heap staged1 !! 1%positive = Some (Node 1 7 2 true)
  ∧ rb_linked (Node 1 7 2 true) = true
  ∧ Z.even 8 = true
  ∧ bus1_queue_commit_staged type_mask staged1 1%positive 8
    = Some (staged1, true)
  ∧ bus1_queue_node_get_timestamp type_mask (Node 1 7 2 true) ≠ 8.
Proof. by vm_compute. Qed.

(** C3, as stated, fails: a node that was staged and then removed is
    unlinked but keeps its stamp.  Staging it again with the even minimum 2
    syncs the clock and returns 2, but the node is not inserted. *)
Lemma stage_after_remove_counterexample :
  heap removed1 !! 1%positive = Some (Node 1 7 1 false)
  ∧ rb_linked (Node 1 7 1 false) = false
  ∧ Z.even 2 = true
  ∧ ∃ s',
      bus1_queue_stage type_mask removed1 1%positive 2 = Some (s', 2)
      ∧ messages (queue s') = []
      ∧ heap s' !! 1%positive = Some (Node 1 7 1 false)
      ∧ bus1_queue_node_get_timestamp type_mask (Node 1 7 1 false) ≠ 2 + 1.
Proof. repeat split; try done. eexists. by vm_compute. Qed.


(** ** Witnesses of the further properties *)

Lemma type_shift_below_64 : type_shift < 64.
Proof. unfold type_shift. lia. Qed.

Lemma start3_in_range : clock_in_range type_shift start3.
Proof. in_range_now. Qed.

Lemma committed_staged_fresh_reached :
  exec type_mask visit_in_order type_shift start3 commit_then_stage
       committed_staged_fresh.
Proof.
  econstructor; [vm_compute; reflexivity|in_range_now|].
  econstructor; [vm_compute; reflexivity|in_range_now|constructor].
Qed.

Lemma committed_staged_fresh_wf : queue_wf type_mask committed_staged_fresh.
Proof.
  refine (proj1 (exec_wf type_mask visit_in_order type_shift
                   type_shift_in_range type_mask_above_type_shift
                   start3 _ committed_staged_fresh type_shift_below_64 _
                   start3_in_range committed_staged_fresh_reached)).
  apply init_wf.
Qed.

Lemma front_is_first_and_committed_witness :
  front (queue committed_staged_fresh) = Some 1%positive
  ∧ ∃ rest nf,
      messages (queue committed_staged_fresh) = 1%positive :: rest
      ∧ heap committed_staged_fresh !! 1%positive = Some nf
      ∧ bus1_queue_node_is_staging type_mask nf = false.
Proof.
  split; [reflexivity|].
  apply (front_is_first_and_committed type_mask visit_in_order type_shift
           type_shift_in_range type_mask_above_type_shift
           heap3 commit_then_stage committed_staged_fresh 1%positive
           type_shift_below_64 committed_staged_fresh_reached).
  reflexivity.
Defined.

Lemma messages_stay_ordered_witness :
  NoDup (messages (queue committed_staged_fresh))
  ∧ messages_sorted type_mask committed_staged_fresh
  ∧ Z.even (clock (queue committed_staged_fresh)) = true.
Proof.
  destruct (messages_stay_ordered type_mask visit_in_order type_shift
              type_shift_in_range type_mask_above_type_shift
              heap3 commit_then_stage committed_staged_fresh
              type_shift_below_64 committed_staged_fresh_reached)
    as (Hnd & Hsorted & Heven & _).
  by repeat split.
Defined.

Lemma remove_is_once_witness :
  ∃ s1,
    bus1_queue_remove type_mask committed_staged_fresh (Some 2%positive)
    = Some (s1, true)
    ∧ bus1_queue_remove type_mask s1 (Some 2%positive) = Some (s1, false).
Proof.
  eexists. split; [vm_compute; reflexivity|].
  apply (remove_is_once type_mask committed_staged_fresh 2%positive).
  vm_compute. reflexivity.
Defined.

Lemma remove_first_promotes_successor_witness :
  messages (queue committed_staged_fresh) = [1%positive; 2%positive]
  ∧ ∃ s',
      bus1_queue_remove type_mask committed_staged_fresh (Some 1%positive)
      = Some (s', true)
      ∧ messages (queue s') = [2%positive]
      ∧ front (queue s') = committed_minimum type_mask s'.
Proof.
  split; [reflexivity|].
  destruct (remove_first_promotes_successor type_mask committed_staged_fresh
              1%positive (Node 2 7 2 true) [2%positive]
              committed_staged_fresh_wf eq_refl eq_refl)
    as (s' & Hrem & Hm & _ & _ & Hf).
  by exists s'.
Defined.

Lemma wake_up_on_readable_edge_witness :
  ∃ s',
    step type_mask visit_in_order (OpCommitUnstaged 1) start3 = Some s'
    ∧ waitq (queue s')
      = (waitq (queue start3)
         + if negb (bus1_queue_is_readable (queue start3))
              && bus1_queue_is_readable (queue s')
           then 1 else 0)%nat.
Proof.
  eexists. split; [vm_compute; reflexivity|].
  apply (wake_up_on_readable_edge type_mask visit_in_order
           (OpCommitUnstaged 1) start3).
  vm_compute. reflexivity.
Defined.

Lemma queue_reference_follows_linkage_witness :
  heap start3 !! 1%positive = Some (fresh 7)
  ∧ ∃ n',
      heap committed_staged_fresh !! 1%positive = Some n'
      ∧ ref n' - Z.b2z (rb_linked n')
        = ref (fresh 7) - Z.b2z (rb_linked (fresh 7)).
Proof.
  split; [reflexivity|].
  apply (queue_reference_follows_linkage type_mask visit_in_order type_shift
           type_shift_in_range type_mask_above_type_shift
           visit_in_order_visits
           start3 commit_then_stage committed_staged_fresh
           type_shift_below_64 (init_wf type_mask heap3)
           start3_in_range committed_staged_fresh_reached).
  reflexivity.
Defined.

Lemma commit_unstaged_appends_witness :
  heap committed_staged_fresh !! 3%positive = Some (fresh 9)
  ∧ ∃ s',
      bus1_queue_commit_unstaged type_mask committed_staged_fresh 3%positive
      = Some s'
      ∧ clock (queue s') = 4
      ∧ messages (queue s') = [1%positive; 2%positive; 3%positive]
      ∧ front (queue s') = Some 1%positive.
Proof.
  split; [reflexivity|].
  destruct (commit_unstaged_appends type_mask type_shift
              type_shift_in_range type_mask_above_type_shift
              committed_staged_fresh 3%positive (fresh 9)
              committed_staged_fresh_wf)
    as (s' & node' & Hc & Hclock & Hm & _ & _ & _ & _ & _ & Hf);
    [by vm_compute|reflexivity|reflexivity|reflexivity|].
  by exists s'.
Defined.

Lemma stage_then_remove_witness :
  heap committed_staged_fresh !! 3%positive = Some (fresh 9)
  ∧ ∃ s1 s2,
      bus1_queue_stage type_mask committed_staged_fresh 3%positive 5
      = Some (s1, 6)
      ∧ bus1_queue_remove type_mask s1 (Some 3%positive) = Some (s2, true)
      ∧ messages (queue s2) = [1%positive; 2%positive]
      ∧ clock (queue s2) = 6.
Proof.
  split; [reflexivity|].
  destruct (stage_then_remove type_mask type_shift
              type_shift_in_range type_mask_above_type_shift
              committed_staged_fresh 3%positive (fresh 9) 5
              committed_staged_fresh_wf)
    as (s1 & s2 & node' & c & -> & Hst & Hrem & Hm & Hc & _);
    [lia|by vm_compute|by vm_compute|reflexivity|reflexivity|reflexivity|].
  by exists s1, s2.
Defined.

Lemma descent_places_behind_equal_keys_witness :
  rb_inorder tree12 = messages (queue committed_staged_fresh)
  ∧ ∃ t' l1 l2,
      rb_link_tree type_mask (heap committed_staged_fresh)
        (Node 2 7 1 true) 3%positive tree12
      = Some (t', bool_decide (l1 = []))
      ∧ rb_inorder tree12 = l1 ++ l2
      ∧ rb_inorder t' = l1 ++ 3%positive :: l2.
Proof.
  split; [reflexivity|].
  destruct (descent_places_behind_equal_keys type_mask
              (heap committed_staged_fresh) (Node 2 7 1 true) 3%positive tree12
              (proj1 (proj2 committed_staged_fresh_wf))
              (queue_wf_allocated type_mask _ committed_staged_fresh_wf))
    as (t' & l1 & l2 & Ht & Hin & Hin' & _).
  by exists t', l1, l2.
Defined.

Lemma set_timestamp_replaces_witness :
  0 ≤ 3 < 2 ^ type_shift
  ∧ bus1_queue_node_get_timestamp type_mask
      (bus1_queue_node_set_timestamp type_mask (fresh 7) 4) = 4
  ∧ bus1_queue_node_set_timestamp type_mask
      (bus1_queue_node_set_timestamp type_mask (fresh 7) 3) 4
    = bus1_queue_node_set_timestamp type_mask (fresh 7) 4.
Proof.
  split; [by vm_compute|].
  apply (set_timestamp_replaces type_mask type_shift
           type_shift_in_range type_mask_above_type_shift (fresh 7) 3 4);
    by vm_compute.
Defined.


Lemma clock_never_goes_back_witness :
  clock_in_range type_shift start3
  ∧ clock (queue start3) ≤ clock (queue committed_staged_fresh).
Proof.
  split; [apply start3_in_range|].
  apply (clock_never_goes_back type_mask visit_in_order type_shift
           type_shift_in_range start3 commit_then_stage committed_staged_fresh
           type_shift_below_64 start3_in_range committed_staged_fresh_reached).
Defined.


End QueueExamples.

(** * Properties of the peer wrapper *)

Module PeerFacts.
Import Peer.

Section Facts.

Variable BUS1_CONNECT_FLAG_CLIENT : Z.
Variable BUS1_CONNECT_FLAG_MONITOR : Z.
Variable BUS1_CONNECT_FLAG_QUERY : Z.
Variable BUS1_CONNECT_FLAG_RESET : Z.
Variable BUS1_SEND_FLAG_CONTINUE : Z.
Variable BUS1_SEND_FLAG_SILENT : Z.
Variable BUS1_SEND_FLAG_RELEASE : Z.
Variable BUS1_VEC_MAX : Z.
Variable BUS1_FD_MAX : Z.
Variable PAGE_SIZE : Z.
Variable BITS_PER_LONG : Z.
Variable BUS1_QUEUE_TYPE_MASK : Z.
Variable rbtree_postorder : list positive → list positive.

Variable world : Type.
Variable transaction : Type.
Variable bus1_transaction_new_from_user :
  bus1_cmd_send → world → world * (errno + transaction).
Variable get_user : Z → world → option Z.
Variable bus1_transaction_commit_for_id :
  transaction → Z → world → world * retval.
Variable bus1_transaction_instantiate_for_id :
  transaction → Z → world → world * retval.
Variable bus1_transaction_commit : transaction → world → world.
Variable bus1_transaction_free : transaction → world → world.

Local Abbreviation peer_ioctl_send :=
  (bus1_peer_ioctl_send BUS1_SEND_FLAG_CONTINUE BUS1_SEND_FLAG_SILENT
     BUS1_SEND_FLAG_RELEASE BUS1_VEC_MAX BUS1_FD_MAX BITS_PER_LONG
     world transaction bus1_transaction_new_from_user get_user
     bus1_transaction_commit_for_id bus1_transaction_instantiate_for_id
     bus1_transaction_commit bus1_transaction_free).

(** The flags that [bus1_peer_ioctl_send] accepts. *)
Local Abbreviation send_valid_flags :=
  (Z.lor BUS1_SEND_FLAG_CONTINUE
     (Z.lor BUS1_SEND_FLAG_SILENT BUS1_SEND_FLAG_RELEASE)).

Local Abbreviation peer_connect :=
  (bus1_peer_connect BUS1_CONNECT_FLAG_CLIENT BUS1_CONNECT_FLAG_MONITOR
     BUS1_CONNECT_FLAG_QUERY BUS1_CONNECT_FLAG_RESET PAGE_SIZE
     BUS1_QUEUE_TYPE_MASK rbtree_postorder).
Local Abbreviation peer_connect_new := (bus1_peer_connect_new PAGE_SIZE).
Local Abbreviation peer_connect_reset :=
  (bus1_peer_connect_reset BUS1_QUEUE_TYPE_MASK rbtree_postorder).
Local Abbreviation peer_info_reset :=
  (bus1_peer_info_reset BUS1_QUEUE_TYPE_MASK rbtree_postorder).

(** The flags that [bus1_peer_connect] accepts. *)
Local Abbreviation connect_valid_flags :=
  (Z.lor BUS1_CONNECT_FLAG_CLIENT
     (Z.lor BUS1_CONNECT_FLAG_QUERY BUS1_CONNECT_FLAG_RESET)).

(** ** Bit tests *)

Lemma land_lor_nonzero_l a b c : Z.land a b ≠ 0 → Z.land a (Z.lor b c) ≠ 0.
Proof using Type.
  intros Hb. rewrite Z.land_lor_distr_r, Z.lor_eq_0_iff. by intros [? _].
Qed.

Lemma land_lor_zero a b c :
  Z.land a b = 0 → Z.land a c = 0 → Z.land a (Z.lor b c) = 0.
Proof using Type.
  intros Hb Hc. by rewrite Z.land_lor_distr_r, Hb, Hc.
Qed.

(** A 64-bit value with no bit inside and no bit outside a mask is 0. *)
Lemma u64_no_bits flags mask :
  0 ≤ flags < 2 ^ 64 →
  Z.land flags mask = 0 → Z.land flags (u64_not mask) = 0 → flags = 0.
Proof using Type.
  intros Hr Hin Hout. apply Z.bits_inj'. intros i Hi. rewrite Z.bits_0.
  destruct (Z.testbit flags i) eqn:Hb; [|done].
  assert (Hi64 : i < 64).
  { destruct (Z.lt_ge_cases i 64) as [|Hge]; [done|].
    rewrite (Z.bits_above_log2 flags i) in Hb; [done|lia|].
    destruct (Z.eq_dec flags 0) as [->|]; [simpl; lia|].
    assert (Z.log2 flags < 64); [|lia].
    apply Z.log2_lt_pow2; lia. }
  assert (H1 : Z.testbit (Z.land flags mask) i = false) by (rewrite Hin; apply Z.bits_0).
  assert (H2 : Z.testbit (Z.land flags (u64_not mask)) i = false)
    by (rewrite Hout; apply Z.bits_0).
  unfold u64_not, u64, U64_MODULUS in H2.
  rewrite <- Z.land_ones in H2 by lia.
  rewrite !Z.land_spec, Z.lnot_spec, Z.testbit_ones_nonneg in * by lia.
  rewrite Hb in *. simpl in *. rewrite H1 in H2. simpl in H2.
  apply Z.ltb_ge in H2. lia.
Qed.

Lemma not_not_range x : 0 ≤ not_not x ≤ 1.
Proof using Type. unfold not_not. case_match; lia. Qed.

Lemma not_not_nonzero x : x ≠ 0 → not_not x = 1.
Proof using Type. intros Hx. unfold not_not. by destruct (Z.eqb_spec x 0). Qed.


(** ** Connecting *)

(** C7 (as amended): [bus1_peer_connect] fails with [EINVAL] for flags
    with a bit outside {client, query, reset}, for flags naming both
    client and reset, and for flags naming none of the three.  The query
    flag is not counted as a mode: next to client or reset it is ignored,
    and the client or the reset path runs; alone it selects the query path.
    On the client path a pool size that is 0 or not page-aligned gives
    [EINVAL].  On the reset and query paths a nonzero pool size gives
    [EINVAL] unless the peer is new, in which case the result is
    [ENOTCONN]. *)
Theorem connect_validation env peer param :
  let flags := connect_flags param in
  let valid := Z.land flags (u64_not connect_valid_flags) =? 0 in
  (valid = false →
   peer_connect env peer param = Some (peer, param, Err EINVAL))
  ∧ (Z.land flags BUS1_CONNECT_FLAG_CLIENT ≠ 0 →
     Z.land flags BUS1_CONNECT_FLAG_RESET ≠ 0 →
     peer_connect env peer param = Some (peer, param, Err EINVAL))
  ∧ (0 ≤ flags < 2 ^ 64 →
     Z.land flags connect_valid_flags = 0 →
     peer_connect env peer param = Some (peer, param, Err EINVAL))
  ∧ (valid = true →
     Z.land flags BUS1_CONNECT_FLAG_CLIENT ≠ 0 →
     Z.land flags BUS1_CONNECT_FLAG_MONITOR = 0 →
     Z.land flags BUS1_CONNECT_FLAG_RESET = 0 →
     peer_connect env peer param
     = Some ((peer_connect_new env peer param).1, param,
             (peer_connect_new env peer param).2))
  ∧ (valid = true →
     Z.land flags BUS1_CONNECT_FLAG_CLIENT = 0 →
     Z.land flags BUS1_CONNECT_FLAG_MONITOR = 0 →
     Z.land flags BUS1_CONNECT_FLAG_RESET ≠ 0 →
     peer_connect env peer param = peer_connect_reset peer param)
  ∧ (valid = true →
     Z.land flags BUS1_CONNECT_FLAG_CLIENT = 0 →
     Z.land flags BUS1_CONNECT_FLAG_MONITOR = 0 →
     Z.land flags BUS1_CONNECT_FLAG_RESET = 0 →
     Z.land flags BUS1_CONNECT_FLAG_QUERY ≠ 0 →
     peer_connect env peer param
     = Some (peer, (bus1_peer_connect_query peer param).1,
             (bus1_peer_connect_query peer param).2))
  ∧ (Z.land flags BUS1_CONNECT_FLAG_CLIENT ≠ 0 →
     connect_pool_size param = 0
     ∨ IS_ALIGNED (connect_pool_size param) PAGE_SIZE = false →
     peer_connect env peer param = Some (peer, param, Err EINVAL))
  ∧ (Z.land flags BUS1_CONNECT_FLAG_CLIENT = 0 →
     Z.land flags BUS1_CONNECT_FLAG_MONITOR = 0 →
     Z.land flags BUS1_CONNECT_FLAG_RESET ≠ 0
     ∨ Z.land flags BUS1_CONNECT_FLAG_QUERY ≠ 0 →
     connect_pool_size param ≠ 0 →
     peer_connect env peer param
     = Some (peer, param,
             Err (if valid && bus1_active_is_new (active peer)
                  then ENOTCONN else EINVAL))).
Proof using Type.
  intros flags valid. unfold bus1_peer_connect. fold flags. fold valid.
  pose proof (not_not_range (Z.land flags BUS1_CONNECT_FLAG_CLIENT)) as HrC.
  pose proof (not_not_range (Z.land flags BUS1_CONNECT_FLAG_MONITOR)) as HrM.
  pose proof (not_not_range (Z.land flags BUS1_CONNECT_FLAG_RESET)) as HrR.
  repeat split.
  - intros ->. done.
  - intros HC HR. destruct valid; [|done]. simpl.
    rewrite (not_not_nonzero _ HC), (not_not_nonzero _ HR).
    destruct (Z.ltb_spec 1 (1 + not_not (Z.land flags BUS1_CONNECT_FLAG_MONITOR) + 1));
      [done|lia].
  - intros Hr Hnone. destruct valid eqn:Hv; [|done]. simpl.
    apply Z.eqb_eq in Hv.
    pose proof (u64_no_bits flags _ Hr Hnone Hv) as H0.
    rewrite H0, !Z.land_0_l. simpl. done.
  - intros -> HC HM HR. simpl.
    rewrite (not_not_nonzero _ HC), HM, HR. simpl.
    destruct (Z.eqb_spec (Z.land flags (Z.lor BUS1_CONNECT_FLAG_CLIENT
                                              BUS1_CONNECT_FLAG_MONITOR)) 0)
      as [H0|_].
    + by apply land_lor_nonzero_l in H0.
    + simpl. by destruct (peer_connect_new env peer param).
  - intros -> HC HM HR. simpl.
    rewrite HC, HM, (not_not_nonzero _ HR). simpl.
    rewrite (land_lor_zero _ _ _ HC HM). simpl.
    by destruct (Z.eqb_spec (Z.land flags BUS1_CONNECT_FLAG_RESET) 0).
  - intros -> HC HM HR HQ. simpl.
    rewrite HC, HM, HR. simpl.
    rewrite (land_lor_zero _ _ _ HC HM). simpl.
    destruct (Z.eqb_spec (Z.land flags BUS1_CONNECT_FLAG_QUERY) 0); [done|].
    simpl. by destruct (bus1_peer_connect_query peer param).
  - intros HC Hpool. destruct valid; [|done]. simpl.
    destruct (1 <? _); [done|].
    destruct (Z.eqb_spec (Z.land flags (Z.lor BUS1_CONNECT_FLAG_CLIENT
                                              BUS1_CONNECT_FLAG_MONITOR)) 0)
      as [H0|_].
    + by apply land_lor_nonzero_l in H0.
    + simpl. unfold bus1_peer_connect_new, bus1_peer_info_new.
      destruct Hpool as [->| ->]; simpl; [done|by rewrite orb_true_r].
  - intros HC HM HRQ Hpool. destruct valid; [|done]. simpl.
    rewrite HC, HM. change (not_not 0) with 0. rewrite !Z.add_0_l.
    destruct (Z.ltb_spec 1 (not_not (Z.land flags BUS1_CONNECT_FLAG_RESET)));
      [lia|].
    rewrite (land_lor_zero _ _ _ HC HM). simpl.
    destruct (Z.eqb_spec (Z.land flags BUS1_CONNECT_FLAG_RESET) 0) as [HR|HR];
      simpl.
    + destruct HRQ as [?|HQ]; [done|].
      destruct (Z.eqb_spec (Z.land flags BUS1_CONNECT_FLAG_QUERY) 0); [done|].
      simpl. unfold bus1_peer_connect_query.
      destruct (bus1_active_is_new (active peer)); [done|].
      by destruct (Z.eqb_spec (connect_pool_size param) 0).
    + unfold bus1_peer_connect_reset.
      destruct (bus1_active_is_new (active peer)); [done|].
      by destruct (Z.eqb_spec (connect_pool_size param) 0).
Qed.

(** ** Resetting *)

Lemma reset_loop_pool_size visit : ∀ h pl h' pl',
  reset_loop BUS1_QUEUE_TYPE_MASK h pl visit = Some (h', pl') →
  pool_size pl' = pool_size pl.
Proof using Type.
  induction visit as [|p visit IH]; simpl; intros h pl h' pl' Hl.
  - by injection Hl as <- <-.
  - destruct (h !! p) as [node|]; [|done].
    destruct (bus1_queue_node_is_committed _ _).
    + by rewrite (IH _ _ _ _ Hl).
    + by rewrite (IH _ _ _ _ Hl).
Qed.

(** C10: a successful reset-mode connect writes the pool size of the peer
    into the caller's [pool_size], which the caller had to pass as 0; it is
    the size that the peer holds before the queue and the pool are drained
    (and still holds afterwards), and the value that a query-mode connect
    on the same peer reports. *)
Theorem reset_reports_pool_size env peer param peer' param' :
  Z.land (connect_flags param) BUS1_CONNECT_FLAG_RESET ≠ 0 →
  peer_connect env peer param = Some (peer', param', Ok) →
  connect_pool_size param = 0
  ∧ ∃ peer_info peer_info',
      info peer = Some peer_info
      ∧ param' = CmdConnect (connect_flags param) (pool_size (pool peer_info))
      ∧ bus1_peer_connect_query peer param = (param', Ok)
      ∧ peer_info_reset peer_info = Some peer_info'
      ∧ peer' = Peer (active peer) (Some peer_info')
      ∧ Queue.messages (Queue.queue (queue peer_info')) = []
      ∧ Queue.front (Queue.queue (queue peer_info')) = None
      ∧ pool_slices (pool peer_info') = []
      ∧ pool_size (pool peer_info') = pool_size (pool peer_info).
Proof using Type.
  intros HR. unfold bus1_peer_connect.
  pose proof (not_not_range (Z.land (connect_flags param) BUS1_CONNECT_FLAG_CLIENT)) as HrC.
  pose proof (not_not_range (Z.land (connect_flags param) BUS1_CONNECT_FLAG_MONITOR)) as HrM.
  destruct (negb _); [done|].
  rewrite (not_not_nonzero _ HR).
  destruct (Z.ltb_spec 1 (not_not (Z.land (connect_flags param) BUS1_CONNECT_FLAG_CLIENT)
                          + not_not (Z.land (connect_flags param) BUS1_CONNECT_FLAG_MONITOR)
                          + 1)) as [|Hcount]; [done|].
  assert (HC : Z.land (connect_flags param) BUS1_CONNECT_FLAG_CLIENT = 0).
  { destruct (Z.eq_dec (Z.land (connect_flags param) BUS1_CONNECT_FLAG_CLIENT) 0)
      as [|Hn]; [done|]. rewrite (not_not_nonzero _ Hn) in Hcount. lia. }
  assert (HM : Z.land (connect_flags param) BUS1_CONNECT_FLAG_MONITOR = 0).
  { destruct (Z.eq_dec (Z.land (connect_flags param) BUS1_CONNECT_FLAG_MONITOR) 0)
      as [|Hn]; [done|]. rewrite (not_not_nonzero _ Hn) in Hcount. lia. }
  rewrite (land_lor_zero _ _ _ HC HM). simpl.
  destruct (Z.eqb_spec (Z.land (connect_flags param) BUS1_CONNECT_FLAG_RESET) 0);
    [done|]. simpl.
  unfold bus1_peer_connect_reset, bus1_peer_connect_query.
  destruct (bus1_active_is_new (active peer)); [done|].
  destruct (Z.eqb_spec (connect_pool_size param) 0) as [Hpool|]; [|done]. simpl.
  destruct (bus1_peer_acquire peer); [|done]. simpl.
  destruct (info peer) as [peer_info|]; [|done].
  destruct (peer_info_reset peer_info) as [peer_info'|] eqn:Hreset; [|done].
  intros [= <- <-]. split; [done|].
  exists peer_info, peer_info'. repeat split; try done.
  all: unfold bus1_peer_info_reset in Hreset.
  all: destruct (reset_loop _ _ _ _) as [[h pl]|] eqn:Hloop; [|done].
  all: injection Hreset as <-; simpl; try done.
  by eapply reset_loop_pool_size.
Qed.

(** ** Sending *)

(** C8 (as amended): a send request that was copied in and whose vector
    count exceeds [BUS1_VEC_MAX] or whose file-descriptor count exceeds
    [BUS1_FD_MAX] fails with [EMSGSIZE] when its flags are valid, and with
    [EINVAL] when they are not; a request that could not be copied in fails
    with the error of the copy.  In each case the call returns before a
    transaction is created: the world is as before, whatever the
    transaction layer does. *)
Theorem send_limits param w :
  (BUS1_VEC_MAX < n_vecs param ∨ BUS1_FD_MAX < n_fds param →
   peer_ioctl_send (inr param) w
   = (w, Err (if Z.land (send_flags param) (u64_not send_valid_flags) =? 0
              then EMSGSIZE else EINVAL)))
  ∧ ∀ e, peer_ioctl_send (inl e) w = (w, Err e).
Proof using Type.
  split; [|done]. intros Hover. unfold bus1_peer_ioctl_send.
  destruct (Z.land (send_flags param) (u64_not send_valid_flags) =? 0); [|done].
  simpl.
  destruct (Z.ltb_spec BUS1_VEC_MAX (n_vecs param)); [done|].
  destruct (Z.ltb_spec BUS1_FD_MAX (n_fds param)); [done|]. lia.
Qed.

(** ** Further properties of the peer *)

Local Abbreviation node_is_committed :=
  (bus1_queue_node_is_committed BUS1_QUEUE_TYPE_MASK).

(** The loop of [bus1_peer_info_reset] on distinct, allocated nodes: it
    runs to the end, frees the committed nodes it visits, unlinks the
    others and touches nothing else. *)
Lemma reset_loop_spec visit : ∀ h pl,
  NoDup visit →
  Forall (λ x, is_Some (h !! x)) visit →
  ∃ h' pl',
    reset_loop BUS1_QUEUE_TYPE_MASK h pl visit = Some (h', pl')
    ∧ ∀ x, h' !! x
           = if bool_decide (x ∈ visit)
             then n ← h !! x;
                  if node_is_committed n then None
                  else Some (Queue.RB_CLEAR_NODE n)
             else h !! x.
Proof using Type.
  induction visit as [|p visit IH]; intros h pl Hnd Hall; cbn [reset_loop].
  - exists h, pl. split; [done|]. intros x.
    rewrite bool_decide_false; [done|]. by intros ?%elem_of_nil.
  - apply NoDup_cons in Hnd as [Hp Hnd].
    apply Forall_cons in Hall as [[node Hnode] Hall].
    rewrite Hnode.
    change (bus1_queue_node_is_committed BUS1_QUEUE_TYPE_MASK
              (Queue.RB_CLEAR_NODE node)) with (node_is_committed node).
    destruct (node_is_committed node) eqn:Hc.
    + destruct (IH (delete p h) (bus1_message_deallocate_locked p pl) Hnd)
        as (h' & pl' & -> & Hspec).
      { apply Forall_forall. intros x Hx.
        rewrite lookup_delete_ne by (intros ->; done).
        by apply (proj1 (Forall_forall _ _) Hall). }
      exists h', pl'. split; [done|]. intros x. rewrite Hspec.
      destruct (decide (x = p)) as [->|Hne].
      * rewrite bool_decide_false by done.
        rewrite bool_decide_true by apply list_elem_of_here.
        rewrite lookup_delete_eq, Hnode. simpl. by rewrite Hc.
      * rewrite lookup_delete_ne by done.
        destruct (decide (x ∈ visit)) as [Hin|Hin].
        -- rewrite !bool_decide_true; [done| |done].
           by apply list_elem_of_further.
        -- rewrite !bool_decide_false; [done| |done].
           intros [->|?]%elem_of_cons; done.
    + destruct (IH (<[p := Queue.RB_CLEAR_NODE node]> h) pl Hnd)
        as (h' & pl' & -> & Hspec).
      { apply Forall_forall. intros x Hx.
        rewrite lookup_insert_ne by (intros ->; done).
        by apply (proj1 (Forall_forall _ _) Hall). }
      exists h', pl'. split; [done|]. intros x. rewrite Hspec.
      destruct (decide (x = p)) as [->|Hne].
      * rewrite bool_decide_false by done.
        rewrite bool_decide_true by apply list_elem_of_here.
        rewrite lookup_insert_eq, Hnode. simpl. by rewrite Hc.
      * rewrite lookup_insert_ne by done.
        destruct (decide (x ∈ visit)) as [Hin|Hin].
        -- rewrite !bool_decide_true; [done| |done].
           by apply list_elem_of_further.
        -- rewrite !bool_decide_false; [done| |done].
           intros [->|?]%elem_of_cons; done.
Qed.

(** X11: a failing [bus1_peer_connect] changes nothing.  Whatever the
    flags, the peer state and the allocation results, a return value other
    than 0 leaves the peer as it was (not connected, not reset) and the
    caller's parameter block unwritten. *)
Theorem connect_failure_changes_nothing env peer param peer' param' e :
  bus1_peer_connect BUS1_CONNECT_FLAG_CLIENT BUS1_CONNECT_FLAG_MONITOR
    BUS1_CONNECT_FLAG_QUERY BUS1_CONNECT_FLAG_RESET PAGE_SIZE
    BUS1_QUEUE_TYPE_MASK rbtree_postorder env peer param
  = Some (peer', param', Err e) →
  peer' = peer ∧ param' = param.
Proof using Type.
  unfold bus1_peer_connect.
  destruct (negb _); [by intros [= <- <- _]|].
  destruct (1 <? _); [by intros [= <- <- _]|].
  destruct (negb _).
  { unfold bus1_peer_connect_new.
    destruct (bus1_peer_info_new _ _ _); [by intros [= <- <- _]|].
    destruct (bus1_active_is_deactivated _); [by intros [= <- <- _]|].
    destruct peer as [a [peer_info|]]; simpl; [by intros [= <- <- _]|].
    destruct a; simpl; [done|by intros [= <- <- _]..]. }
  destruct (negb _).
  { unfold bus1_peer_connect_reset.
    destruct (bus1_active_is_new _); [by intros [= <- <- _]|].
    destruct (negb _); [by intros [= <- <- _]|].
    destruct (negb _); [by intros [= <- <- _]|].
    destruct (info peer) as [peer_info|]; [|done].
    by destruct (peer_info_reset peer_info). }
  destruct (negb _); [|by intros [= <- <- _]].
  unfold bus1_peer_connect_query.
  destruct (bus1_active_is_new _); [by intros [= <- <- _]|].
  destruct (negb _); [by intros [= <- <- _]|].
  destruct (info peer); [done|by intros [= <- <- _]].
Qed.

(** X12: [bus1_peer_connect] is safe on the peers it produces.  On a peer
    that is new without [info], or connected with an [info] whose queue
    links distinct allocated nodes, no path dereferences a missing [info]
    or a freed node, whatever the request; and the peer it leaves is again
    such a peer. *)
Theorem connect_keeps_peer_wf env peer param :
  (∀ l, rbtree_postorder l ≡ₚ l) →
  peer_wf peer →
  ∃ peer' param' r,
    peer_connect env peer param = Some (peer', param', r)
    ∧ peer_wf peer'.
Proof using Type.
  intros Hperm Hwf. unfold bus1_peer_connect.
  destruct (negb _); [by eexists _, _, _|].
  destruct (1 <? _); [by eexists _, _, _|].
  destruct (negb _).
  { unfold bus1_peer_connect_new.
    destruct (bus1_peer_info_new _ _ _) as [e|peer_info] eqn:Hnew;
      [by eexists _, _, _|].
    destruct (bus1_active_is_deactivated _); [by eexists _, _, _|].
    destruct peer as [a [pi|]]; simpl; [by eexists _, _, _|].
    destruct a; simpl; [|by eexists _, _, _..].
    eexists _, _, _. split; [done|]. unfold peer_wf. simpl.
    exists peer_info. split; [done|].
    unfold bus1_peer_info_new in Hnew.
    destruct (_ || _); [done|]. destruct (negb _); [done|].
    destruct (user_ref_by_uid env); [|done].
    destruct (pool_create env); [|done].
    injection Hnew as <-. unfold bus1_queue_init_for_peer. simpl.
    split; [constructor|].
    unfold Queue.messages_allocated. simpl. constructor. }
  destruct (negb _).
  { unfold bus1_peer_connect_reset.
    destruct (bus1_active_is_new _); [by eexists _, _, _|].
    destruct (negb _); [by eexists _, _, _|].
    destruct (bus1_peer_acquire peer) eqn:Hacq; simpl; [|by eexists _, _, _].
    unfold bus1_peer_acquire in Hacq. unfold peer_wf in Hwf.
    destruct (active peer) eqn:Ha; try done.
    destruct Hwf as (peer_info & -> & Hnd & Hall).
    unfold bus1_peer_info_reset.
    destruct (reset_loop_spec
                (rbtree_postorder (Queue.messages (Queue.queue (queue peer_info))))
                (Queue.heap (queue peer_info)) (pool peer_info))
      as (h' & pl' & -> & _).
    { by rewrite Hperm. }
    { unfold Queue.messages_allocated in Hall. by rewrite Hperm. }
    eexists _, _, _. split; [done|]. unfold peer_wf. simpl.
    eexists. split; [done|]. simpl. split; [constructor|].
    unfold Queue.messages_allocated. simpl. constructor. }
  destruct (negb _); [|by eexists _, _, _].
  destruct (bus1_peer_connect_query peer param). by eexists _, _, _.
Qed.

(** X13: a query after a connect reports the size of the pool that the
    connect installed.  When a client-mode connect returned 0, the peer
    was new before and is connected now, it holds exactly the object that
    [bus1_peer_info_new] built for the request, the parameter block is
    unwritten, and a query-mode connect with [pool_size] 0 returns 0 and
    writes the size of that object's pool. *)
Theorem connect_then_query env peer param peer' param' env' qparam :
  Z.land (connect_flags param) BUS1_CONNECT_FLAG_CLIENT ≠ 0 →
  peer_connect env peer param = Some (peer', param', Ok) →
  Z.land (connect_flags qparam) (u64_not connect_valid_flags) = 0 →
  Z.land (connect_flags qparam) BUS1_CONNECT_FLAG_CLIENT = 0 →
  Z.land (connect_flags qparam) BUS1_CONNECT_FLAG_MONITOR = 0 →
  Z.land (connect_flags qparam) BUS1_CONNECT_FLAG_RESET = 0 →
  Z.land (connect_flags qparam) BUS1_CONNECT_FLAG_QUERY ≠ 0 →
  connect_pool_size qparam = 0 →
  ∃ peer_info,
    bus1_peer_info_new PAGE_SIZE env param = inr peer_info
    ∧ active peer = ACTIVE_NEW
    ∧ peer' = Peer ACTIVE_CONNECTED (Some peer_info)
    ∧ param' = param
    ∧ peer_connect env' peer' qparam
      = Some (peer',
              CmdConnect (connect_flags qparam) (pool_size (pool peer_info)),
              Ok).
Proof using Type.
  intros HC Hconn Hv HqC HqM HqR HqQ Hq0.
  assert (Hfirst : ∃ peer_info,
    bus1_peer_info_new PAGE_SIZE env param = inr peer_info
    ∧ active peer = ACTIVE_NEW
    ∧ peer' = Peer ACTIVE_CONNECTED (Some peer_info)
    ∧ param' = param).
  { revert Hconn. unfold bus1_peer_connect.
    destruct (negb _); [done|]. destruct (1 <? _); [done|].
    destruct (Z.eqb_spec (Z.land (connect_flags param)
                (Z.lor BUS1_CONNECT_FLAG_CLIENT BUS1_CONNECT_FLAG_MONITOR)) 0)
      as [H0|_]; [by apply land_lor_nonzero_l in H0|].
    simpl. unfold bus1_peer_connect_new.
    destruct (bus1_peer_info_new PAGE_SIZE env param) as [e|peer_info];
      [done|].
    destruct (bus1_active_is_deactivated _); [done|].
    destruct peer as [a [pi|]]; simpl; [done|].
    destruct a; simpl; [|done..]. intros [= <- <-]. by exists peer_info. }
  destruct Hfirst as (peer_info & Hnew & Ha & -> & ->).
  exists peer_info. repeat split; [done..|].
  unfold bus1_peer_connect. rewrite Hv, HqC, HqM, HqR. simpl.
  rewrite (land_lor_zero _ _ _ HqC HqM). simpl.
  destruct (Z.eqb_spec (Z.land (connect_flags qparam) BUS1_CONNECT_FLAG_QUERY) 0);
    [done|].
  simpl. unfold bus1_peer_connect_query. simpl. by rewrite Hq0.
Qed.

(** X14: a peer is connected at most once.  After a
    [bus1_peer_connect_new] that returned 0, every further
    [bus1_peer_connect_new] on the peer fails and leaves it alone, and
    when its own allocations went through the error is [EISCONN]. *)
Theorem connect_new_only_once env peer param peer1 env2 param2 :
  peer_connect_new env peer param = (peer1, Ok) →
  ∃ e,
    peer_connect_new env2 peer1 param2 = (peer1, Err e)
    ∧ (∀ peer_info, bus1_peer_info_new PAGE_SIZE env2 param2 = inr peer_info →
       e = EISCONN).
Proof using Type.
  unfold bus1_peer_connect_new.
  destruct (bus1_peer_info_new _ env param) as [e|peer_info]; [done|].
  destruct (bus1_active_is_deactivated _); [done|].
  destruct peer as [a [pi|]]; simpl; [done|].
  destruct a; simpl; [|done..]. intros [= <-]. simpl.
  destruct (bus1_peer_info_new _ env2 param2) as [e2|peer_info2].
  - exists e2. by split.
  - exists EISCONN. by split.
Qed.

(** X15: what [bus1_peer_info_reset] does to the nodes.  On a queue that
    links distinct allocated nodes the reset runs to the end; it leaves
    the queue empty with its clock, the pool drained with its size, frees
    every committed node of the queue and unlinks every uncommitted one
    without touching its stamp or its reference count; nodes outside the
    queue stay as they are.  The unlink is the removal marker: a later
    [bus1_queue_commit_staged] of such an uncommitted node returns false
    and changes nothing. *)
Theorem info_reset_frees_committed_unlinks_staged peer_info :
  let s := queue peer_info in
  (∀ l, rbtree_postorder l ≡ₚ l) →
  NoDup (Queue.messages (Queue.queue s)) →
  Queue.messages_allocated s →
  ∃ peer_info',
    peer_info_reset peer_info = Some peer_info'
    ∧ pool peer_info' = Pool (pool_size (pool peer_info)) []
    ∧ Queue.queue (queue peer_info')
      = Queue.Queue (Queue.clock (Queue.queue s)) None []
                    (Queue.waitq (Queue.queue s))
    ∧ (∀ x n, Queue.heap s !! x = Some n →
         Queue.heap (queue peer_info') !! x
         = if bool_decide (x ∈ Queue.messages (Queue.queue s))
           then if node_is_committed n then None
                else Some (Queue.RB_CLEAR_NODE n)
           else Some n)
    ∧ (∀ x n t, Queue.heap s !! x = Some n →
         x ∈ Queue.messages (Queue.queue s) →
         node_is_committed n = false →
         Queue.bus1_queue_commit_staged BUS1_QUEUE_TYPE_MASK
           (queue peer_info') x t
         = Some (queue peer_info', false)).
Proof using Type.
  intros s Hperm Hnd Hall. unfold bus1_peer_info_reset. fold s.
  destruct (reset_loop_spec (rbtree_postorder (Queue.messages (Queue.queue s)))
              (Queue.heap s) (pool peer_info))
    as (h' & pl' & Hloop & Hspec).
  { by rewrite Hperm. }
  { unfold Queue.messages_allocated in Hall. by rewrite Hperm. }
  rewrite Hloop. eexists. split; [done|]. simpl.
  assert (Hheap : ∀ x n, Queue.heap s !! x = Some n →
            h' !! x
            = if bool_decide (x ∈ Queue.messages (Queue.queue s))
              then if node_is_committed n then None
                   else Some (Queue.RB_CLEAR_NODE n)
              else Some n).
  { intros x n Hx. rewrite Hspec, Hx. simpl.
    destruct (decide (x ∈ Queue.messages (Queue.queue s))) as [Hin|Hin].
    - rewrite !bool_decide_true; [done..|by rewrite Hperm].
    - rewrite !bool_decide_false; [done..|by rewrite Hperm]. }
  split.
  { unfold bus1_pool_flush. f_equal.
    by eapply reset_loop_pool_size. }
  split; [done|]. split; [done|].
  intros x n t Hx Hin Hc.
  unfold Queue.bus1_queue_commit_staged. simpl.
  by rewrite (Hheap x n Hx), bool_decide_true, Hc by done.
Qed.






End Facts.

End PeerFacts.

(** * The peer properties on concrete requests *)

Module PeerExamples.
Import Peer Examples PeerFacts.

(** ** Witnesses *)

Lemma connect_validation_witness :
  Z.land 9 CONNECT_FLAG_CLIENT ≠ 0
  ∧ Z.land 9 CONNECT_FLAG_RESET ≠ 0
  ∧ connect env_ok peer_new (CmdConnect 9 4096)
    = Some (peer_new, CmdConnect 9 4096, Err EINVAL).
Proof.
  split; [by vm_compute|]. split; [by vm_compute|].
  apply (proj1 (proj2 (connect_validation
                         CONNECT_FLAG_CLIENT CONNECT_FLAG_MONITOR
                         CONNECT_FLAG_QUERY CONNECT_FLAG_RESET page_size
                         Examples.type_mask visit_in_order
                         env_ok peer_new (CmdConnect 9 4096))));
    by vm_compute.
Defined.

Lemma reset_reports_pool_size_witness :
  Z.land 8 CONNECT_FLAG_RESET ≠ 0
  ∧ ∃ peer',
      connect env_ok peer_connected (CmdConnect 8 0)
      = Some (peer', CmdConnect 8 8192, Ok)
      ∧ bus1_peer_connect_query peer_connected (CmdConnect 8 0)
        = (CmdConnect 8 8192, Ok).
Proof.
  split; [by vm_compute|].
  destruct (connect env_ok peer_connected (CmdConnect 8 0))
    as [[[peer' param'] r]|] eqn:Hc; [|by vm_compute in Hc].
  assert (r = Ok) as -> by (vm_compute in Hc; congruence).
  destruct (reset_reports_pool_size
              CONNECT_FLAG_CLIENT CONNECT_FLAG_MONITOR
              CONNECT_FLAG_QUERY CONNECT_FLAG_RESET page_size
              Examples.type_mask visit_in_order
              env_ok peer_connected (CmdConnect 8 0) peer' param')
    as (_ & peer_info & peer_info' & Hinfo & Hparam & Hquery & _);
    [by vm_compute|exact Hc|].
  injection Hinfo as <-. subst param'.
  exists peer'. by split.
Defined.

Lemma send_limits_witness :
  VEC_MAX < 513
  ∧ send (inr (CmdSend 0 0 1 0 513 0 0 0 0)) 0%nat = (0%nat, Err EMSGSIZE).
Proof.
  split; [by vm_compute|].
  apply (proj1 (send_limits SEND_FLAG_CONTINUE SEND_FLAG_SILENT
                  SEND_FLAG_RELEASE VEC_MAX FD_MAX bits_per_long nat unit
                  (λ _ w, (S w, inr tt)) (λ _ _, Some 0)
                  (λ _ _ w, (S w, Ok)) (λ _ _ w, (S w, Ok))
                  (λ _ w, S w) (λ _ w, S w)
                  (CmdSend 0 0 1 0 513 0 0 0 0) 0%nat)).
  left. by vm_compute.
Defined.

(** ** Counterexamples *)

(** C7, as stated, fails: flags naming client and query together are not
    rejected, the peer gets connected; and flags naming reset and query
    together on a connected peer are not rejected either, the peer is
    reset. *)
Lemma connect_two_modes_counterexample :
  (∃ peer',
     connect env_ok peer_new
       (CmdConnect (Z.lor CONNECT_FLAG_CLIENT CONNECT_FLAG_QUERY) 4096)
     = Some (peer', CmdConnect 5 4096, Ok)
     ∧ active peer' = ACTIVE_CONNECTED)
  ∧ (∃ peer',
       connect env_ok peer_connected
         (CmdConnect (Z.lor CONNECT_FLAG_RESET CONNECT_FLAG_QUERY) 0)
       = Some (peer', CmdConnect 12 8192, Ok)).
Proof. split; eexists; by vm_compute. Qed.

(** C8, as stated, fails: a request with valid flags and one vector more
    than [BUS1_VEC_MAX] fails with [EMSGSIZE], not with [EINVAL]. *)
Lemma send_oversized_counterexample :
  VEC_MAX < n_vecs (CmdSend 0 0 1 0 513 0 0 0 0)
  ∧ send (inr (CmdSend 0 0 1 0 513 0 0 0 0)) 0%nat = (0%nat, Err EMSGSIZE)
  ∧ send (inr (CmdSend 0 0 1 0 513 0 0 0 0)) 0%nat ≠ (0%nat, Err EINVAL).
Proof. by vm_compute. Qed.

(** ** Witnesses of the further properties *)

Lemma committed_then_staged_distinct :
  NoDup (Queue.messages (Queue.queue committed_then_staged)).
Proof.
  apply NoDup_cons. split; [|apply NoDup_singleton].
  intros Hin. apply list_elem_of_singleton in Hin. discriminate Hin.
Qed.

Lemma committed_then_staged_allocated :
  Queue.messages_allocated committed_then_staged.
Proof. repeat constructor; by eexists. Qed.

Lemma peer_connected_wf : peer_wf peer_connected.
Proof.
  eexists. split; [reflexivity|]. split.
  - apply committed_then_staged_distinct.
  - apply committed_then_staged_allocated.
Qed.

Lemma connect_failure_changes_nothing_witness :
  connect env_ok peer_connected (CmdConnect 1 4096)
  = Some (peer_connected, CmdConnect 1 4096, Err EISCONN)
  ∧ ∀ peer' param' e,
      connect env_ok peer_connected (CmdConnect 1 4096)
      = Some (peer', param', Err e) →
      peer' = peer_connected ∧ param' = CmdConnect 1 4096.
Proof.
  split; [vm_compute; reflexivity|].
  intros peer' param' e.
  apply (connect_failure_changes_nothing
           CONNECT_FLAG_CLIENT CONNECT_FLAG_MONITOR
           CONNECT_FLAG_QUERY CONNECT_FLAG_RESET page_size
           Examples.type_mask visit_in_order
           env_ok peer_connected (CmdConnect 1 4096) peer' param' e).
Defined.

Lemma connect_keeps_peer_wf_witness :
  peer_wf peer_connected
  ∧ ∃ peer' param' r,
      connect env_ok peer_connected (CmdConnect 8 0)
      = Some (peer', param', r)
      ∧ peer_wf peer'.
Proof.
  split; [apply peer_connected_wf|].
  apply (connect_keeps_peer_wf
           CONNECT_FLAG_CLIENT CONNECT_FLAG_MONITOR
           CONNECT_FLAG_QUERY CONNECT_FLAG_RESET page_size
           Examples.type_mask visit_in_order
           env_ok peer_connected (CmdConnect 8 0)
           QueueExamples.visit_in_order_visits peer_connected_wf).
Defined.

Lemma connect_then_query_witness :
  ∃ peer',
    connect env_ok peer_new (CmdConnect 1 8192)
    = Some (peer', CmdConnect 1 8192, Ok)
    ∧ connect env_ok peer' (CmdConnect 4 0)
      = Some (peer', CmdConnect 4 8192, Ok).
Proof.
  destruct (connect env_ok peer_new (CmdConnect 1 8192))
    as [[[peer' param'] r]|] eqn:Hc; [|by vm_compute in Hc].
  assert (r = Ok) as -> by (vm_compute in Hc; congruence).
  destruct (connect_then_query
              CONNECT_FLAG_CLIENT CONNECT_FLAG_MONITOR
              CONNECT_FLAG_QUERY CONNECT_FLAG_RESET page_size
              Examples.type_mask visit_in_order
              env_ok peer_new (CmdConnect 1 8192) peer' param'
              env_ok (CmdConnect 4 0))
    as (peer_info & Hnew & _ & _ & -> & Hquery);
    [by vm_compute|exact Hc|by vm_compute..|].
  exists peer'. split; [done|].
  injection Hnew as <-. exact Hquery.
Defined.

Lemma connect_new_only_once_witness :
  ∃ peer1,
    bus1_peer_connect_new page_size env_ok peer_new (CmdConnect 1 4096)
    = (peer1, Ok)
    ∧ bus1_peer_connect_new page_size env_ok peer1 (CmdConnect 1 8192)
      = (peer1, Err EISCONN).
Proof.
  eexists. split; [vm_compute; reflexivity|].
  destruct (connect_new_only_once page_size
              env_ok peer_new (CmdConnect 1 4096) _ env_ok (CmdConnect 1 8192)
              eq_refl)
    as (e & Heq & He).
  rewrite (He _ eq_refl) in Heq. exact Heq.
Defined.

Lemma info_reset_frees_committed_unlinks_staged_witness :
  ∃ peer_info',
    bus1_peer_info_reset Examples.type_mask visit_in_order
      (PeerInfo (Pool 8192 [1%positive]) committed_then_staged)
    = Some peer_info'
    ∧ pool peer_info' = Pool 8192 []
    ∧ Queue.heap (queue peer_info') !! 1%positive = None
    ∧ Queue.heap (queue peer_info') !! 2%positive
      = Some (Queue.Node 7 9 2 false)
    ∧ Queue.bus1_queue_commit_staged Examples.type_mask
        (queue peer_info') 2%positive 8
      = Some (queue peer_info', false).
Proof.
  destruct (info_reset_frees_committed_unlinks_staged
              Examples.type_mask visit_in_order
              (PeerInfo (Pool 8192 [1%positive]) committed_then_staged)
              QueueExamples.visit_in_order_visits committed_then_staged_distinct
              committed_then_staged_allocated)
    as (peer_info' & Hreset & Hpool & _ & Hheap & Hmarker).
  exists peer_info'. split; [done|]. split; [done|].
  split; [exact (Hheap 1%positive (Queue.Node 6 7 1 true) eq_refl)|].
  split; [exact (Hheap 2%positive (Queue.Node 7 9 2 true) eq_refl)|].
  apply (Hmarker 2%positive (Queue.Node 7 9 2 true) 8 eq_refl);
    [|reflexivity].
  apply list_elem_of_further, list_elem_of_here.
Defined.




End PeerExamples.
